(** * cellpy [arbinreader]: step table, summary and merge of cycling data

    A shallow embedding of the step-table, summary and merge routines of
    [cellpy/readers/arbinreader.py], and the properties of them that the
    specification states.

    Conventions of the embedding.
    - A pandas frame with a known schema is a list of records, one per
      row, in row order.  The one column the code adds to the raw frame
      at run time ([IR_pct_change]) is kept apart, so that "the column is
      there" is a property of the frame, not of its rows.
    - The summary frame, which the code builds column by column, is a
      list of named columns.
    - Numbers read from the instrument are rationals.  Numbers the code
      computes are numpy doubles idealised to [fl]: an exact rational,
      plus or minus infinity, or not-a-number.  Rounding, overflow and
      the sign of zero are not modelled.
    - The integer columns are numpy's 64-bit integers: a sum on them
      wraps around ([wrap64]).
    - A Python exception is [None] in an [option] result. *)

From stdpp Require Import gmap strings.
From Stdlib Require Import ZArith QArith Qabs Qround String Ascii List Permutation Sorted Bool Lia.
Import ListNotations.

Local Open Scope Z_scope.

(** ** Numbers *)

Inductive fl : Type :=
| Fin (q : Q)
| PInf
| NInf
| NaN.

Definition Qlt_bool (a b : Q) : bool := negb (Qle_bool b a).

Definition fl_neg (x : fl) : fl :=
  match x with
  | Fin q => Fin (- q)
  | PInf => NInf
  | NInf => PInf
  | NaN => NaN
  end.

Definition fl_abs (x : fl) : fl :=
  match x with
  | Fin q => Fin (Qabs q)
  | PInf | NInf => PInf
  | NaN => NaN
  end.

Definition fl_add (x y : fl) : fl :=
  match x, y with
  | NaN, _ | _, NaN => NaN
  | Fin a, Fin b => Fin (a + b)
  | PInf, NInf | NInf, PInf => NaN
  | PInf, _ | _, PInf => PInf
  | NInf, _ | _, NInf => NInf
  end.

Definition fl_sub (x y : fl) : fl := fl_add x (fl_neg y).

(** The sign of a rational as an infinity, or [NaN] for zero: what an
    infinity becomes when multiplied by it, and what it becomes when
    divided by zero. *)
Definition signed_inf (q : Q) : fl :=
  if Qlt_bool 0 q then PInf else if Qlt_bool q 0 then NInf else NaN.

Definition fl_mul (x y : fl) : fl :=
  match x, y with
  | NaN, _ | _, NaN => NaN
  | Fin a, Fin b => Fin (a * b)
  | Fin a, PInf | PInf, Fin a => signed_inf a
  | Fin a, NInf | NInf, Fin a => signed_inf (- a)
  | PInf, PInf | NInf, NInf => PInf
  | PInf, NInf | NInf, PInf => NInf
  end.

(** numpy's true division: a quotient by zero is an infinity or [NaN],
    with a warning and no exception. *)
Definition fl_div (x y : fl) : fl :=
  match x, y with
  | NaN, _ | _, NaN => NaN
  | Fin a, Fin b => if Qeq_bool b 0 then signed_inf a else Fin (a / b)
  | Fin _, (PInf | NInf) => Fin 0
  | PInf, Fin b => if Qlt_bool b 0 then NInf else PInf
  | NInf, Fin b => if Qlt_bool b 0 then PInf else NInf
  | (PInf | NInf), (PInf | NInf) => NaN
  end.

(** Comparisons: every comparison with [NaN] is false. *)
Definition fl_lt (x y : fl) : bool :=
  match x, y with
  | NaN, _ | _, NaN => false
  | Fin a, Fin b => Qlt_bool a b
  | NInf, (Fin _ | PInf) => true
  | Fin _, PInf => true
  | _, _ => false
  end.

Definition fl_gt (x y : fl) : bool := fl_lt y x.

Definition fl_eqb (x y : fl) : bool :=
  match x, y with
  | Fin a, Fin b => Qeq_bool a b
  | PInf, PInf | NInf, NInf => true
  | _, _ => false
  end.

(** The sum of two 64-bit integers as numpy computes it: what is beyond
    the largest or the smallest of them wraps around, without an error. *)
Definition wrap64 (z : Z) : Z := (z + 2 ^ 63) mod 2 ^ 64 - 2 ^ 63.

(** ** [_percentage_change] *)

Definition _percentage_change (x0 x1 : Q) (default_zero : bool) : fl :=
  if Qeq_bool x1 0 then
    let difference := (x1 - x0)%Q in
    if negb (Qeq_bool difference 0) && default_zero then Fin 0
    else Fin difference
  else fl_div (Fin ((x1 - x0) * 100)) (Fin x0).

(** ** The raw table ([dataset.dfdata]) *)

(** One sample.  The fields carry the column headers of the raw frame. *)
Record raw_row : Type := mk_raw_row {
  Data_Point : Z;
  Test_Time : Q;
  Step_Time : Q;
  Cycle_Index : Z;
  Step_Index : Z;
  Current : Q;
  Voltage : Q;
  Charge_Capacity : Q;
  Discharge_Capacity : Q;
  Charge_Energy : Q;
  Discharge_Energy : Q;
  Internal_Resistance : Q;
  DateTime : Q
}.

(** The raw frame, without or with the column [IR_pct_change] that
    [create_step_table] adds to it. *)
Inductive raw_table : Type :=
| Plain (rows : list raw_row)
| WithIR (rows : list (raw_row * fl)).

Definition raw_rows (t : raw_table) : list raw_row :=
  match t with
  | Plain rows => rows
  | WithIR rows => map fst rows
  end.

(** [df[mask]] for a mask computed row by row. *)
Definition select_rows (p : raw_row -> bool) (t : raw_table) : raw_table :=
  match t with
  | Plain rows => Plain (List.filter p rows)
  | WithIR rows => WithIR (List.filter (fun r => p (fst r)) rows)
  end.

(** [Series.pct_change()]: the first entry has no predecessor and is
    [NaN]; entry [i] is [x_i / x_(i-1) - 1]. *)
Fixpoint pct_change_from (prev : Q) (l : list Q) : list fl :=
  match l with
  | [] => []
  | x :: l' => fl_sub (fl_div (Fin x) (Fin prev)) (Fin 1) :: pct_change_from x l'
  end.

Definition pct_change (l : list Q) : list fl :=
  match l with
  | [] => []
  | x :: l' => NaN :: pct_change_from x l'
  end.

(** [df[step_table_txt_ir_change] = df[internal_resistance_txt].pct_change()]:
    the column is appended, or overwritten when it is already there. *)
Definition set_ir_change (t : raw_table) : list (raw_row * fl) :=
  let rows := raw_rows t in
  combine rows (pct_change (map Internal_Resistance rows)).

(** ** [_extract_step_values] *)

Definition Qsum (l : list Q) : Q := fold_right Qplus 0%Q l.

Definition Qmax (a b : Q) : Q := if Qle_bool a b then b else a.
Definition Qmin (a b : Q) : Q := if Qle_bool a b then a else b.

(** The statistics of one signal over a step window whose first sample
    is [r0] and whose other samples are [rest].  The [std] entry of the
    source (a square root) is left out: nothing in the step table logic
    reads it.  The docstring of [create_step_table] calls the entries
    [x_avr], [x_delta] and so on. *)
Record signal_stats : Type := mk_signal_stats {
  x_avr : Q;
  x_max : Q;
  x_min : Q;
  x_start : Q;
  x_end : Q;
  x_delta : fl;
  x_rate : fl
}.

Definition signal (col : raw_row -> Q) (r0 : raw_row) (rest : list raw_row)
    (t_delta : Q) : signal_stats :=
  let xs := map col rest in
  let first := col r0 in
  let final := col (last rest r0) in
  let change := _percentage_change first final true in
  {| x_avr := (Qsum (first :: xs) / inject_Z (Z.of_nat (S (length xs))))%Q;
     x_max := fold_left Qmax xs first;
     x_min := fold_left Qmin xs first;
     x_start := first;
     x_end := final;
     x_delta := change;
     x_rate := fl_div change (Fin t_delta) |}.

Record step_values : Type := mk_step_values {
  I_ : signal_stats;
  V_ : signal_stats;
  Charge_ : signal_stats;
  Discharge_ : signal_stats;
  IR : Q;
  IR_pct_change : fl
}.

(** [f] is the window of one step, rows of the raw frame with its
    [IR_pct_change] column.  [f.iloc[0]] raises on an empty window. *)
Definition _extract_step_values (f : list (raw_row * fl)) : option step_values :=
  match f with
  | [] => None
  | (r0, ir_change0) :: f' =>
      let rest := map fst f' in
      let t_start := Step_Time r0 in
      let t_end := Step_Time (last rest r0) in
      let t_delta := (t_end - t_start)%Q in
      Some {| I_ := signal Current r0 rest t_delta;
              V_ := signal Voltage r0 rest t_delta;
              Charge_ := signal Charge_Capacity r0 rest t_delta;
              Discharge_ := signal Discharge_Capacity r0 rest t_delta;
              IR := Internal_Resistance r0;
              IR_pct_change := ir_change0 |}
  end.

(** ** The step table ([dataset.step_table]) *)

Record step_row : Type := mk_step_row {
  cycle : Z;
  step : Z;
  values : step_values;
  type : option string;
  info : option string
}.

(** [pd.DataFrame(index=index, columns=columns)] makes a frame of rows
    whose cells are all [NaN].  Such a blank row is [None]; the loop of
    [create_step_table] writes the cycle, the step and the 34 values of a
    row together, and leaves [type] and [info] blank ([None]). *)
Abbreviation steps_frame := (list (option step_row)).

Definition blank_steps (number_of_rows : nat) : steps_frame :=
  repeat None number_of_rows.

(** [Series.unique()]: the distinct values in order of first appearance. *)
Fixpoint unique {A : Type} (eqb : A -> A -> bool) (l : list A) : list A :=
  match l with
  | [] => []
  | x :: l' => x :: List.filter (fun y => negb (eqb x y)) (unique eqb l')
  end.

Definition pair_eqb (p q : Z * Z) : bool :=
  (fst p =? fst q) && (snd p =? snd q).

Definition cycle_step (r : raw_row) : Z * Z := (Cycle_Index r, Step_Index r).

(** [df.groupby([cycle_index_header, step_index_header]).size().shape[0]] *)
Definition number_of_groups (rows : list raw_row) : nat :=
  length (unique pair_eqb (map cycle_step rows)).

(** The three writes to row [counter] of [df_steps]; [iloc] raises when
    the position is out of range. *)
Definition fill_row (df_steps : steps_frame) (counter : nat)
    (c s : Z) (result : step_values) : option steps_frame :=
  if (counter <? length df_steps)%nat then
    Some (<[counter := Some {| cycle := c; step := s; values := result;
                               type := None; info := None |}]> df_steps)
  else None.

(** [for step in steps: ...], threading the frame and the counter. *)
Fixpoint step_loop (df_cycle : list (raw_row * fl)) (c : Z) (steps : list Z)
    (df_steps : steps_frame) (counter : nat) : option (steps_frame * nat) :=
  match steps with
  | [] => Some (df_steps, counter)
  | s :: steps' =>
      let df_step := List.filter (fun r => Step_Index (fst r) =? s) df_cycle in
      match _extract_step_values df_step with
      | None => None
      | Some result =>
          match fill_row df_steps counter c s result with
          | None => None
          | Some df_steps' => step_loop df_cycle c steps' df_steps' (S counter)
          end
      end
  end.

(** [for cycle in list_of_cycles: ...] *)
Fixpoint cycle_loop (df : list (raw_row * fl)) (list_of_cycles : list Z)
    (df_steps : steps_frame) (counter : nat) : option (steps_frame * nat) :=
  match list_of_cycles with
  | [] => Some (df_steps, counter)
  | c :: cycles' =>
      let df_cycle := List.filter (fun r => Cycle_Index (fst r) =? c) df in
      let steps := unique Z.eqb (map (fun r => Step_Index (fst r)) df_cycle) in
      match step_loop df_cycle c steps df_steps counter with
      | None => None
      | Some (df_steps', counter') => cycle_loop df cycles' df_steps' counter'
      end
  end.

(** *** The limits of the classification *)

Definition current_limit_value_hard : Q := 1 # 10000000000000.
Definition current_limit_value_soft : Q := 1 # 100000.
Definition stable_current_limit_hard : Q := 2.
Definition stable_current_limit_soft : Q := 4.
Definition stable_voltage_limit_hard : Q := 2.
Definition stable_voltage_limit_soft : Q := 4.
Definition stable_charge_limit_hard : Q := 2.
Definition stable_charge_limit_soft : Q := 5.
Definition ir_change_limit : Q := 1 # 100000.

(** *** The masks, one row at a time *)

Definition sum_abs_current (r : step_row) : Q :=
  (Qabs (x_max (I_ (values r))) + Qabs (x_min (I_ (values r))))%Q.

Definition mask_no_current_hard (r : step_row) : bool :=
  Qlt_bool (sum_abs_current r) current_limit_value_hard.
Definition mask_no_current_soft (r : step_row) : bool :=
  Qlt_bool (sum_abs_current r) current_limit_value_soft.

Definition mask_voltage_down (r : step_row) : bool :=
  fl_lt (x_delta (V_ (values r))) (Fin (- stable_voltage_limit_hard)).
Definition mask_voltage_up (r : step_row) : bool :=
  fl_gt (x_delta (V_ (values r))) (Fin stable_voltage_limit_hard).
Definition mask_voltage_stable (r : step_row) : bool :=
  fl_lt (fl_abs (x_delta (V_ (values r)))) (Fin stable_voltage_limit_hard).

Definition mask_current_down (r : step_row) : bool :=
  fl_lt (x_delta (I_ (values r))) (Fin (- stable_current_limit_soft)).
Definition mask_current_up (r : step_row) : bool :=
  fl_gt (x_delta (I_ (values r))) (Fin stable_current_limit_soft).
Definition mask_current_negative (r : step_row) : bool :=
  Qlt_bool (x_avr (I_ (values r))) (- current_limit_value_hard).
Definition mask_current_positive (r : step_row) : bool :=
  Qlt_bool current_limit_value_hard (x_avr (I_ (values r))).
Definition mask_galvanostatic (r : step_row) : bool :=
  fl_lt (fl_abs (x_delta (I_ (values r)))) (Fin stable_current_limit_soft).

Definition mask_charge_changed (r : step_row) : bool :=
  fl_gt (fl_abs (x_delta (Charge_ (values r)))) (Fin stable_charge_limit_hard).
Definition mask_discharge_changed (r : step_row) : bool :=
  fl_gt (fl_abs (x_delta (Discharge_ (values r)))) (Fin stable_charge_limit_hard).

Definition mask_ir_changed (r : step_row) : bool :=
  fl_gt (fl_abs (IR_pct_change (values r))) (Fin ir_change_limit).

Definition mask_no_change (r : step_row) : bool :=
  fl_eqb (x_delta (V_ (values r))) (Fin 0)
  && fl_eqb (x_delta (I_ (values r))) (Fin 0)
  && fl_eqb (x_delta (Charge_ (values r))) (Fin 0)
  && fl_eqb (x_delta (Discharge_ (values r))) (Fin 0).

(** [df_steps.loc[mask, step_table_txt_type] = t].  On a blank row every
    comparison is one with [NaN], so no mask holds there. *)
Definition set_type (mask : step_row -> bool) (t : string) (r : step_row) : step_row :=
  if mask r then
    {| cycle := cycle r; step := step r; values := values r;
       type := Some t; info := info r |}
  else r.

Definition loc_set_type (mask : step_row -> bool) (t : string)
    (df_steps : steps_frame) : steps_frame :=
  map (option_map (set_type mask t)) df_steps.

(** The seven assignments of [create_step_table], in the order of the
    source.  The masks read only the value columns, which the
    assignments do not change. *)
Definition rules : list ((step_row -> bool) * string) :=
  [ (fun r => mask_no_current_hard r && mask_voltage_up r, "ocvrlx_up"%string);
    (fun r => mask_no_current_hard r && mask_voltage_down r, "ocvrlx_down"%string);
    (fun r => mask_discharge_changed r && mask_current_negative r, "discharge"%string);
    (fun r => mask_charge_changed r && mask_current_positive r, "charge"%string);
    (fun r => mask_voltage_stable r && mask_current_negative r && mask_current_down r,
      "cv_discharge"%string);
    (fun r => mask_voltage_stable r && mask_current_positive r && mask_current_down r,
      "cv_charge"%string);
    (mask_no_change, "ir"%string) ].

Definition assign_types (df_steps : steps_frame) : steps_frame :=
  fold_left (fun df rule => loc_set_type (fst rule) (snd rule) df) rules df_steps.

(** ** Frames built column by column ([dataset.dfsummary]) *)

(** [CDate seconds] is the text that
    [xldate_as_datetime(stamp, option="to_string")] renders for a time
    stamp: a date and a time of day to the second, here the number of
    whole seconds from 1899-12-30 00:00:00; its digits are the work of
    the [datetime] library and are not spelled out. *)
Inductive cell : Type :=
| CInt (z : Z)
| CNum (x : fl)
| CDate (seconds : Z)
| CStr (s : string).

Definition frame : Type := list (string * list cell).

(** [df[name]]; a missing column raises [KeyError]. *)
Fixpoint column (name : string) (df : frame) : option (list cell) :=
  match df with
  | [] => None
  | (h, col) :: df' => if String.eqb h name then Some col else column name df'
  end.

Definition columns (df : frame) : list string := map fst df.

(** [df.insert(0, column=name, value=col)]; inserting a column that is
    already there raises. *)
Definition insert_first (name : string) (col : list cell) (df : frame) : option frame :=
  match column name df with
  | Some _ => None
  | None => Some ((name, col) :: df)
  end.

(** [df[name] = col] and [df.loc[:, name] = col]: overwrite the column in
    place, or append it when it is new. *)
Fixpoint set_column (name : string) (col : list cell) (df : frame) : frame :=
  match df with
  | [] => [(name, col)]
  | (h, c) :: df' =>
      if String.eqb h name then (h, col) :: df' else (h, c) :: set_column name col df'
  end.

(** [df.pop(name)] *)
Definition pop_column (name : string) (df : frame) : frame :=
  List.filter (fun hc => negb (String.eqb (fst hc) name)) df.

(** The column headers of the raw frame. *)
Definition data_point_txt : string := "Data_Point".
Definition test_time_txt : string := "Test_Time".
Definition step_time_txt : string := "Step_Time".
Definition cycle_index_txt : string := "Cycle_Index".
Definition step_index_txt : string := "Step_Index".
Definition current_txt : string := "Current".
Definition voltage_txt : string := "Voltage".
Definition charge_capacity_txt : string := "Charge_Capacity".
Definition discharge_capacity_txt : string := "Discharge_Capacity".
Definition charge_energy_txt : string := "Charge_Energy".
Definition discharge_energy_txt : string := "Discharge_Energy".
Definition internal_resistance_txt : string := "Internal_Resistance".
Definition datetime_txt : string := "DateTime".

(** The column headers of the step table that the merge reads. *)
Definition step_table_txt_cycle : string := "cycle".
Definition step_table_txt_step : string := "step".
Definition step_table_txt_type : string := "type".
Definition step_table_txt_info : string := "info".
Definition step_table_txt_ir_change : string := "IR_pct_change".

Definition CQ (q : Q) : cell := CNum (Fin q).

(** The raw frame as named columns, for the code that addresses it by
    header. *)
Definition frame_of_raw (t : raw_table) : frame :=
  let rows := raw_rows t in
  [ (data_point_txt, map (fun r => CInt (Data_Point r)) rows);
    (test_time_txt, map (fun r => CQ (Test_Time r)) rows);
    (step_time_txt, map (fun r => CQ (Step_Time r)) rows);
    (cycle_index_txt, map (fun r => CInt (Cycle_Index r)) rows);
    (step_index_txt, map (fun r => CInt (Step_Index r)) rows);
    (current_txt, map (fun r => CQ (Current r)) rows);
    (voltage_txt, map (fun r => CQ (Voltage r)) rows);
    (charge_capacity_txt, map (fun r => CQ (Charge_Capacity r)) rows);
    (discharge_capacity_txt, map (fun r => CQ (Discharge_Capacity r)) rows);
    (charge_energy_txt, map (fun r => CQ (Charge_Energy r)) rows);
    (discharge_energy_txt, map (fun r => CQ (Discharge_Energy r)) rows);
    (internal_resistance_txt, map (fun r => CQ (Internal_Resistance r)) rows);
    (datetime_txt, map (fun r => CQ (DateTime r)) rows) ]
  ++ match t with
     | Plain _ => []
     | WithIR rows' => [(step_table_txt_ir_change, map (fun r => CNum (snd r)) rows')]
     end.

(** ** [xldate_as_datetime] *)

(** A [datetime] is a number of microseconds from 1899-12-30 00:00:00,
    the day the time stamps of the instrument count from.  The dates
    that Python holds are those of the years 1 to 9999: 0001-01-01 is
    693593 days before that day, and 9999-12-31 is 2958465 days after
    it. *)
Definition us_per_day : Z := 86400000000.
Definition datetime_min : Z := - 693593 * us_per_day.
Definition datetime_max : Z := 2958466 * us_per_day - 1.

(** [datetime.timedelta(days=x)] keeps whole microseconds: it rounds to
    the nearest one, a half away from zero. *)
Definition round_half_away (q : Q) : Z :=
  if Qle_bool 0 q then Qfloor (q + (1 # 2)) else Qceiling (q - (1 # 2)).

(** [datetime.datetime(1899, 12, 30) + datetime.timedelta(days=xldate)],
    [datemode] being 0.  The sum raises [OverflowError] outside the years
    1 to 9999 (and so does [timedelta] beyond 999999999 days, which is
    further out). *)
Definition xldate_as_datetime (xldate : Q) : option Z :=
  let d := round_half_away (xldate * inject_Z us_per_day) in
  if (datetime_min <=? d) && (d <=? datetime_max) then Some d else None.

(** [option="to_string"]: [strftime] with the format
    ["%Y-%m-%d %H:%M:%S"], which raises [ValueError] for a year before
    1900 (1900-01-01 is two days after 1899-12-30) and leaves out the
    microseconds. *)
Definition xldate_to_string (xldate : Q) : option cell :=
  d ← xldate_as_datetime xldate;
  if 2 * us_per_day <=? d then Some (CDate (d / 1000000)) else None.

(** ** The dataset *)

Record dataset : Type := mk_dataset {
  mass : Q;
  start_datetime : option Q;
  dfdata : raw_table;
  dfsummary : frame;
  dfsummary_made : bool;
  step_table : steps_frame;
  step_table_made : bool;
  merged : bool;
  no_cycles : Z;
  charge_steps : option (gmap Z (list Z));
  discharge_steps : option (gmap Z (list Z));
  ocv_steps : option (gmap Z (list Z))
}.

(** ** [create_step_table] *)

Definition create_step_table (d : dataset) : option dataset :=
  (* adding pct change col(s): the raw frame of the dataset is changed *)
  let df := set_ir_change (dfdata d) in
  (* finding size *)
  let number_of_rows := number_of_groups (map fst df) in
  (* creating it *)
  let df_steps := blank_steps number_of_rows in
  (* finding cycle numbers *)
  let list_of_cycles := unique Z.eqb (map (fun r => Cycle_Index (fst r)) df) in
  (* iterating and populating step_table *)
  match cycle_loop df list_of_cycles df_steps 0 with
  | None => None
  | Some (df_steps, _) =>
      (* checking step-type *)
      let df_steps := assign_types df_steps in
      Some {| mass := mass d;
              start_datetime := start_datetime d;
              dfdata := WithIR df;
              dfsummary := dfsummary d;
              dfsummary_made := dfsummary_made d;
              step_table := df_steps;
              step_table_made := true;
              merged := merged d;
              no_cycles := no_cycles d;
              charge_steps := charge_steps d;
              discharge_steps := discharge_steps d;
              ocv_steps := ocv_steps d |}
  end.

(** ** [get_step_numbers] *)

(** The switches of the [arbindata] object that the modelled methods read. *)
Record arbindata : Type := mk_arbindata {
  force_step_table_creation : bool;
  force_all : bool;
  cycle_mode : string
}.

(** The values [arbindata.__init__] gives them. *)
Definition default_self : arbindata :=
  {| force_step_table_creation := true; force_all := false; cycle_mode := "anode" |}.

Definition list_of_step_types : list string :=
  [ "charge"; "discharge"; "cv_charge"; "cv_discharge"; "charge_cv";
    "discharge_cv"; "ocvrlx_up"; "ocvrlx_down"; "ir"; "rest"; "not_known" ]%string.

Definition string_in (s : string) (l : list string) : bool :=
  existsb (String.eqb s) l.

(** [str.lower()] on ASCII text. *)
Definition lower_ascii (c : ascii) : ascii :=
  let n := nat_of_ascii c in
  if ((65 <=? n) && (n <=? 90))%nat then ascii_of_nat (n + 32) else c.

Fixpoint lower (s : string) : string :=
  match s with
  | EmptyString => EmptyString
  | String c s' => String (lower_ascii c) (lower s')
  end.

(** [numpy.unique]: the distinct values in ascending order. *)
Fixpoint insert_sorted (x : Z) (l : list Z) : list Z :=
  match l with
  | [] => [x]
  | y :: l' =>
      if x <? y then x :: l
      else if x =? y then l
      else y :: insert_sorted x l'
  end.

Definition np_unique (l : list Z) : list Z := fold_right insert_sorted [] l.

(** Python's [max] of a column of integers; it raises on an empty one. *)
Definition max_Z (l : list Z) : option Z :=
  match l with
  | [] => None
  | x :: l' => Some (fold_left Z.max l' x)
  end.

(** [get_cycle_numbers].  The [amax] it takes first is not used, and is
    [nan] without an error for an empty column. *)
Definition get_cycle_numbers (d : dataset) : option (list Z) :=
  let cycles := map Cycle_Index (raw_rows (dfdata d)) in
  Some (np_unique cycles).

(** What [get_step_numbers] hands back: Python's [None], a frame
    ([pdtype]), or a dictionary from cycle to step numbers. *)
Inductive step_numbers : Type :=
| No_result
| As_frame (out : steps_frame)
| As_dict (out : gmap Z (list Z)).

(** The step types looked up for a requested [steptype], or [None] when it
    is neither a core nor a helper step type. *)
Definition steptypes_of (steptype : string) (allctypes : bool) : option (list string) :=
  let steptype := lower steptype in
  let steptypes :=
    if string_in steptype list_of_step_types then Some [steptype]
    else if String.eqb steptype "ocv" then Some ["ocvrlx_up"; "ocvrlx_down"]%string
    else if String.eqb steptype "charge_discharge" then Some ["charge"; "discharge"]%string
    else None in
  match steptypes with
  | None => None
  | Some steptypes =>
      if allctypes then
        let add_these :=
          flat_map (fun st =>
            if string_in st ["charge"; "discharge"]%string
            then [(st ++ "_cv")%string; ("cv_" ++ st)%string] else []) steptypes in
        Some (steptypes ++ add_these)
      else Some steptypes
  end.

Definition has_type (s : string) (r : step_row) : bool :=
  match type r with
  | Some t => String.eqb t s
  | None => false
  end.

(** [st[(st['type'] == s) & (st['cycle'] == cycle)]['step'].tolist()] *)
Definition steps_of_type (st : steps_frame) (s : string) (c : Z) : list Z :=
  flat_map (fun row =>
    match row with
    | Some r => if has_type s r && (cycle r =? c) then [step r] else []
    | None => []
    end) st.

(** The list stored under one cycle of the dictionary. *)
Definition steplist_of (st : steps_frame) (steptypes : list string) (c : Z) : list Z :=
  let steplist := flat_map (fun s => steps_of_type st s c) steptypes in
  match steplist with
  | [] => [0]
  | _ => steplist
  end.

Definition get_step_numbers (self : arbindata) (steptype : string)
    (allctypes pdtype : bool) (cycle_number : option Z) (d : dataset)
    : option (dataset * step_numbers) :=
  (* check if step_table is there *)
  let made :=
    if step_table_made d then Some (Some d)
    else if force_step_table_creation self || force_all self
         then option_map Some (create_step_table d)
         else Some None in
  match made with
  | None => None
  | Some None => Some (d, No_result)
  | Some (Some d) =>
      (* check if steptype is valid *)
      match steptypes_of steptype allctypes with
      | None => Some (d, No_result)
      | Some steptypes =>
          let st := step_table d in
          (* retrieving cycle numbers *)
          let cycle_numbers :=
            match cycle_number with
            | None => get_cycle_numbers d
            | Some c => Some [c]
            end in
          match cycle_numbers with
          | None => None
          | Some cycle_numbers =>
              if pdtype then
                Some (d, As_frame (List.filter (fun row =>
                  match row with
                  | Some r =>
                      existsb (fun s => has_type s r) steptypes
                      && existsb (Z.eqb (cycle r)) cycle_numbers
                  | None => false
                  end) st))
              else
                Some (d, As_dict (fold_left (fun out c =>
                  <[c := steplist_of st steptypes c]> out) cycle_numbers ∅))
          end
      end
  end.

(** ** [_make_summary] *)

(** The headers of the columns the summary adds. *)
Definition summary_txt_discharge_cap : string := "Discharge_Capacity(mAh/g)".
Definition summary_txt_charge_cap : string := "Charge_Capacity(mAh/g)".
Definition summary_txt_cum_charge_cap : string := "Cumulated_Charge_Capacity(mAh/g)".
Definition summary_txt_coul_eff : string := "Coulombic_Efficiency(percentage)".
Definition summary_txt_coul_diff : string := "Coulombic_Difference(mAh/g)".
Definition summary_txt_cum_coul_diff : string := "Cumulated_Coulombic_Difference(mAh/g)".
Definition summary_txt_discharge_cap_loss : string := "Discharge_Capacity_Loss(mAh/g)".
Definition summary_txt_charge_cap_loss : string := "Charge_Capacity_Loss(mAh/g)".
Definition summary_txt_cum_discharge_cap_loss : string :=
  "Cumulated_Discharge_Capacity_Loss(mAh/g)".
Definition summary_txt_cum_charge_cap_loss : string :=
  "Cumulated_Charge_Capacity_Loss(mAh/g)".
Definition summary_txt_ir_discharge : string := "ir_discharge".
Definition summary_txt_ir_charge : string := "ir_charge".
Definition summary_txt_ocv_1_min : string := "ocv_first_min".
Definition summary_txt_ocv_2_min : string := "ocv_second_min".
Definition summary_txt_ocv_1_max : string := "ocv_first_max".
Definition summary_txt_ocv_2_max : string := "ocv_second_max".
Definition summary_txt_datetime_txt : string := "date_time_txt".
Definition summary_txt_endv_discharge : string := "end_voltage_discharge".
Definition summary_txt_endv_charge : string := "end_voltage_charge".

Record summary_options : Type := mk_summary_options {
  mass_arg : option Q;
  update_it : bool;
  select_columns : bool;
  find_ocv : bool;
  find_ir : bool;
  find_end_voltage : bool;
  convert_date : bool;
  sort_my_columns : bool;
  use_arbin_stat_file : bool;
  ensure_step_table : bool
}.

(** The defaults of the keyword arguments of [_make_summary]. *)
Definition default_options : summary_options :=
  {| mass_arg := None; update_it := false; select_columns := false;
     find_ocv := false; find_ir := false; find_end_voltage := false;
     convert_date := true; sort_my_columns := true;
     use_arbin_stat_file := true; ensure_step_table := false |}.

Definition with_dfdata (d : dataset) (t : raw_table) : dataset :=
  {| mass := mass d; start_datetime := start_datetime d; dfdata := t;
     dfsummary := dfsummary d; dfsummary_made := dfsummary_made d;
     step_table := step_table d; step_table_made := step_table_made d;
     merged := merged d; no_cycles := no_cycles d;
     charge_steps := charge_steps d; discharge_steps := discharge_steps d;
     ocv_steps := ocv_steps d |}.

Definition with_mass (d : dataset) (m : Q) : dataset :=
  {| mass := m; start_datetime := start_datetime d; dfdata := dfdata d;
     dfsummary := dfsummary d; dfsummary_made := dfsummary_made d;
     step_table := step_table d; step_table_made := step_table_made d;
     merged := merged d; no_cycles := no_cycles d;
     charge_steps := charge_steps d; discharge_steps := discharge_steps d;
     ocv_steps := ocv_steps d |}.

Definition with_summary (d : dataset) (df : frame) : dataset :=
  {| mass := mass d; start_datetime := start_datetime d; dfdata := dfdata d;
     dfsummary := df; dfsummary_made := true;
     step_table := step_table d; step_table_made := step_table_made d;
     merged := merged d; no_cycles := no_cycles d;
     charge_steps := charge_steps d; discharge_steps := discharge_steps d;
     ocv_steps := ocv_steps d |}.

(** Does the cell hold the integer [z]? *)
Definition cell_is (z : Z) (c : cell) : bool :=
  match c with
  | CInt z' => z =? z'
  | CNum (Fin q) => Qeq_bool q (inject_Z z)
  | _ => false
  end.

(** [series.isin(values)] on a column of integers. *)
Definition isin (values : list cell) (z : Z) : bool := existsb (cell_is z) values.

(** [_select_last]: the largest data point of each of the cycles
    [1 .. max(cycle)]; [max] raises on an empty selection. *)
Fixpoint last_items (rows : list raw_row) (cycles : list Z) : option (list Z) :=
  match cycles with
  | [] => Some []
  | j :: cycles' =>
      match max_Z (map Data_Point (List.filter (fun r => Cycle_Index r =? j) rows)) with
      | None => None
      | Some last_item =>
          match last_items rows cycles' with
          | None => None
          | Some steps => Some (last_item :: steps)
          end
      end
  end.

Definition _select_last (t : raw_table) : option (raw_row -> bool) :=
  let rows := raw_rows t in
  match max_Z (map Cycle_Index rows) with
  | None => None
  | Some max_step =>
      match last_items rows (map (fun j => Z.of_nat j + 1) (seq 0 (Z.to_nat max_step))) with
      | None => None
      | Some steps => Some (fun r => existsb (Z.eqb (Data_Point r)) steps)
      end
  end.

(** [Series.cumsum()]: a [NaN] entry stays [NaN] in the result and is
    skipped by the running sum. *)
Fixpoint cumsum_from (acc : fl) (l : list fl) : list fl :=
  match l with
  | [] => []
  | NaN :: l' => NaN :: cumsum_from acc l'
  | x :: l' => let acc' := fl_add acc x in acc' :: cumsum_from acc' l'
  end.

Definition cumsum (l : list fl) : list fl := cumsum_from (Fin 0) l.

(** The loss loops: entry [0] is [0.0], entry [j] is
    [column[j - 1] - column[j]]. *)
Fixpoint loss_from (prev : fl) (l : list fl) : list fl :=
  match l with
  | [] => []
  | x :: l' => fl_sub prev x :: loss_from x l'
  end.

Definition loss (l : list fl) : list fl :=
  match l with
  | [] => []
  | x :: l' => Fin 0 :: loss_from x l'
  end.

Definition columns_to_keep : list string :=
  [ "Charge_Capacity"; "Charge_Energy"; "Current"; "Cycle_Index"; "Data_Point";
    "DateTime"; "Discharge_Capacity"; "Discharge_Energy"; "Internal_Resistance";
    "Step_Index"; "Step_Time"; "Test_ID"; "Test_Time"; "Voltage" ]%string.

(** [set_col_first]: each name of [col_names] in turn is moved to the
    front.  A name that is missing stops the loop, and the [finally]
    clause returns the frame with the moves made so far. *)
Fixpoint remove_first (name : string) (l : list string) : list string :=
  match l with
  | [] => []
  | h :: l' => if String.eqb h name then l' else h :: remove_first name l'
  end.

Fixpoint move_first (col_names column_headings : list string) : list string :=
  match col_names with
  | [] => column_headings
  | col_name :: col_names' =>
      if string_in col_name column_headings
      then move_first col_names' (col_name :: remove_first col_name column_headings)
      else column_headings
  end.

(** [df.reindex(columns=column_headings)] *)
Definition reindex (column_headings : list string) (df : frame) : frame :=
  map (fun h =>
    match column h df with
    | Some col => (h, col)
    | None => (h, map (fun _ => CNum NaN) (match df with [] => [] | hc :: _ => snd hc end))
    end) column_headings.

Definition set_col_first (df : frame) (col_names : list string) : frame :=
  reindex (move_first col_names (columns df)) df.

(** A dictionary attribute of the dataset is used when it is there and
    not empty ([if not test.discharge_steps: ...]). *)
Definition given (steps : option (gmap Z (list Z))) : option (gmap Z (list Z)) :=
  match steps with
  | Some m => if bool_decide (m = ∅) then None else Some m
  | None => None
  end.

(** The dictionary a derivation works with: the attribute of the dataset,
    or else what [get_step_numbers] returns, which may be Python's
    [None].  (With [pdtype=False] it is never a frame.) *)
Definition steps_dict (self : arbindata) (attribute : option (gmap Z (list Z)))
    (steptype : string) (d : dataset) : option (dataset * option (gmap Z (list Z))) :=
  match given attribute with
  | Some m => Some (d, Some m)
  | None =>
      match get_step_numbers self steptype false false None d with
      | Some (d', As_dict m) => Some (d', Some m)
      | Some (d', No_result) => Some (d', None)
      | _ => None
      end
  end.

(** [dfdata[(dfdata[c_txt] == cycle) & (dfdata[s_txt] == step)]] *)
Definition step_window (d : dataset) (c s : Z) : list raw_row :=
  List.filter (fun r => (Cycle_Index r =? c) && (Step_Index r =? s)) (raw_rows (dfdata d)).

(** [_get_ocv] with [cycle_number=None]: the windows of the steps of the
    dictionary that are not empty.  Only the cycle and the voltage of a
    window are read afterwards. *)
Definition _get_ocv (self : arbindata) (ocv_type : string) (d : dataset)
    : option (dataset * list (list raw_row)) :=
  '(d, steps) ← steps_dict self (ocv_steps d) ocv_type d;
  (* [ocv_steps.items()] *)
  steps ← steps;
  Some (d, flat_map (fun cs : Z * list Z =>
             flat_map (fun s =>
               match step_window d (fst cs) s with
               | [] => []
               | c => [c]
               end) (snd cs)) (map_to_list steps)).

(** The two columns of one direction of relaxation: zero, or the
    smallest and largest voltage of the last window of the row's cycle. *)
Definition ocv_columns (summary_rows : list raw_row) (ocv : list (list raw_row))
    : list fl * list fl :=
  fold_left (fun cols (j : list raw_row) =>
    match j with
    | [] => cols
    | r0 :: j' =>
        let c := Cycle_Index r0 in
        let v_min := fold_left Qmin (map Voltage j') (Voltage r0) in
        let v_max := fold_left Qmax (map Voltage j') (Voltage r0) in
        let put v := fun (rx : raw_row * fl) =>
          if Cycle_Index (fst rx) =? c then Fin v else snd rx in
        (map (put v_min) (combine summary_rows (fst cols)),
         map (put v_max) (combine summary_rows (snd cols)))
    end) ocv
    (map (fun _ => Fin 0) summary_rows, map (fun _ => Fin 0) summary_rows).

(** One entry of the end-voltage and resistance columns: [pick] chooses
    the step of the list ([step[-1]] or [step[0]]) and the value of its
    window ([values[-1]] or [values[0]]); a step number of zero stands
    for "no step" and gives [0]. *)
Definition step_entry (d : dataset) (steps : option (gmap Z (list Z)))
    (pick : forall A : Type, list A -> option A) (col : raw_row -> Q) (c : Z)
    : option fl :=
  (* [steps[cycle]]: [None] has no entries, and a missing key raises *)
  steps ← steps;
  step ← steps !! c;
  s ← pick Z step;
  if s =? 0 then Some (Fin 0)
  else v ← pick Q (map col (step_window d c s)); Some (Fin v).

Definition pick_last (A : Type) (l : list A) : option A := List.last (map Some l) None.
Definition pick_first (A : Type) (l : list A) : option A := List.head l.

(** [mapM] over the rows of the summary. *)
Fixpoint for_rows {A : Type} (f : Z -> option A) (cycles : list Z) : option (list A) :=
  match cycles with
  | [] => Some []
  | c :: cycles' => x ← f c; xs ← for_rows f cycles'; Some (x :: xs)
  end.

Definition fl_cells (l : list fl) : list cell := map CNum l.

(** The part of [_make_summary] under [if find_ocv:]. *)
Definition summary_find_ocv (self : arbindata) (rows : list raw_row)
    (test : dataset) (dfsummary : frame) : option (dataset * frame) :=
  let anode := String.eqb (cycle_mode self) "anode" in
  let ocv1_type := if anode then "ocvrlx_up"%string else "ocvrlx_down"%string in
  let ocv2_type := if anode then "ocvrlx_down"%string else "ocvrlx_up"%string in
  '(test, ocv_1) ← _get_ocv self ocv1_type test;
  '(test, ocv_2) ← _get_ocv self ocv2_type test;
  let cols_1 := ocv_columns rows ocv_1 in
  dfsummary ← insert_first summary_txt_ocv_1_min (fl_cells (fst cols_1)) dfsummary;
  dfsummary ← insert_first summary_txt_ocv_1_max (fl_cells (snd cols_1)) dfsummary;
  let cols_2 := ocv_columns rows ocv_2 in
  dfsummary ← insert_first summary_txt_ocv_2_min (fl_cells (fst cols_2)) dfsummary;
  dfsummary ← insert_first summary_txt_ocv_2_max (fl_cells (snd cols_2)) dfsummary;
  Some (test, dfsummary).

(** The parts under [if find_end_voltage:] ([pick_last], [Voltage]) and
    under [if find_ir:] ([pick_first], [Internal_Resistance]); they
    differ in nothing else but the headers of their two columns. *)
Definition summary_find_steps (self : arbindata)
    (pick : forall A : Type, list A -> option A) (col : raw_row -> Q)
    (discharge_title charge_title : string) (rows : list raw_row)
    (test : dataset) (dfsummary : frame) : option (dataset * frame) :=
  '(test, discharge_steps) ← steps_dict self (discharge_steps test) "discharge" test;
  '(test, charge_steps) ← steps_dict self (charge_steps test) "charge" test;
  values ← for_rows (fun c =>
              dc ← step_entry test discharge_steps pick col c;
              ch ← step_entry test charge_steps pick col c;
              Some (dc, ch)) (map Cycle_Index rows);
  (* only_zeros + values *)
  let frame_dc := map (fun v => fl_add (Fin 0) (fst v)) values in
  let frame_c := map (fun v => fl_add (Fin 0) (snd v)) values in
  dfsummary ← insert_first discharge_title (fl_cells frame_dc) dfsummary;
  dfsummary ← insert_first charge_title (fl_cells frame_c) dfsummary;
  Some (test, dfsummary).

Definition when (b : bool) (f : dataset -> frame -> option (dataset * frame))
    (test : dataset) (dfsummary : frame) : option (dataset * frame) :=
  if b then f test dfsummary else Some (test, dfsummary).

(** The rows of the raw table that the summary is made of: those whose
    data point is in the summary the dataset has so far (the table of
    statistics of the instrument, to begin with), or the last row of
    each cycle. *)
Definition summary_requirment (o : summary_options) (test : dataset)
    : option (raw_row -> bool) :=
  if use_arbin_stat_file o
  then data_points ← column data_point_txt (dfsummary test);
       Some (fun r => isin data_points (Data_Point r))
  else _select_last (dfdata test).

(** The part under [if convert_date:]: the time stamps of the rows as
    text, in a column of their own. *)
Definition summary_dates (o : summary_options) (rows : list raw_row) (dfsummary : frame)
    : option frame :=
  if convert_date o
  then newstamps ← mapM xldate_to_string (map DateTime rows);
       Some (set_column summary_txt_datetime_txt newstamps dfsummary)
  else Some dfsummary.

(** The columns of the summary, from the selected rows [selected] of the
    raw table.  The dataset is threaded through because looking up the
    steps may build the step table. *)
Definition summary_frame (self : arbindata) (o : summary_options) (mass_ : Q)
    (selected : raw_table) (test : dataset) : option (dataset * frame) :=
  let rows := raw_rows selected in
  let dfsummary := frame_of_raw selected in
  let dfsummary :=
    if select_columns o
    then fold_left (fun df column_name =>
           if string_in column_name columns_to_keep then df
           else pop_column column_name df) (columns dfsummary) dfsummary
    else dfsummary in
  let discharge_capacity :=
    map (fun r => fl_div (Fin (Discharge_Capacity r * 1000000)) (Fin mass_)) rows in
  dfsummary ← insert_first summary_txt_discharge_cap (fl_cells discharge_capacity) dfsummary;
  let charge_capacity :=
    map (fun r => fl_div (Fin (Charge_Capacity r * 1000000)) (Fin mass_)) rows in
  dfsummary ← insert_first summary_txt_charge_cap (fl_cells charge_capacity) dfsummary;
  dfsummary ← insert_first summary_txt_cum_charge_cap
                 (fl_cells (cumsum charge_capacity)) dfsummary;
  let col_eff :=
    map (fun r => fl_div (Fin (100 * Charge_Capacity r)) (Fin (Discharge_Capacity r))) rows in
  dfsummary ← insert_first summary_txt_coul_eff (fl_cells col_eff) dfsummary;
  let col_diff :=
    map (fun cd => fl_sub (fst cd) (snd cd)) (combine charge_capacity discharge_capacity) in
  dfsummary ← insert_first summary_txt_coul_diff (fl_cells col_diff) dfsummary;
  dfsummary ← insert_first summary_txt_cum_coul_diff (fl_cells (cumsum col_diff)) dfsummary;
  let discharge_loss := loss discharge_capacity in
  dfsummary ← insert_first summary_txt_discharge_cap_loss (fl_cells discharge_loss) dfsummary;
  let charge_loss := loss charge_capacity in
  dfsummary ← insert_first summary_txt_charge_cap_loss (fl_cells charge_loss) dfsummary;
  dfsummary ← insert_first summary_txt_cum_discharge_cap_loss
                 (fl_cells (cumsum discharge_loss)) dfsummary;
  dfsummary ← insert_first summary_txt_cum_charge_cap_loss
                 (fl_cells (cumsum charge_loss)) dfsummary;
  dfsummary ← summary_dates o rows dfsummary;
  '(test, dfsummary) ← when (find_ocv o) (summary_find_ocv self rows) test dfsummary;
  '(test, dfsummary) ← when (find_end_voltage o)
      (summary_find_steps self pick_last Voltage
         summary_txt_endv_discharge summary_txt_endv_charge rows) test dfsummary;
  '(test, dfsummary) ← when (find_ir o)
      (summary_find_steps self pick_first Internal_Resistance
         summary_txt_ir_discharge summary_txt_ir_charge rows) test dfsummary;
  let dfsummary :=
    if sort_my_columns o
    then set_col_first dfsummary
           [ (if convert_date o then summary_txt_datetime_txt else datetime_txt);
             test_time_txt; data_point_txt; cycle_index_txt ]
    else dfsummary in
  Some (test, dfsummary).

(** [if not mass: ...]: the mass given, unless it is [None] or zero. *)
Definition given_mass (o : summary_options) : option Q :=
  match mass_arg o with
  | Some m => if Qeq_bool m 0 then None else Some m
  | None => None
  end.

Definition _make_summary (self : arbindata) (o : summary_options) (test : dataset)
    : option dataset :=
  (* if not mass: mass = test.mass; else: if update_it: test.mass = mass *)
  let mass_ := match given_mass o with Some m => m | None => mass test end in
  let test :=
    match given_mass o with
    | Some m => if update_it o then with_mass test m else test
    | None => test
    end in
  test ← (if ensure_step_table o && negb (step_table_made test)
          then create_step_table test else Some test);
  summary_requirment ← summary_requirment o test;
  let selected := select_rows summary_requirment (dfdata test) in
  '(test, dfsummary) ← summary_frame self o mass_ selected test;
  Some (with_summary test dfsummary).

(** ** [_append] *)

Definition map_raw (f : raw_row -> raw_row) (t : raw_table) : raw_table :=
  match t with
  | Plain rows => Plain (map f rows)
  | WithIR rows => WithIR (map (fun r => (f (fst r), snd r)) rows)
  end.

(** [pd.concat([a, b], ignore_index=True)] on raw frames: the rows of [a]
    followed by those of [b]; a column that only one of them has is
    filled with [NaN] in the rows of the other. *)
Definition concat_raw (a b : raw_table) : raw_table :=
  match a, b with
  | Plain r1, Plain r2 => Plain (r1 ++ r2)
  | WithIR r1, WithIR r2 => WithIR (r1 ++ r2)
  | Plain r1, WithIR r2 => WithIR (map (fun r => (r, NaN)) r1 ++ r2)
  | WithIR r1, Plain r2 => WithIR (r1 ++ map (fun r => (r, NaN)) r2)
  end.

Definition nrows (df : frame) : nat :=
  match df with
  | [] => 0%nat
  | hc :: _ => length (snd hc)
  end.

(** The same on frames of named columns.  (pandas sorts the union of the
    headers when they differ; the order of columns is kept here.) *)
Definition concat_frames (a b : frame) : frame :=
  let blank (df : frame) := repeat (CNum NaN) (nrows df) in
  map (fun hc : string * list cell =>
         (fst hc, snd hc ++ match column (fst hc) b with
                            | Some col => col
                            | None => blank b
                            end)) a
  ++ flat_map (fun hc : string * list cell =>
         match column (fst hc) a with
         | Some _ => []
         | None => [(fst hc, blank a ++ snd hc)]
         end) b.

(** Arithmetic on the cells of a column of numbers; on text it raises.
    The sum of two integers is that of numpy's 64-bit integers. *)
Definition fl_of_cell (c : cell) : option fl :=
  match c with
  | CInt z => Some (Fin (inject_Z z))
  | CNum x => Some x
  | _ => None
  end.

Definition cell_plus (c x : cell) : option cell :=
  match c, x with
  | CInt a, CInt b => Some (CInt (wrap64 (a + b)))
  | _, _ => a ← fl_of_cell c; b ← fl_of_cell x; Some (CNum (fl_add a b))
  end.

Fixpoint column_plus (col : list cell) (x : cell) : option (list cell) :=
  match col with
  | [] => Some []
  | c :: col' => c' ← cell_plus c x; col'' ← column_plus col' x; Some (c' :: col'')
  end.

(** Python's [max]: the first entry that no later entry exceeds. *)
Fixpoint max_from (m : cell) (col : list cell) : option cell :=
  match col with
  | [] => Some m
  | c :: col' =>
      a ← fl_of_cell m; b ← fl_of_cell c;
      max_from (if fl_gt b a then c else m) col'
  end.

Definition max_cell (col : list cell) : option cell :=
  match col with
  | [] => None
  | c :: col' => _ ← fl_of_cell c; max_from c col'
  end.

(** [diff_time = xldate_as_datetime(start_time_2) -
    xldate_as_datetime(start_time_1)] and [diff_time.total_seconds()]:
    the seconds between the two start times, each rounded to a
    microsecond. *)
Definition diff_time (start_time_1 start_time_2 : Q) : option Q :=
  d2 ← xldate_as_datetime start_time_2;
  d1 ← xldate_as_datetime start_time_1;
  Some (Qred (inject_Z (d2 - d1) / 1000000)).

(** The re-basing of one raw row of the second dataset.  The data points
    and the cycle indices are 64-bit integers. *)
Definition rebase (last_data_point last_cycle : Z) (diff_time : Q) (r : raw_row) : raw_row :=
  {| Data_Point := wrap64 (Data_Point r + last_data_point);
     Test_Time := (Test_Time r + diff_time)%Q;
     Step_Time := Step_Time r;
     Cycle_Index := wrap64 (Cycle_Index r + last_cycle);
     Step_Index := Step_Index r;
     Current := Current r;
     Voltage := Voltage r;
     Charge_Capacity := Charge_Capacity r;
     Discharge_Capacity := Discharge_Capacity r;
     Charge_Energy := Charge_Energy r;
     Discharge_Energy := Discharge_Energy r;
     Internal_Resistance := Internal_Resistance r;
     DateTime := DateTime r |}.

(** The part under [if merge_summary:].  It hands back the merged
    summary, the changed summary of the second dataset, and [last_cycle],
    which it rebinds when both summaries are self-made. *)
Definition merge_dfsummary (s1 s2 : frame) (diff_time : Q)
    (last_data_point last_cycle : cell) : option (frame * frame * cell) :=
  let self_made_summary :=
    match column cycle_index_txt s1, column cycle_index_txt s2 with
    | Some _, Some _ => true
    | _, _ => false
    end in
  if self_made_summary then
    cycles_1 ← column cycle_index_txt s1;
    last_cycle ← max_cell cycles_1;
    cycles_2 ← column cycle_index_txt s2;
    cycles_2 ← column_plus cycles_2 last_cycle;
    let s2 := set_column cycle_index_txt cycles_2 s2 in
    times_2 ← column test_time_txt s2;
    times_2 ← column_plus times_2 (CQ diff_time);
    let s2 := set_column test_time_txt times_2 s2 in
    Some (concat_frames s1 s2, s2, last_cycle)
  else
    points_2 ← column data_point_txt s2;
    points_2 ← column_plus points_2 last_data_point;
    let s2 := set_column data_point_txt points_2 s2 in
    Some (concat_frames s1 s2, s2, last_cycle).

(** [t2.step_table[step_table_txt_cycle] = col + last_cycle] followed by
    the concatenation of the two step tables; a blank row stays blank. *)
Fixpoint rebase_steps (st : steps_frame) (col : list cell) (last_cycle : cell)
    : option steps_frame :=
  match st, col with
  | [], _ => Some []
  | row :: st', [] => st'' ← rebase_steps st' [] last_cycle; Some (None :: st'')
  | row :: st', c :: col' =>
      c' ← cell_plus c last_cycle;
      st'' ← rebase_steps st' col' last_cycle;
      match row, c' with
      | Some r, CInt z =>
          Some (Some {| cycle := z; step := step r; values := values r;
                        type := type r; info := info r |} :: st'')
      | _, _ => Some (None :: st'')
      end
  end.

(** [_append] changes both datasets in place and returns the first one;
    the result is the pair of the returned dataset and the second one as
    the call leaves it. *)
Definition _append (t1 t2 : dataset) (merge_summary merge_step_table : bool)
    : option (dataset * dataset) :=
  (* finding diff of time *)
  start_time_1 ← start_datetime t1;
  start_time_2 ← start_datetime t2;
  diff_time ← diff_time start_time_1 start_time_2;
  (* mod data points, cycle index and test time for set 2 *)
  last_data_point ← max_Z (map Data_Point (raw_rows (dfdata t1)));
  last_cycle ← max_Z (map Cycle_Index (raw_rows (dfdata t1)));
  let dfdata_2 := map_raw (rebase last_data_point last_cycle diff_time) (dfdata t2) in
  (* merging *)
  let dfdata2 := concat_raw (dfdata t1) dfdata_2 in
  (* checking if we already have made step tables for these datasets *)
  let step_table_made_ := step_table_made t1 && step_table_made t2 in
  '(dfsummary_1, dfsummary_2, last_cycle') ←
    (if merge_summary
     then merge_dfsummary (dfsummary t1) (dfsummary t2) diff_time
            (CInt last_data_point) (CInt last_cycle)
     else Some (dfsummary t1, dfsummary t2, CInt last_cycle));
  '(step_table_1, step_table_2) ←
    (if merge_step_table && step_table_made_
     then col ← column step_table_txt_cycle (frame_of_raw dfdata_2);
          st2 ← rebase_steps (step_table t2) col last_cycle';
          Some (step_table t1 ++ st2, st2)
     else Some (step_table t1, step_table t2));
  (* then the rest... *)
  no_cycles' ← max_Z (map Cycle_Index (raw_rows dfdata2));
  Some ({| mass := mass t1; start_datetime := start_datetime t1;
           dfdata := dfdata2;
           dfsummary := dfsummary_1; dfsummary_made := dfsummary_made t1;
           step_table := step_table_1; step_table_made := step_table_made t1;
           merged := true; no_cycles := no_cycles';
           charge_steps := charge_steps t1; discharge_steps := discharge_steps t1;
           ocv_steps := ocv_steps t1 |},
        {| mass := mass t2; start_datetime := start_datetime t2;
           dfdata := dfdata_2;
           dfsummary := dfsummary_2; dfsummary_made := dfsummary_made t2;
           step_table := step_table_2; step_table_made := step_table_made t2;
           merged := merged t2; no_cycles := no_cycles t2;
           charge_steps := charge_steps t2; discharge_steps := discharge_steps t2;
           ocv_steps := ocv_steps t2 |}).

(** ** The rule that decides the type of a step *)

(** The type of the last rule of [rules] whose mask holds for the row. *)
Definition last_match (r : step_row) : option string :=
  option_map snd (List.find (fun rule => fst rule r) (rev rules)).

(** The reading of the specification: the type of the first rule, in the
    order OCV, discharge and charge, constant voltage, no change, whose
    mask holds for the row. *)
Definition first_match_of_spec (r : step_row) : option string :=
  option_map snd (List.find (fun rule => fst rule r) rules).

(** What the seven assignments make of one row. *)
Definition classified (r : step_row) : step_row :=
  {| cycle := cycle r; step := step r; values := values r;
     type := match last_match r with Some t => Some t | None => type r end;
     info := info r |}.

(** The seven assignments written out for one row, the last of them
    first: the row gets the type of the last assignment whose mask holds
    for it, and keeps the type it had ([before]) when none does. *)
Definition overwritten_type (r : step_row) (before : option string) : option string :=
  if mask_no_change r then Some "ir"%string
  else if mask_voltage_stable r && mask_current_positive r && mask_current_down r
  then Some "cv_charge"%string
  else if mask_voltage_stable r && mask_current_negative r && mask_current_down r
  then Some "cv_discharge"%string
  else if mask_charge_changed r && mask_current_positive r then Some "charge"%string
  else if mask_discharge_changed r && mask_current_negative r then Some "discharge"%string
  else if mask_no_current_hard r && mask_voltage_down r then Some "ocvrlx_down"%string
  else if mask_no_current_hard r && mask_voltage_up r then Some "ocvrlx_up"%string
  else before.

(** ** Sample data *)

Definition sample (data_point cycle_index step_index : Z)
    (step_time i v charge discharge ir : Q) : raw_row :=
  {| Data_Point := data_point; Test_Time := step_time; Step_Time := step_time;
     Cycle_Index := cycle_index; Step_Index := step_index;
     Current := i; Voltage := v;
     Charge_Capacity := charge; Discharge_Capacity := discharge;
     Charge_Energy := 0; Discharge_Energy := 0;
     Internal_Resistance := ir; DateTime := 45292 |}.

(** A dataset fresh from the instrument: the raw rows, the data points
    of the instrument's statistics table, no step table. *)
Definition loaded (rows : list raw_row) (stat_points : list Z) : dataset :=
  {| mass := 1; start_datetime := Some (inject_Z 45292); dfdata := Plain rows;
     dfsummary := [(data_point_txt, map CInt stat_points)];
     dfsummary_made := false;
     step_table := []; step_table_made := false;
     merged := false; no_cycles := 0;
     charge_steps := None; discharge_steps := None; ocv_steps := None |}.

(** One row: a step of a single sample. *)
Definition single_sample : raw_row := sample 1 1 1 0 1 3 0 0 (1 # 10).

(** A discharge at constant voltage: the current falls off from -1 A to
    -0.5 A, the voltage stays at 3 V, the discharge capacity doubles. *)
Definition cv_discharge_step : list raw_row :=
  [ sample 1 1 1 0 (-1) 3 0 1 (1 # 10);
    sample 2 1 1 10 (- (1 # 2)) 3 0 2 (1 # 10) ].

(** A step that no rule matches: one ampere throughout, voltage and
    charge capacity both up by one percent. *)
Definition unmatched_step : list raw_row :=
  [ sample 1 1 1 0 1 3 1 0 (1 # 10);
    sample 2 1 1 10 1 (303 # 100) (101 # 100) 0 (1 # 10) ].

(** ** Notions used in the statements and proofs *)

Definition key (r : step_row) : Z * Z := (cycle r, step r).

(** The keys in the order in which the loops of [create_step_table]
    visit them: cycle by cycle, and within a cycle step by step, each in
    order of first appearance. *)
Definition loop_keys (df : list (raw_row * fl)) (cycles : list Z) : list (Z * Z) :=
  flat_map (fun c =>
    map (pair c)
      (unique Z.eqb
         (map (fun r => Step_Index (fst r))
            (List.filter (fun r => Cycle_Index (fst r) =? c) df)))) cycles.

(** Two datasets of the merge scenario of the specification: the first
    ends at data point 100 in cycle 5 and starts on 2024-01-01 (day
    45292) at 00:00, the second starts ten minutes later at data point 1
    in cycle 1. *)
Definition first_run : dataset :=
  {| mass := 1; start_datetime := Some (inject_Z 45292);
     dfdata := Plain [ sample 99 5 1 0 1 3 0 0 (1 # 10);
                       sample 100 5 2 10 1 3 1 0 (1 # 10) ];
     dfsummary := [(data_point_txt, [CInt 100])];
     dfsummary_made := false;
     step_table := []; step_table_made := false;
     merged := false; no_cycles := 5;
     charge_steps := None; discharge_steps := None; ocv_steps := None |}.

Definition second_run : dataset :=
  {| mass := 2; start_datetime := Some (45292 + (1 # 144))%Q;
     dfdata := Plain [ sample 1 1 1 0 1 3 0 0 (1 # 10);
                       sample 2 1 1 10 1 3 1 0 (1 # 10) ];
     dfsummary := [(data_point_txt, [CInt 2])];
     dfsummary_made := false;
     step_table := []; step_table_made := false;
     merged := false; no_cycles := 1;
     charge_steps := None; discharge_steps := None; ocv_steps := None |}.


(** The 64-bit integers. *)
Definition fits64 (z : Z) : Prop := - 2 ^ 63 <= z < 2 ^ 63.

(** A dataset whose step table has been built. *)
Definition with_step_table (d : dataset) : dataset :=
  match create_step_table d with
  | Some d' => d'
  | None => d
  end.

(** The cycles a call of [get_step_numbers] asks about: the one given,
    or all the cycles of the raw table. *)
Definition queried (cycle_number : option Z) (d : dataset) (c : Z) : Prop :=
  match cycle_number with
  | Some c0 => c = c0
  | None => In c (map Cycle_Index (raw_rows (dfdata d)))
  end.

(** A dataset with two cycles, a charge step in the first and none in
    the second; its step table is built. *)
Definition two_cycles : dataset :=
  with_step_table
    (loaded [ sample 1 1 1 0 1 3 1 0 (1 # 10);
              sample 2 1 1 10 1 (31 # 10) 2 0 (1 # 10);
              sample 3 2 1 0 0 3 2 0 (1 # 10);
              sample 4 2 1 10 0 3 2 0 (1 # 10) ] [2; 4]).



(** The rows of the raw table, with the columns the raw table has then,
    that a build of the summary selects: the first steps of
    [_make_summary], up to [dfsummary = dfdata[summary_requirment]]. *)
Definition summary_rows (o : summary_options) (test : dataset) : option raw_table :=
  let test :=
    match given_mass o with
    | Some m => if update_it o then with_mass test m else test
    | None => test
    end in
  test ← (if ensure_step_table o && negb (step_table_made test)
          then create_step_table test else Some test);
  summary_requirment ← summary_requirment o test;
  Some (select_rows summary_requirment (dfdata test)).

(** The stages of [summary_frame]: the raw columns that are kept, the
    ten columns computed from the capacities, and the order of the
    columns at the end. *)
Definition summary_base (o : summary_options) (selected : raw_table) : frame :=
  let dfsummary := frame_of_raw selected in
  if select_columns o
  then fold_left (fun df column_name =>
         if string_in column_name columns_to_keep then df
         else pop_column column_name df) (columns dfsummary) dfsummary
  else dfsummary.

Definition summary_columns (mass_ : Q) (rows : list raw_row) (dfsummary : frame)
    : option frame :=
  let discharge_capacity :=
    map (fun r => fl_div (Fin (Discharge_Capacity r * 1000000)) (Fin mass_)) rows in
  dfsummary ← insert_first summary_txt_discharge_cap (fl_cells discharge_capacity) dfsummary;
  let charge_capacity :=
    map (fun r => fl_div (Fin (Charge_Capacity r * 1000000)) (Fin mass_)) rows in
  dfsummary ← insert_first summary_txt_charge_cap (fl_cells charge_capacity) dfsummary;
  dfsummary ← insert_first summary_txt_cum_charge_cap
                 (fl_cells (cumsum charge_capacity)) dfsummary;
  let col_eff :=
    map (fun r => fl_div (Fin (100 * Charge_Capacity r)) (Fin (Discharge_Capacity r))) rows in
  dfsummary ← insert_first summary_txt_coul_eff (fl_cells col_eff) dfsummary;
  let col_diff :=
    map (fun cd => fl_sub (fst cd) (snd cd)) (combine charge_capacity discharge_capacity) in
  dfsummary ← insert_first summary_txt_coul_diff (fl_cells col_diff) dfsummary;
  dfsummary ← insert_first summary_txt_cum_coul_diff (fl_cells (cumsum col_diff)) dfsummary;
  let discharge_loss := loss discharge_capacity in
  dfsummary ← insert_first summary_txt_discharge_cap_loss (fl_cells discharge_loss) dfsummary;
  let charge_loss := loss charge_capacity in
  dfsummary ← insert_first summary_txt_charge_cap_loss (fl_cells charge_loss) dfsummary;
  dfsummary ← insert_first summary_txt_cum_discharge_cap_loss
                 (fl_cells (cumsum discharge_loss)) dfsummary;
  dfsummary ← insert_first summary_txt_cum_charge_cap_loss
                 (fl_cells (cumsum charge_loss)) dfsummary;
  Some dfsummary.


Definition summary_sorted (o : summary_options) (dfsummary : frame) : frame :=
  if sort_my_columns o
  then set_col_first dfsummary
         [ (if convert_date o then summary_txt_datetime_txt else datetime_txt);
           test_time_txt; data_point_txt; cycle_index_txt ]
  else dfsummary.


(** The options of a summary with the end voltages. *)
Definition with_end_voltage : summary_options :=
  {| mass_arg := None; update_it := false; select_columns := false;
     find_ocv := false; find_ir := false; find_end_voltage := true;
     convert_date := true; sort_my_columns := true;
     use_arbin_stat_file := true; ensure_step_table := false |}.

(** ** Notions used in the further properties *)

(** The start and the end of a signal lie between its smallest and its
    largest value. *)
Definition within (s : signal_stats) : Prop :=
  (x_min s <= x_start s /\ x_start s <= x_max s
   /\ x_min s <= x_end s /\ x_end s <= x_max s)%Q.

(** The average of a signal lies between its smallest and its largest
    value. *)
Definition average_within (s : signal_stats) : Prop :=
  (x_min s <= x_avr s /\ x_avr s <= x_max s)%Q.

(** The rows of a raw frame that belong to one step of one cycle. *)
Definition window (df : list (raw_row * fl)) (c s : Z) : list (raw_row * fl) :=
  List.filter (fun x => (Cycle_Index (fst x) =? c) && (Step_Index (fst x) =? s)) df.

(** A row of the step table as the loop writes it: the values of its
    window, and no type and no info yet. *)
Definition aggregates (df : list (raw_row * fl)) (r : step_row) : Prop :=
  type r = None /\ info r = None
  /\ _extract_step_values (window df (cycle r) (step r)) = Some (values r).

(** The largest data point of the rows of cycle [j]. *)
Definition last_point (rows : list raw_row) (j : Z) : option Z :=
  max_Z (map Data_Point (List.filter (fun r => Cycle_Index r =? j) rows)).

(** The cycle numbers [1 .. max_step] that [_select_last] goes through. *)
Definition cycle_range (max_step : Z) : list Z :=
  map (fun j => Z.of_nat j + 1) (seq 0 (Z.to_nat max_step)).

(** A raw table that has rows of cycle 1 and of cycle 3, and none of
    cycle 2. *)
Definition skipped_cycle : raw_table :=
  Plain [ sample 1 1 1 0 1 3 1 0 (1 # 10);
          sample 2 3 1 10 1 3 2 0 (1 # 10) ].

(** The columns of [base], the one of the dates as text apart, are
    columns of [df] with the cells they have in [base]. *)
Definition kept (base df : frame) : Prop :=
  forall name col, String.eqb summary_txt_datetime_txt name = false ->
    column name base = Some col -> column name df = Some col.

(** The mass that [_make_summary] divides by: the one given, unless it is
    [None] or zero, and the mass of the dataset otherwise. *)
Definition mass_used (o : summary_options) (test : dataset) : Q :=
  match given_mass o with Some m => m | None => mass test end.

(** What a build of the summary and a look-up of the steps leave of a
    dataset: the rows of the raw table and the fields that are not
    tables; the whole dataset when its step table is built already. *)
Definition same_data (d d' : dataset) : Prop :=
  raw_rows (dfdata d') = raw_rows (dfdata d)
  /\ mass d' = mass d
  /\ start_datetime d' = start_datetime d
  /\ dfsummary d' = dfsummary d
  /\ dfsummary_made d' = dfsummary_made d
  /\ merged d' = merged d
  /\ no_cycles d' = no_cycles d
  /\ (step_table_made d = true -> d' = d).

(** The time stamps that [xldate_as_datetime] makes a date of: those
    that, rounded to a microsecond, fall in the years 1 to 9999. *)
Definition is_date (xldate : Q) : Prop :=
  datetime_min <= round_half_away (xldate * inject_Z us_per_day) <= datetime_max.

(** ** [_validata_step_table] *)

(** [s[s[step_table_txt_cycle] == cycle_number]]: a blank row has no
    cycle and is in no selection. *)
Definition steps_of_cycle (s : steps_frame) (cycle_number : Z) : steps_frame :=
  List.filter (fun row =>
    match row with
    | Some r => cycle r =? cycle_number
    | None => false
    end) s.

(** The column of cycles of the step table, read by [amax]: the blank
    rows are skipped. *)
Definition step_table_cycles (s : steps_frame) : list Z :=
  flat_map (fun row =>
    match row with
    | Some r => [cycle r]
    | None => []
    end) s.

(** [amax] of a column of a frame is the [max] of pandas: of a column
    without a number it is [nan] ([None] here), not an error. *)
Definition amax_column (l : list Z) : option Z := max_Z l.

(** [nan] is equal to nothing, and different from everything: with one
    of the two largest cycles missing, the answer is [False] in both
    modes. *)
Definition _validata_step_table (test : dataset) (simple : bool) : option bool :=
  let d := raw_rows (dfdata test) in
  let s := step_table test in
  if negb (step_table_made test) then Some false
  else
    match amax_column (map Cycle_Index d), amax_column (step_table_cycles s) with
    | Some no_cycles_dfdata, Some no_cycles_step_table =>
        if simple then Some (no_cycles_dfdata =? no_cycles_step_table)
        else if negb (no_cycles_dfdata =? no_cycles_step_table) then Some false
        else
          Some (forallb (fun cycle_number =>
                  let no_steps_dfdata :=
                    length (np_unique (map Step_Index
                              (List.filter (fun r => Cycle_Index r =? cycle_number) d))) in
                  let no_steps_step_table := length (steps_of_cycle s cycle_number) in
                  Nat.eqb no_steps_dfdata no_steps_step_table)
                (cycle_range no_cycles_dfdata))
    | _, _ => Some false
    end.

(** ** [_examine_step] *)

(** [x >= y] on numbers that may be infinite or [NaN]. *)
Definition fl_ge (x y : fl) : bool := fl_gt x y || fl_eqb x y.

(** [amin] and [amax] of a column of numbers; of an empty column they
    are [nan] ([None] here). *)
Definition amin (l : list Q) : option Q :=
  match l with
  | [] => None
  | x :: l' => Some (fold_left Qmin l' x)
  end.

Definition amax (l : list Q) : option Q :=
  match l with
  | [] => None
  | x :: l' => Some (fold_left Qmax l' x)
  end.

Definition minimum_change_limit : Q := 2.
Definition minimum_change_limit_voltage_cv : Q := 5.
Definition minimum_change_limit_current_cv : Q := 10.
Definition minimum_stable_limit : Q := 1 # 1000.
Definition typicall_current_max : Q := 1 # 1000.
Definition minimum_ierror_limit : Q := 1 # 10000.

(** [step_min = amin(column); step_max = amax(column);
    difference = self._percentage_change(step_max, step_min,
    default_zero=defaultZero)] with [defaultZero = False].  On [nan] the
    test [x1 == 0.0] fails and the quotient is [nan]. *)
Definition column_change (column : list Q) : fl :=
  match amin column, amax column with
  | Some step_min, Some step_max => _percentage_change step_max step_min false
  | _, _ => NaN
  end.

Definition _examine_step (test : dataset) (cycle_number step_number : Z)
    (allow_constantvoltagestep cyclic_voltametry : bool) : option (string * string) :=
  let info := ""%string in
  let d := raw_rows (dfdata test) in
  let cycle := List.filter (fun r => Cycle_Index r =? cycle_number) d in
  let step := List.filter (fun r => Step_Index r =? step_number) cycle in
  (* is discharge capacity changing? *)
  let difference := column_change (map Discharge_Capacity step) in
  let discharge_changing := fl_ge difference (Fin minimum_change_limit) in
  (* is charge capacity changing? *)
  let difference := column_change (map Charge_Capacity step) in
  let charge_changing := fl_ge difference (Fin minimum_change_limit) in
  let charge_or_discharge := discharge_changing || charge_changing in
  (* find out if there is a significant change in voltage *)
  let difference := column_change (map Voltage step) in
  let voltage_changing_significantly := fl_ge difference (Fin minimum_change_limit) in
  let voltage_changing_moderately :=
    negb voltage_changing_significantly
    && fl_ge difference (Fin minimum_change_limit_voltage_cv) in
  let voltage_changing_slightly :=
    negb voltage_changing_significantly
    && negb (fl_ge difference (Fin minimum_change_limit_voltage_cv))
    && fl_ge difference (Fin minimum_stable_limit) in
  (* if charge or discharge - return value and end *)
  if charge_or_discharge then
    let step_type := if charge_changing then "charge"%string else "discharge"%string in
    if allow_constantvoltagestep || cyclic_voltametry then
      (* find out if current is changing *)
      let difference := column_change (map (fun r => Qabs (Current r)) step) in
      if fl_ge difference (Fin minimum_change_limit_current_cv) then
        if allow_constantvoltagestep then
          if negb voltage_changing_moderately && negb voltage_changing_significantly
          then Some (String.append step_type "_cv", info)
          else Some (step_type, info)
        else Some (String.append "cv_" step_type, info)
      else Some (step_type, info)
    else Some (step_type, info)
  else
    (* find out if current is on *)
    let total_current := Qabs (Qsum (map Current step)) in
    let current_on := negb (Qlt_bool total_current (0 + minimum_ierror_limit)) in
    let ir_or_not_known :=
      (* find out if this could be a ir step *)
      let only_one_item := Nat.eqb (length step) 1 in
      let small_current :=
        Qlt_bool total_current typicall_current_max && Qlt_bool 0 total_current in
      if small_current && only_one_item then Some ("ir"%string, info)
      else Some ("not_known"%string, info) in
    if negb current_on then
      if voltage_changing_significantly then
        v_1 ← List.head (map Voltage step);
        v_2 ← List.last (map Some (map Voltage step)) None;
        Some (if Qlt_bool v_1 v_2 then "ocvrlx_up"%string else "ocvrlx_down"%string, info)
      else if voltage_changing_slightly then Some ("rest"%string, info)
      else ir_or_not_known
    else ir_or_not_known.

(** ** [_compare_ids] *)

(** The two dictionaries map the name of a file to the number that
    identifies its state (its size or a time stamp).  [ids_hdf5[name]]
    raises [KeyError] for a name that is not there. *)
Definition _compare_ids (ids_res ids_hdf5 : gmap string Z) : option bool :=
  let similar := true in
  let l_res := size ids_res in
  let l_hdf5 := size ids_hdf5 in
  if Nat.eqb l_res l_hdf5 && Nat.ltb 0 l_hdf5 then
    fold_left (fun (similar : option bool) (item : string * Z) =>
                 similar ← similar;
                 value' ← ids_hdf5 !! fst item;
                 Some (if negb (value' =? snd item) then false else similar))
      (map_to_list ids_res) (Some similar)
  else Some false.

(** * Properties *)

(** ** Numbers *)

Lemma Qlt_bool_irrefl_0 (q : Q) : Qeq_bool q 0 = true -> Qlt_bool 0 q = false /\ Qlt_bool q 0 = false.
Proof.
  intros H. apply Qeq_bool_iff in H. unfold Qlt_bool.
  split; apply negb_false_iff, Qle_bool_iff; rewrite H; apply Qle_refl.
Qed.

Lemma signed_inf_zero (q : Q) : Qeq_bool q 0 = true -> signed_inf q = NaN.
Proof.
  intros H. unfold signed_inf. destruct (Qlt_bool_irrefl_0 q H) as [-> ->]. reflexivity.
Qed.

(** The change from a value to itself is a finite number equal to zero. *)
Lemma percentage_change_same (x : Q) (default_zero : bool) :
  exists q, _percentage_change x x default_zero = Fin q /\ Qeq_bool q 0 = true.
Proof.
  unfold _percentage_change.
  assert (Hd : Qeq_bool (x - x) 0 = true) by (apply Qeq_bool_iff; ring).
  destruct (Qeq_bool x 0) eqn:Hx.
  - rewrite Hd. simpl. eauto.
  - simpl. rewrite Hx. eexists. split; [reflexivity|].
    apply Qeq_bool_iff. apply Qeq_bool_neq in Hx. field. exact Hx.
Qed.

(** ** [_percentage_change] *)

(** C1.  The guard of [_percentage_change] tests [x1], not the divisor
    [x0].  From 1 to 0 the function returns 0 when [default_zero] is set
    and [0 - 1] when it is not, where the formula [(x1 - x0) * 100 / x0]
    of its docstring gives -100; from 0 to 1 the guard does not fire and
    the quotient by zero is taken, which numpy returns as [+inf]. *)
Theorem percentage_change_guards_x1 :
  _percentage_change 1 0 true = Fin 0
  /\ _percentage_change 1 0 false = Fin (0 - 1)
  /\ ~ ((0 - 1) == (0 - 1) * 100 / 1)%Q
  /\ _percentage_change 0 1 true = PInf
  /\ _percentage_change 0 1 false = PInf.
Proof.
  repeat split; try reflexivity.
  intros H. vm_compute in H. discriminate.
Qed.

(** ** [_extract_step_values] *)

Lemma signal_single (col : raw_row -> Q) (r : raw_row) (t_delta : Q) :
  Qeq_bool t_delta 0 = true -> x_rate (signal col r [] t_delta) = NaN.
Proof.
  intros Ht. unfold signal. simpl.
  destruct (percentage_change_same (col r) true) as (q & -> & Hq).
  simpl. rewrite Ht. apply signed_inf_zero, Hq.
Qed.

(** C2, as the code has it.  For a step window of exactly one row the
    elapsed time is zero and each of the four rates is the quotient of
    the (zero) change by that zero: there is no separate path for a
    single sample.  numpy returns the quotient 0/0 as [NaN] and raises
    nothing, so the aggregation returns its values, with [NaN] rates. *)
Theorem single_row_rates_are_nan (r : raw_row) (ir_change : fl) :
  exists v, _extract_step_values [(r, ir_change)] = Some v
    /\ x_rate (I_ v) = fl_div (x_delta (I_ v)) (Fin (Step_Time r - Step_Time r))
    /\ x_rate (I_ v) = NaN
    /\ x_rate (V_ v) = NaN
    /\ x_rate (Charge_ v) = NaN
    /\ x_rate (Discharge_ v) = NaN.
Proof.
  eexists. split; [reflexivity|]. simpl.
  assert (Ht : Qeq_bool (Step_Time r - Step_Time r) 0 = true)
    by (apply Qeq_bool_iff; ring).
  repeat split; try reflexivity; apply signal_single, Ht.
Qed.

Lemma single_sample_values : exists v,
  _extract_step_values [(single_sample, NaN)] = Some v /\ x_rate (I_ v) = NaN.
Proof. eexists. split; reflexivity. Qed.

(** C2, as the specification has it, fails: for the window of the one
    row [single_sample] the rate of the current is the quotient of zero
    by zero, not a number. *)
Lemma single_sample_rate_divides_by_zero :
  ~ (forall r v, _extract_step_values [(r, NaN)] = Some v ->
       exists q, x_rate (I_ v) = Fin q).
Proof.
  intros H. destruct single_sample_values as (v & Hv & Hrate).
  destruct (H _ _ Hv) as [q Hq]. congruence.
Qed.

(** ** The types of the steps *)

Lemma rules_read_values (r r' : step_row) :
  values r = values r' ->
  Forall (fun rule : (step_row -> bool) * string => fst rule r = fst rule r') rules.
Proof.
  intros H. unfold rules.
  repeat constructor; simpl;
    unfold mask_no_current_hard, mask_voltage_up, mask_voltage_down,
      mask_discharge_changed, mask_charge_changed, mask_current_negative,
      mask_current_positive, mask_voltage_stable, mask_current_down,
      mask_no_change, sum_abs_current;
    rewrite H; reflexivity.
Qed.

(** Assigning by a list of rules whose masks read only the values: the
    last rule that matches decides. *)
Lemma fold_set_type (l : list ((step_row -> bool) * string)) (r : step_row) :
  (forall r', values r' = values r -> Forall (fun rule => fst rule r' = fst rule r) l) ->
  fold_left (fun r rule => set_type (fst rule) (snd rule) r) l r =
  {| cycle := cycle r; step := step r; values := values r;
     type := match option_map snd (List.find (fun rule => fst rule r) (rev l)) with
             | Some t => Some t
             | None => type r
             end;
     info := info r |}.
Proof.
  induction l as [|rule l IH] using rev_ind; intros Hl.
  - destruct r; reflexivity.
  - rewrite fold_left_app, rev_app_distr. simpl.
    assert (Hl' : forall r', values r' = values r ->
              Forall (fun rule => fst rule r' = fst rule r) l).
    { intros r' Hr'. specialize (Hl r' Hr'). apply Forall_app in Hl. tauto. }
    rewrite (IH Hl').
    assert (Hrule : forall r', values r' = values r -> fst rule r' = fst rule r).
    { intros r' Hr'. specialize (Hl r' Hr'). apply Forall_app in Hl.
      destruct Hl as [_ Hl]. inversion Hl; assumption. }
    match goal with
    | |- set_type _ _ ?x = _ => unfold set_type; rewrite (Hrule x eq_refl)
    end.
    destruct (fst rule r); reflexivity.
Qed.

Lemma loc_set_type_fold (l : list ((step_row -> bool) * string)) (df : steps_frame) :
  fold_left (fun df rule => loc_set_type (fst rule) (snd rule) df) l df =
  map (option_map (fun r => fold_left (fun r rule => set_type (fst rule) (snd rule) r) l r)) df.
Proof.
  revert df. induction l as [|rule l IH]; intros df; simpl.
  - transitivity (map id df); [symmetry; apply map_id|].
    apply map_ext. intros [r|]; reflexivity.
  - rewrite IH. unfold loc_set_type. rewrite map_map. apply map_ext.
    intros [r|]; reflexivity.
Qed.

Lemma no_change_is_not_ocv (r : step_row) :
  mask_no_change r = true -> mask_voltage_up r = false /\ mask_voltage_down r = false.
Proof.
  unfold mask_no_change, mask_voltage_up, mask_voltage_down.
  intros H. repeat (apply andb_prop in H; destruct H as [H ?]).
  destruct (x_delta (V_ (values r))) as [q| | |]; try discriminate.
  simpl in H. apply Qeq_bool_iff in H. unfold fl_gt, fl_lt, Qlt_bool.
  split; apply negb_false_iff, Qle_bool_iff; rewrite H; discriminate.
Qed.

Lemma assign_types_classified (df : steps_frame) :
  assign_types df = map (option_map classified) df.
Proof.
  unfold assign_types. rewrite loc_set_type_fold.
  apply map_ext. intros [r|]; [|reflexivity]. cbn [option_map]. f_equal.
  unfold classified, last_match. apply fold_set_type.
  intros r' Hr'. apply rules_read_values, Hr'.
Qed.

Lemma cv_discharge_step_table : exists d' r,
  create_step_table (loaded cv_discharge_step [2]) = Some d'
  /\ step_table d' = [Some r]
  /\ first_match_of_spec r = Some "discharge"%string
  /\ type r = Some "cv_discharge"%string.
Proof.
  eexists. eexists. split; [vm_compute; reflexivity|].
  split; [reflexivity|]. split; vm_compute; reflexivity.
Qed.

(** C3, as the specification has it, fails: the step of
    [cv_discharge_step] satisfies the discharge rule (2) and the
    constant-voltage discharge rule (3), and its type is [cv_discharge],
    that of the later rule. *)
Lemma first_match_does_not_win :
  ~ (forall d d' r,
       create_step_table d = Some d' ->
       In (Some r) (step_table d') ->
       first_match_of_spec r <> None ->
       type r = first_match_of_spec r).
Proof.
  intros H. destruct cv_discharge_step_table as (d' & r & Hd & Hst & Hfirst & Htype).
  specialize (H _ d' r Hd). rewrite Hst, Hfirst, Htype in H.
  assert (Some "cv_discharge"%string = Some "discharge"%string) as E.
  { apply H; [left; reflexivity | discriminate]. }
  discriminate E.
Qed.

(** C4.  No rule matches the step of [unmatched_step]; the step table
    is built without an error, and the type and the info of the step are
    the blank cells the frame was created with, not ['not_known'] and
    [''] (which the older [_examine_step] returns for such a step). *)
Theorem unmatched_step_is_left_blank : exists d' r,
  create_step_table (loaded unmatched_step [2]) = Some d'
  /\ step_table d' = [Some r]
  /\ last_match r = None
  /\ type r = None
  /\ info r = None
  /\ type r <> Some "not_known"%string.
Proof.
  eexists. eexists. split; [vm_compute; reflexivity|].
  split; [reflexivity|].
  repeat split; try (vm_compute; reflexivity). discriminate.
Qed.

(** ** [unique] *)

Section Unique.
Context {A : Type} (eqb : A -> A -> bool).
Hypothesis eqb_eq : forall x y, eqb x y = true <-> x = y.

Lemma unique_In (l : list A) (x : A) : In x (unique eqb l) <-> In x l.
Proof.
  induction l as [|y l IH]; simpl; [tauto|].
  rewrite filter_In, IH. split.
  - intros [H|[H _]]; auto.
  - intros [H|H]; auto.
    destruct (eqb y x) eqn:E.
    + left. apply eqb_eq, E.
    + right. split; [assumption|reflexivity].
Qed.

Lemma unique_NoDup (l : list A) : NoDup (unique eqb l).
Proof.
  induction l as [|y l IH]; simpl; constructor.
  - rewrite filter_In. intros [_ H].
    assert (E : eqb y y = true) by (apply eqb_eq; reflexivity).
    rewrite E in H. discriminate.
  - apply NoDup_filter, IH.
Qed.
End Unique.

Lemma pair_eqb_eq (p q : Z * Z) : pair_eqb p q = true <-> p = q.
Proof.
  destruct p as [a b], q as [c d]. unfold pair_eqb. simpl.
  rewrite andb_true_iff, !Z.eqb_eq. split; [intros []|intros [=]]; subst; auto.
Qed.

(** ** The loops of [create_step_table] *)

Lemma pct_change_length (l : list Q) : length (pct_change l) = length l.
Proof.
  destruct l as [|x l]; simpl; [reflexivity|]. f_equal.
  revert x. induction l as [|y l IH]; intros x; simpl; [reflexivity|].
  f_equal. apply IH.
Qed.

Lemma map_fst_combine {A B : Type} (l : list A) (l' : list B) :
  length l = length l' -> map fst (combine l l') = l.
Proof.
  revert l'. induction l as [|x l IH]; intros [|y l'] H; simpl in *;
    try discriminate; [reflexivity|]. f_equal. apply IH. lia.
Qed.

Lemma set_ir_change_rows (t : raw_table) : map fst (set_ir_change t) = raw_rows t.
Proof.
  unfold set_ir_change. apply map_fst_combine.
  rewrite pct_change_length, length_map. reflexivity.
Qed.

Lemma insert_at_end {A : Type} (filled : list A) (x y : A) (rest : list A) :
  <[length filled := x]> (filled ++ y :: rest) = filled ++ x :: rest.
Proof. induction filled as [|z filled IH]; simpl; [reflexivity|]. f_equal. exact IH. Qed.

Lemma filter_filter_and {A : Type} (p q : A -> bool) (l : list A) :
  List.filter q (List.filter p l) = List.filter (fun x => p x && q x) l.
Proof.
  induction l as [|x l IH]; simpl; [reflexivity|].
  destruct (p x); simpl; [destruct (q x)|]; rewrite IH; reflexivity.
Qed.

Lemma step_loop_rows (df : list (raw_row * fl)) (c : Z) (steps : list Z) :
  let df_cycle := List.filter (fun r => Cycle_Index (fst r) =? c) df in
  (forall s, In s steps -> exists r, In r df_cycle /\ Step_Index (fst r) = s) ->
  forall (filled : steps_frame) (k : nat), (length steps <= k)%nat ->
  exists rs,
    step_loop df_cycle c steps (filled ++ repeat None k) (length filled)
    = Some (filled ++ map Some rs ++ repeat None (k - length steps),
            (length filled + length steps)%nat)
    /\ map key rs = map (pair c) steps
    /\ Forall (aggregates df) rs.
Proof.
  intros df_cycle.
  induction steps as [|s steps IH]; intros Hwin filled k Hk.
  - exists []. simpl. rewrite Nat.sub_0_r, Nat.add_0_r. auto.
  - simpl in Hk. destruct k as [|k]; [lia|].
    destruct (Hwin s (or_introl eq_refl)) as (r & Hr & Hs).
    cbn [step_loop].
    destruct (_extract_step_values (List.filter (fun r => Step_Index (fst r) =? s) df_cycle))
      as [result|] eqn:Hres.
    2:{ exfalso.
        destruct (List.filter (fun r => Step_Index (fst r) =? s) df_cycle) as [|[r0 ir0] f] eqn:Hf;
          [|discriminate].
        assert (Hin : In r (List.filter (fun r => Step_Index (fst r) =? s) df_cycle)).
        { apply filter_In. split; [assumption|]. apply Z.eqb_eq, Hs. }
        rewrite Hf in Hin. destruct Hin. }
    unfold fill_row.
    assert (Hlt : (length filled <? length (filled ++ repeat None (S k)))%nat = true).
    { apply Nat.ltb_lt. rewrite length_app. simpl. lia. }
    rewrite Hlt. cbn [repeat]. rewrite insert_at_end.
    set (new := {| cycle := c; step := s; values := result; type := None; info := None |}).
    replace (filled ++ Some new :: repeat None k)
      with ((filled ++ [Some new]) ++ repeat None k)
      by (rewrite <- app_assoc; reflexivity).
    replace (S (length filled)) with (length (filled ++ [Some new]))
      by (rewrite length_app; simpl; lia).
    destruct (IH (fun s' H => Hwin s' (or_intror H)) (filled ++ [Some new]) k)
      as (rs & Hrs & Hkeys & Hagg); [lia|].
    exists (new :: rs). split; [|split].
    + rewrite Hrs. f_equal. f_equal.
      * rewrite <- app_assoc. reflexivity.
      * rewrite length_app. simpl. lia.
    + simpl. rewrite Hkeys. reflexivity.
    + constructor; [|exact Hagg]. unfold aggregates, window. cbn [type info cycle step values new].
      split; [reflexivity|]. split; [reflexivity|].
      rewrite <- filter_filter_and. exact Hres.
Qed.

Lemma cycle_loop_rows (df : list (raw_row * fl)) (cycles : list Z) :
  forall (filled : steps_frame) (k : nat), (length (loop_keys df cycles) <= k)%nat ->
  exists rs,
    cycle_loop df cycles (filled ++ repeat None k) (length filled)
    = Some (filled ++ map Some rs ++ repeat None (k - length (loop_keys df cycles)),
            (length filled + length (loop_keys df cycles))%nat)
    /\ map key rs = loop_keys df cycles
    /\ Forall (aggregates df) rs.
Proof.
  induction cycles as [|c cycles IH]; intros filled k Hk.
  - exists []. simpl. rewrite Nat.sub_0_r, Nat.add_0_r. auto.
  - unfold loop_keys in Hk |- *. simpl in Hk |- *.
    fold (loop_keys df cycles) in Hk |- *.
    set (df_cycle := List.filter (fun r => Cycle_Index (fst r) =? c) df) in *.
    set (steps := unique Z.eqb (map (fun r => Step_Index (fst r)) df_cycle)) in *.
    rewrite length_app, length_map in Hk |- *.
    destruct (step_loop_rows df c steps) with (filled := filled) (k := k)
      as (rs1 & Hrs1 & Hkeys1 & Hagg1); [|lia|].
    { intros s Hs. unfold steps in Hs.
      apply (proj1 (unique_In Z.eqb Z.eqb_eq _ _)) in Hs.
      apply in_map_iff in Hs. destruct Hs as (r & Hs & Hr). eauto. }
    fold df_cycle in Hrs1. rewrite Hrs1.
    assert (Hlen1 : length rs1 = length steps).
    { rewrite <- (length_map key rs1), Hkeys1, length_map. reflexivity. }
    replace (filled ++ map Some rs1 ++ repeat None (k - length steps))
      with ((filled ++ map Some rs1) ++ repeat None (k - length steps))
      by (rewrite <- app_assoc; reflexivity).
    replace (length filled + length steps)%nat with (length (filled ++ map Some rs1))
      by (rewrite length_app, length_map; lia).
    destruct (IH (filled ++ map Some rs1) (k - length steps)%nat)
      as (rs2 & Hrs2 & Hkeys2 & Hagg2); [lia|].
    exists (rs1 ++ rs2). split; [|split].
    + rewrite Hrs2. f_equal. f_equal.
      * rewrite map_app, <- !app_assoc. f_equal. f_equal. f_equal. f_equal. lia.
      * rewrite length_app, length_map. lia.
    + rewrite map_app, Hkeys1, Hkeys2. reflexivity.
    + apply Forall_app. split; assumption.
Qed.

Lemma loop_keys_In (df : list (raw_row * fl)) (cycles : list Z) (c s : Z) :
  In (c, s) (loop_keys df cycles) <->
  In c cycles /\ exists r, In r df /\ Cycle_Index (fst r) = c /\ Step_Index (fst r) = s.
Proof.
  unfold loop_keys. rewrite in_flat_map. split.
  - intros (c' & Hc' & H). apply in_map_iff in H. destruct H as (s' & [= <- <-] & H).
    apply (proj1 (unique_In Z.eqb Z.eqb_eq _ _)) in H.
    apply in_map_iff in H. destruct H as (r & Hs & Hr).
    apply filter_In in Hr. destruct Hr as [Hr Hc]. apply Z.eqb_eq in Hc. eauto 6.
  - intros (Hc & r & Hr & Hrc & Hrs). exists c. split; [assumption|].
    apply in_map, (unique_In Z.eqb Z.eqb_eq), in_map_iff.
    exists r. split; [assumption|]. apply filter_In. split; [assumption|].
    apply Z.eqb_eq, Hrc.
Qed.

Lemma NoDup_map_pair (c : Z) (l : list Z) : NoDup l -> NoDup (map (pair c) l).
Proof.
  induction 1 as [|s l Hs Hl IH]; simpl; constructor; [|assumption].
  intros H. apply in_map_iff in H. destruct H as (s' & [= ->] & H). contradiction.
Qed.

Lemma loop_keys_NoDup (df : list (raw_row * fl)) (cycles : list Z) :
  NoDup cycles -> NoDup (loop_keys df cycles).
Proof.
  induction 1 as [|c cycles Hc Hcycles IH].
  - constructor.
  - unfold loop_keys. simpl. fold (loop_keys df cycles).
    apply NoDup_app; [|assumption|].
    + apply NoDup_map_pair, unique_NoDup, Z.eqb_eq.
    + intros [c' s] H1 H2. apply in_map_iff in H1. destruct H1 as (s' & [= <- <-] & _).
      apply loop_keys_In in H2. destruct H2 as [H2 _]. contradiction.
Qed.

(** The loops visit each distinct pair of the raw table, once. *)
Lemma loop_keys_all (df : list (raw_row * fl)) (p : Z * Z) :
  In p (loop_keys df (unique Z.eqb (map (fun r => Cycle_Index (fst r)) df)))
  <-> In p (map cycle_step (map fst df)).
Proof.
  destruct p as [c s]. rewrite loop_keys_In, map_map, in_map_iff.
  rewrite (unique_In Z.eqb Z.eqb_eq), in_map_iff. unfold cycle_step. split.
  - intros (_ & r & Hr & <- & <-). eauto.
  - intros (r & [= <- <-] & Hr). eauto 7.
Qed.

Lemma number_of_groups_loop (df : list (raw_row * fl)) :
  number_of_groups (map fst df)
  = length (loop_keys df (unique Z.eqb (map (fun r => Cycle_Index (fst r)) df))).
Proof.
  unfold number_of_groups. apply Permutation_length, NoDup_Permutation.
  - apply unique_NoDup, pair_eqb_eq.
  - apply loop_keys_NoDup, unique_NoDup, Z.eqb_eq.
  - intros p. rewrite (unique_In pair_eqb pair_eqb_eq), loop_keys_all. reflexivity.
Qed.

Lemma classified_key (r : step_row) : key (classified r) = key r.
Proof. reflexivity. Qed.

(** The rows of the step table, before and after the types are assigned. *)
Lemma create_step_table_rows (d : dataset) :
  let df := set_ir_change (dfdata d) in
  exists rs,
    create_step_table d
    = Some {| mass := mass d; start_datetime := start_datetime d;
              dfdata := WithIR df;
              dfsummary := dfsummary d; dfsummary_made := dfsummary_made d;
              step_table := map Some (map classified rs); step_table_made := true;
              merged := merged d; no_cycles := no_cycles d;
              charge_steps := charge_steps d; discharge_steps := discharge_steps d;
              ocv_steps := ocv_steps d |}
    /\ map key rs = loop_keys df (unique Z.eqb (map (fun r => Cycle_Index (fst r)) df))
    /\ Forall (aggregates df) rs.
Proof.
  intros df. unfold create_step_table. fold df.
  rewrite number_of_groups_loop.
  set (keys := loop_keys df _).
  destruct (cycle_loop_rows df (unique Z.eqb (map (fun r => Cycle_Index (fst r)) df))
              [] (length keys)) as (rs & Hrs & Hkeys & Hagg); [reflexivity|].
  simpl in Hrs. fold keys in Hrs. unfold blank_steps. rewrite Hrs.
  exists rs. split; [|split; assumption].
  rewrite Nat.sub_diag. simpl. rewrite app_nil_r.
  rewrite assign_types_classified, map_map.
  rewrite (map_map classified Some). reflexivity.
Qed.

(** What [create_step_table] returns, for every dataset. *)
Lemma create_step_table_spec (d : dataset) :
  let df := set_ir_change (dfdata d) in
  exists rs,
    create_step_table d
    = Some {| mass := mass d; start_datetime := start_datetime d;
              dfdata := WithIR df;
              dfsummary := dfsummary d; dfsummary_made := dfsummary_made d;
              step_table := map Some (map classified rs); step_table_made := true;
              merged := merged d; no_cycles := no_cycles d;
              charge_steps := charge_steps d; discharge_steps := discharge_steps d;
              ocv_steps := ocv_steps d |}
    /\ map key rs = loop_keys df (unique Z.eqb (map (fun r => Cycle_Index (fst r)) df)).
Proof.
  intros df. destruct (create_step_table_rows d) as (rs & Hd & Hkeys & _).
  exists rs. split; assumption.
Qed.

Lemma classified_type (r : step_row) :
  type (classified r) = overwritten_type r (type r).
Proof.
  unfold classified, last_match, overwritten_type, rules.
  cbn [rev app List.find fst snd option_map type].
  destruct (mask_no_change r); [reflexivity|].
  destruct (mask_voltage_stable r && mask_current_positive r && mask_current_down r);
    [reflexivity|].
  destruct (mask_voltage_stable r && mask_current_negative r && mask_current_down r);
    [reflexivity|].
  destruct (mask_charge_changed r && mask_current_positive r); [reflexivity|].
  destruct (mask_discharge_changed r && mask_current_negative r); [reflexivity|].
  destruct (mask_no_current_hard r && mask_voltage_down r); [reflexivity|].
  destruct (mask_no_current_hard r && mask_voltage_up r); reflexivity.
Qed.

(** The masks read the values of a row only. *)
Lemma overwritten_type_values (r r' : step_row) (before : option string) :
  values r = values r' -> overwritten_type r before = overwritten_type r' before.
Proof.
  intros H. unfold overwritten_type,
    mask_no_current_hard, mask_voltage_up, mask_voltage_down,
    mask_discharge_changed, mask_charge_changed, mask_current_negative,
    mask_current_positive, mask_voltage_stable, mask_current_down,
    mask_no_change, sum_abs_current.
  rewrite H. reflexivity.
Qed.

(** A falling current is not a current without change, and a negative
    average current is not a positive one. *)
Lemma cv_discharge_is_last (r : step_row) (before : option string) :
  mask_voltage_stable r && mask_current_negative r && mask_current_down r = true ->
  overwritten_type r before = Some "cv_discharge"%string.
Proof.
  intros H. apply andb_prop in H. destruct H as [H Hdown].
  apply andb_prop in H. destruct H as [Hstable Hneg].
  unfold overwritten_type. rewrite Hstable, Hneg, Hdown. simpl.
  assert (Hnc : mask_no_change r = false).
  { unfold mask_no_change, mask_current_down in *.
    destruct (x_delta (I_ (values r))) as [q| | |]; simpl in *;
      rewrite ?andb_false_r; try reflexivity; try discriminate.
    destruct (Qeq_bool q 0) eqn:Eq; [|rewrite andb_false_r; reflexivity].
    exfalso. apply Qeq_bool_iff in Eq. unfold Qlt_bool in Hdown.
    apply negb_true_iff in Hdown.
    assert (Hle : Qle_bool (- stable_current_limit_soft) q = true).
    { apply Qle_bool_iff. rewrite Eq. discriminate. }
    congruence. }
  assert (Hpos : mask_current_positive r = false).
  { unfold mask_current_positive, mask_current_negative, Qlt_bool in *.
    apply negb_true_iff in Hneg. apply negb_false_iff, Qle_bool_iff.
    destruct (Qlt_le_dec (x_avr (I_ (values r))) (- current_limit_value_hard)) as [Hlt|Hle].
    - apply Qlt_le_weak. eapply Qlt_trans; [exact Hlt|]. reflexivity.
    - apply Qle_bool_iff in Hle. congruence. }
  rewrite Hnc, Hpos. reflexivity.
Qed.

Lemma built_row_type (d d' : dataset) (r : step_row) :
  create_step_table d = Some d' -> In (Some r) (step_table d') ->
  type r = overwritten_type r None.
Proof.
  intros Hd Hr. destruct (create_step_table_rows d) as (rs & Hd' & _ & Hagg).
  rewrite Hd' in Hd. injection Hd as <-. simpl in Hr.
  apply in_map_iff in Hr. destruct Hr as (r1 & [= <-] & Hr).
  apply in_map_iff in Hr. destruct Hr as (r0 & <- & Hr).
  rewrite Forall_forall in Hagg. destruct (Hagg r0 Hr) as (Htype & _).
  rewrite classified_type, Htype. apply overwritten_type_values. reflexivity.
Qed.

(** C3, as the code has it.  The seven assignments are made one after
    the other on the whole table, each overwriting the type where its
    mask holds.  So the type of a step is that of the LAST rule that
    matches it, in the order OCV up and down, discharge and charge,
    constant voltage discharge and charge, no change: a step that the
    no-change rule matches is typed [ir], else one that the constant
    voltage charge rule matches [cv_charge], else [cv_discharge], else
    [charge], else [discharge], else [ocvrlx_down], else [ocvrlx_up],
    and a step that no rule matches keeps the type it had (none, in a
    step table that is being built).  In particular a step of a built
    step table that satisfies both the discharge rule and the constant
    voltage discharge rule is typed [cv_discharge].  A step cannot
    satisfy both the OCV rule and the no-change rule: the first needs a
    voltage change beyond the hard limit, the second a voltage change of
    zero. *)
Theorem assign_types_last_match :
  (forall df : steps_frame, assign_types df = map (option_map classified) df)
  /\ (forall r : step_row, type (classified r) = overwritten_type r (type r))
  /\ (forall (d d' : dataset) (r : step_row),
        create_step_table d = Some d' -> In (Some r) (step_table d') ->
        type r = overwritten_type r None
        /\ (mask_discharge_changed r && mask_current_negative r = true ->
            mask_voltage_stable r && mask_current_negative r && mask_current_down r = true ->
            type r = Some "cv_discharge"%string))
  /\ (forall r : step_row,
        mask_no_current_hard r && (mask_voltage_up r || mask_voltage_down r)
        && mask_no_change r = false).
Proof.
  split; [apply assign_types_classified|].
  split; [apply classified_type|].
  split.
  - intros d d' r Hd Hr. pose proof (built_row_type d d' r Hd Hr) as Ht.
    split; [exact Ht|]. intros _ Hcv. rewrite Ht. apply cv_discharge_is_last, Hcv.
  - intros r. destruct (mask_no_change r) eqn:H.
    + destruct (no_change_is_not_ocv r H) as [-> ->].
      rewrite andb_false_r. reflexivity.
    + apply andb_false_r.
Qed.

Lemma assign_types_last_match_witness : exists d' r,
  create_step_table (loaded cv_discharge_step [2]) = Some d'
  /\ In (Some r) (step_table d')
  /\ mask_discharge_changed r && mask_current_negative r = true
  /\ mask_voltage_stable r && mask_current_negative r && mask_current_down r = true
  /\ type r = Some "cv_discharge"%string.
Proof.
  eexists. eexists. split; [vm_compute; reflexivity|].
  split; [left; reflexivity|].
  split; [vm_compute; reflexivity|]. split; [vm_compute; reflexivity|].
  eapply (proj2 (proj1 (proj2 (proj2 assign_types_last_match))
                   (loaded cv_discharge_step [2]) _ _ _ _)).
  Unshelve.
  all: try (vm_compute; reflexivity).
  left; reflexivity.
Defined.

(** C5.  For every raw table [create_step_table] returns a step table
    that has no blank row, no two rows with the same pair of cycle and
    step, and whose pairs are exactly the pairs of the raw table. *)
Theorem step_table_one_row_per_pair (d : dataset) :
  exists d' rs,
    create_step_table d = Some d'
    /\ step_table d' = map Some rs
    /\ NoDup (map key rs)
    /\ forall p, In p (map key rs) <-> In p (map cycle_step (raw_rows (dfdata d))).
Proof.
  destruct (create_step_table_spec d) as (rs & Hd & Hkeys).
  eexists. exists (map classified rs). split; [exact Hd|].
  split; [reflexivity|].
  rewrite map_map. rewrite (map_ext _ key classified_key), Hkeys.
  split.
  - apply loop_keys_NoDup, unique_NoDup, Z.eqb_eq.
  - intros p. rewrite loop_keys_all, set_ir_change_rows. reflexivity.
Qed.

(** ** The raw table under [create_step_table] *)

Lemma single_sample_gains_a_column : exists d',
  create_step_table (loaded [single_sample] [1]) = Some d'
  /\ dfdata d' = WithIR [(single_sample, NaN)].
Proof. eexists. split; [vm_compute; reflexivity|reflexivity]. Qed.

(** C8, as the specification has it, fails: the raw table of the dataset
    [loaded [single_sample] [1]] has one column more after the call. *)
Lemma create_step_table_changes_the_raw_table :
  ~ (forall d d', create_step_table d = Some d' -> dfdata d' = dfdata d).
Proof.
  intros H. destruct single_sample_gains_a_column as (d' & Hd & Hraw).
  apply H in Hd. rewrite Hraw in Hd. discriminate Hd.
Qed.

(** C8, as the code has it.  Building the step table writes to the raw
    table of the dataset: it sets the column [IR_pct_change] to the
    relative change of the internal resistance from each row to the
    next, adding the column when it is not there.  The rows and all
    other columns of the raw table are as before, and so is the rest of
    the dataset but for the step table and its flag. *)
Theorem create_step_table_sets_ir_change (d : dataset) :
  exists d',
    create_step_table d = Some d'
    /\ dfdata d' = WithIR (combine (raw_rows (dfdata d))
                            (pct_change (map Internal_Resistance (raw_rows (dfdata d)))))
    /\ raw_rows (dfdata d') = raw_rows (dfdata d)
    /\ step_table_made d' = true
    /\ mass d' = mass d
    /\ start_datetime d' = start_datetime d
    /\ dfsummary d' = dfsummary d
    /\ dfsummary_made d' = dfsummary_made d
    /\ merged d' = merged d.
Proof.
  destruct (create_step_table_spec d) as (rs & Hd & _).
  eexists. split; [exact Hd|]. simpl.
  split; [reflexivity|]. split; [apply set_ir_change_rows|]. repeat split.
Qed.

(** ** [_append] *)

Lemma fold_left_Zmax_spec (l : list Z) (x : Z) :
  let m := fold_left Z.max l x in
  In m (x :: l) /\ forall y, In y (x :: l) -> y <= m.
Proof.
  revert x. induction l as [|z l IH]; intros x; simpl.
  - split; [auto|]. intros y [<-|[]]. lia.
  - destruct (IH (Z.max x z)) as [Hin Hmax]. split.
    + destruct Hin as [Hin|Hin]; [|auto].
      rewrite <- Hin. destruct (Z.max_spec x z) as [[_ ->]|[_ ->]]; auto.
    + intros y Hy. assert (H : y <= Z.max x z \/ In y l).
      { destruct Hy as [<-|[<-|Hy]]; [left; lia|left; lia|right; assumption]. }
      destruct H as [H|H].
      * specialize (Hmax (Z.max x z) (or_introl eq_refl)). lia.
      * apply Hmax. right. assumption.
Qed.

(** [max_Z] is the maximum, and is there for every column but the empty
    one. *)
Lemma max_Z_spec (l : list Z) :
  l <> [] -> exists m, max_Z l = Some m /\ In m l /\ forall y, In y l -> y <= m.
Proof.
  destruct l as [|x l]; [congruence|]. intros _.
  exists (fold_left Z.max l x). split; [reflexivity|]. apply fold_left_Zmax_spec.
Qed.

Lemma max_Z_inv (l : list Z) (m : Z) :
  max_Z l = Some m -> In m l /\ forall y, In y l -> y <= m.
Proof.
  intros H. destruct (max_Z_spec l) as (m' & Hm' & Hin & Hmax).
  - intros ->. discriminate H.
  - rewrite H in Hm'. injection Hm' as <-. split; assumption.
Qed.

Lemma max_Z_intro (l : list Z) (m : Z) :
  In m l -> (forall y, In y l -> y <= m) -> max_Z l = Some m.
Proof.
  intros Hin Hmax. destruct (max_Z_spec l) as (m' & Hm' & Hin' & Hmax').
  - intros ->. exact Hin.
  - rewrite Hm'. f_equal. specialize (Hmax m' Hin'). specialize (Hmax' m Hin). lia.
Qed.

Lemma raw_rows_map_raw (f : raw_row -> raw_row) (t : raw_table) :
  raw_rows (map_raw f t) = map f (raw_rows t).
Proof. destruct t as [rows|rows]; simpl; [reflexivity|]. rewrite !map_map. reflexivity. Qed.

Lemma raw_rows_concat_raw (a b : raw_table) :
  raw_rows (concat_raw a b) = raw_rows a ++ raw_rows b.
Proof.
  destruct a as [r1|r1], b as [r2|r2]; simpl; rewrite ?map_app, ?map_map, ?map_id;
    reflexivity.
Qed.

(** The raw frame has no column of the name the step table gives to its
    cycles. *)
Lemma raw_frame_has_no_cycle_column (t : raw_table) :
  column step_table_txt_cycle (frame_of_raw t) = None.
Proof. destruct t; reflexivity. Qed.

Lemma wrap64_fits (z : Z) : fits64 z -> wrap64 z = z.
Proof.
  unfold fits64, wrap64. intros H.
  rewrite Z.mod_small by lia. lia.
Qed.





(** The merge scenario of the specification: the first row of the second
    run becomes the third row of the merged table, with data point 101,
    cycle index 6 and a test time 600 seconds later. *)
Example merge_offsets_scenario : exists test t2' r,
  _append first_run second_run true true = Some (test, t2')
  /\ nth_error (raw_rows (dfdata test)) 2 = Some r
  /\ Data_Point r = 101
  /\ Cycle_Index r = 6
  /\ (Test_Time r == 0 + 600)%Q.
Proof.
  eexists. eexists. eexists. split; [vm_compute; reflexivity|].
  split; [reflexivity|]. repeat split.
Qed.

(** With both step tables built and their merge asked for, [_append]
    looks up the step table's header in the raw frame and raises. *)
Lemma append_built_step_tables (t1 t2 : dataset) (merge_summary : bool) :
  step_table_made t1 = true -> step_table_made t2 = true ->
  _append t1 t2 merge_summary true = None.
Proof.
  intros H1 H2. unfold _append. rewrite H1, H2.
  destruct (start_datetime t1); [|reflexivity].
  destruct (start_datetime t2); [|reflexivity]. cbn [mbind option_bind].
  destruct (diff_time _ _); [|reflexivity]. cbn [mbind option_bind].
  destruct (max_Z (map Data_Point _)); [|reflexivity]. cbn [mbind option_bind].
  destruct (max_Z (map Cycle_Index _)); [|reflexivity]. cbn [mbind option_bind].
  match goal with
  | |- context [if merge_summary then ?a else ?b] =>
      destruct (if merge_summary then a else b) as [[[s1 s2] lc]|]; [|reflexivity]
  end.
  cbn [mbind option_bind andb]. rewrite raw_frame_has_no_cycle_column. reflexivity.
Qed.

(** The flag of the dataset that [_append] returns is the flag of the
    first dataset, whatever the second one's is. *)
Lemma append_keeps_flag (t1 t2 test t2' : dataset) (merge_summary merge_step_table : bool) :
  _append t1 t2 merge_summary merge_step_table = Some (test, t2') ->
  step_table_made test = step_table_made t1.
Proof.
  unfold _append. intros H.
  repeat match type of H with
         | (match ?x with _ => _ end) = Some _ => destruct x eqn:?; try discriminate
         | mbind _ ?x = Some _ => destruct x eqn:?; try discriminate; cbn [mbind option_bind] in H
         | (let '(_, _) := ?x in _) = Some _ => destruct x
         end.
  injection H as <- _. reflexivity.
Qed.

(** C7.  The two runs of the merge scenario, each with its step table
    built: the merge raises instead of returning a merged step table.
    And when only the first run has its step table built, the merged
    dataset still carries the flag of the first run, which is set. *)
Theorem append_step_tables_fails :
  step_table_made (with_step_table first_run) = true
  /\ step_table_made (with_step_table second_run) = true
  /\ _append (with_step_table first_run) (with_step_table second_run) true true = None
  /\ step_table_made second_run = false
  /\ exists test t2',
       _append (with_step_table first_run) second_run true true = Some (test, t2')
       /\ step_table_made test = true.
Proof.
  split; [reflexivity|]. split; [reflexivity|].
  split; [apply append_built_step_tables; reflexivity|].
  split; [reflexivity|].
  eexists. eexists. split; [vm_compute; reflexivity|reflexivity].
Qed.

(** ** [get_step_numbers] *)

Lemma insert_sorted_In (x y : Z) (l : list Z) :
  In y (insert_sorted x l) <-> y = x \/ In y l.
Proof.
  induction l as [|z l IH]; simpl; [intuition|].
  destruct (x <? z); [simpl; intuition|].
  destruct (x =? z) eqn:E; simpl.
  - apply Z.eqb_eq in E. subst. intuition.
  - rewrite IH. intuition.
Qed.

Lemma np_unique_In (x : Z) (l : list Z) : In x (np_unique l) <-> In x l.
Proof.
  induction l as [|z l IH]; simpl; [tauto|].
  rewrite insert_sorted_In, IH. intuition.
Qed.

(** Filling a dictionary key by key: a key of the list holds the value
    computed for it, any other key what it held before. *)
Lemma lookup_fold_insert (f : Z -> list Z) (l : list Z) (m : gmap Z (list Z)) (c : Z) :
  fold_left (fun out c => <[c := f c]> out) l m !! c
  = if existsb (Z.eqb c) l then Some (f c) else m !! c.
Proof.
  revert m. induction l as [|x l IH]; intros m; simpl; [reflexivity|].
  rewrite IH. destruct (existsb (Z.eqb c) l); [rewrite orb_true_r; reflexivity|].
  rewrite orb_false_r. destruct (c =? x) eqn:E.
  - apply Z.eqb_eq in E. subst. apply lookup_insert_eq.
  - apply Z.eqb_neq in E. apply lookup_insert_ne. congruence.
Qed.

Lemma existsb_Zeqb_In (c : Z) (l : list Z) : existsb (Z.eqb c) l = true <-> In c l.
Proof.
  rewrite existsb_exists. split.
  - intros (x & Hx & E). apply Z.eqb_eq in E. subst. assumption.
  - intros H. exists c. split; [assumption|apply Z.eqb_refl].
Qed.

Lemma flat_map_nil {A B : Type} (f : A -> list B) (l : list A) :
  (forall x, In x l -> f x = []) -> flat_map f l = [].
Proof.
  induction l as [|x l IH]; intros H; simpl; [reflexivity|].
  rewrite (H x (or_introl eq_refl)). apply IH. intros y Hy. apply H. right. exact Hy.
Qed.

Lemma steplist_of_nonempty (st : steps_frame) (steptypes : list string) (c : Z) :
  steplist_of st steptypes c <> [].
Proof. unfold steplist_of. destruct (flat_map _ _); discriminate. Qed.

(** No row of the wanted types in the cycle: the list is the sentinel. *)
Lemma steplist_of_sentinel (st : steps_frame) (steptypes : list string) (c : Z) :
  (forall r s, In (Some r) st -> cycle r = c -> In s steptypes -> type r <> Some s) ->
  steplist_of st steptypes c = [0].
Proof.
  intros H. unfold steplist_of.
  assert (E : flat_map (fun s => steps_of_type st s c) steptypes = []).
  { apply flat_map_nil. intros s Hs.
    unfold steps_of_type. apply flat_map_nil.
    intros [r|] Hr; [|reflexivity].
    destruct (has_type s r && (cycle r =? c)) eqn:E; [|reflexivity].
    apply andb_prop in E. destruct E as [Ht Hc]. apply Z.eqb_eq in Hc.
    exfalso. apply (H r s Hr Hc Hs). unfold has_type in Ht.
    destruct (type r) as [t|]; [|discriminate]. apply String.eqb_eq in Ht. congruence. }
  rewrite E. reflexivity.
Qed.

(** The state in which [get_step_numbers] reads the step table: the
    dataset itself, or the dataset with its step table built. *)
Lemma step_table_ready (self : arbindata) (d : dataset) :
  step_table_made d || force_step_table_creation self || force_all self = true ->
  exists d',
    (if step_table_made d then Some (Some d)
     else if force_step_table_creation self || force_all self
          then option_map Some (create_step_table d)
          else Some None) = Some (Some d')
    /\ raw_rows (dfdata d') = raw_rows (dfdata d).
Proof.
  intros H. destruct (step_table_made d).
  - eauto.
  - simpl in H. rewrite H.
    destruct (create_step_table_spec d) as (rs & -> & _).
    eexists. split; [reflexivity|]. simpl. apply set_ir_change_rows.
Qed.

(** C10.  When the step table is there (or may be built), the step type
    is one the method knows, and there are cycles to ask about,
    [get_step_numbers] returns a dictionary.  It has an entry for every
    cycle asked about; the entry of a cycle that has no step of the
    requested types is the one-element list [[0]]; and no entry is the
    empty list. *)
Theorem get_step_numbers_sentinel (self : arbindata) (steptype : string)
    (allctypes : bool) (cycle_number : option Z) (d : dataset) (steptypes : list string) :
  step_table_made d || force_step_table_creation self || force_all self = true ->
  steptypes_of steptype allctypes = Some steptypes ->
  (cycle_number = None -> raw_rows (dfdata d) <> []) ->
  exists d' out,
    get_step_numbers self steptype allctypes false cycle_number d = Some (d', As_dict out)
    /\ (forall c, queried cycle_number d c ->
          (forall r s, In (Some r) (step_table d') -> cycle r = c ->
                       In s steptypes -> type r <> Some s) ->
          out !! c = Some [0])
    /\ (forall c, queried cycle_number d c ->
          exists steplist, out !! c = Some steplist /\ steplist <> [])
    /\ (forall c steplist, out !! c = Some steplist -> steplist <> [])
    /\ (forall c col, out !! c = Some [0] ->
          step_entry d' (Some out) pick_last col c = Some (Fin 0)
          /\ step_entry d' (Some out) pick_first col c = Some (Fin 0)).
Proof.
  intros Hmade Htypes Hrows.
  destruct (step_table_ready self d Hmade) as (d' & Hd' & Hraw).
  unfold get_step_numbers. rewrite Hd', Htypes.
  assert (Hcycles : exists cycle_numbers,
    match cycle_number with
    | Some c => Some [c]
    | None => get_cycle_numbers d'
    end = Some cycle_numbers
    /\ forall c, In c cycle_numbers <-> queried cycle_number d c).
  { destruct cycle_number as [c0|]; simpl.
    - exists [c0]. split; [reflexivity|]. intros c. simpl. intuition.
    - unfold get_cycle_numbers. rewrite Hraw.
      eexists. split; [reflexivity|]. intros c. apply np_unique_In. }
  destruct Hcycles as (cycle_numbers & -> & Hin).
  eexists. eexists. split; [reflexivity|].
  split; [|split; [|split]].
  - intros c Hc Hnone. rewrite lookup_fold_insert.
    apply Hin, existsb_Zeqb_In in Hc. rewrite Hc. f_equal.
    apply steplist_of_sentinel, Hnone.
  - intros c Hc. rewrite lookup_fold_insert.
    apply Hin, existsb_Zeqb_In in Hc. rewrite Hc.
    eexists. split; [reflexivity|]. apply steplist_of_nonempty.
  - intros c steplist. rewrite lookup_fold_insert, lookup_empty.
    destruct (existsb (Z.eqb c) cycle_numbers); [|discriminate].
    intros [= <-]. apply steplist_of_nonempty.
  - intros c col Hc. unfold step_entry. cbn [mbind option_bind]. rewrite Hc.
    split; reflexivity.
Qed.

Lemma get_step_numbers_sentinel_witness :
  exists d' out,
    get_step_numbers default_self "charge" true false None two_cycles
    = Some (d', As_dict out)
    /\ (forall c, queried None two_cycles c ->
          (forall r s, In (Some r) (step_table d') -> cycle r = c ->
                       In s ["charge"; "charge_cv"; "cv_charge"]%string ->
                       type r <> Some s) ->
          out !! c = Some [0])
    /\ (forall c, queried None two_cycles c ->
          exists steplist, out !! c = Some steplist /\ steplist <> [])
    /\ (forall c steplist, out !! c = Some steplist -> steplist <> [])
    /\ (forall c col, out !! c = Some [0] ->
          step_entry d' (Some out) pick_last col c = Some (Fin 0)
          /\ step_entry d' (Some out) pick_first col c = Some (Fin 0)).
Proof.
  apply (get_step_numbers_sentinel default_self "charge" true None two_cycles
           ["charge"; "charge_cv"; "cv_charge"]%string).
  - reflexivity.
  - reflexivity.
  - intros _. discriminate.
Defined.

(** The dictionary of the charge steps of [two_cycles]: step 1 in the
    first cycle, the sentinel in the second. *)
Example two_cycles_charge_steps : exists d' out,
  get_step_numbers default_self "charge" true false None two_cycles
  = Some (d', As_dict out)
  /\ out !! 1 = Some [1]
  /\ out !! 2 = Some [0].
Proof.
  eexists. eexists. split; [vm_compute; reflexivity|]. split; reflexivity.
Qed.

(** ** [_make_summary] *)

(** *** The summary held by the dataset is not read after the selection *)








Lemma summary_frame_stages (self : arbindata) (o : summary_options) (mass_ : Q)
    (selected : raw_table) (d : dataset) :
  summary_frame self o mass_ selected d
  = (f ← summary_columns mass_ (raw_rows selected) (summary_base o selected);
     f ← summary_dates o (raw_rows selected) f;
     '(t, f) ← when (find_ocv o) (summary_find_ocv self (raw_rows selected)) d f;
     '(t, f) ← when (find_end_voltage o)
         (summary_find_steps self pick_last Voltage
            summary_txt_endv_discharge summary_txt_endv_charge (raw_rows selected)) t f;
     '(t, f) ← when (find_ir o)
         (summary_find_steps self pick_first Internal_Resistance
            summary_txt_ir_discharge summary_txt_ir_charge (raw_rows selected)) t f;
     Some (t, summary_sorted o f)).
Proof.
  unfold summary_frame, summary_columns, summary_base.
  repeat (destruct (insert_first _ _ _); cbn [mbind option_bind]; [|reflexivity]).
  reflexivity.
Qed.

Lemma summary_frame_inv (self : arbindata) (o : summary_options) (mass_ : Q)
    (selected : raw_table) (d d' : dataset) (df : frame) :
  summary_frame self o mass_ selected d = Some (d', df) ->
  exists f0 f1 d1 f2 d2 f3 f4,
    summary_columns mass_ (raw_rows selected) (summary_base o selected) = Some f0
    /\ summary_dates o (raw_rows selected) f0 = Some f1
    /\ when (find_ocv o) (summary_find_ocv self (raw_rows selected)) d f1 = Some (d1, f2)
    /\ when (find_end_voltage o)
         (summary_find_steps self pick_last Voltage
            summary_txt_endv_discharge summary_txt_endv_charge (raw_rows selected)) d1 f2
       = Some (d2, f3)
    /\ when (find_ir o)
         (summary_find_steps self pick_first Internal_Resistance
            summary_txt_ir_discharge summary_txt_ir_charge (raw_rows selected)) d2 f3
       = Some (d', f4)
    /\ df = summary_sorted o f4.
Proof.
  rewrite summary_frame_stages. intros H.
  destruct (summary_columns _ _ _) as [f0|] eqn:H0; [|discriminate].
  cbn [mbind option_bind] in H.
  destruct (summary_dates _ _ _) as [f1|] eqn:H1; [|discriminate].
  cbn [mbind option_bind] in H.
  destruct (when (find_ocv o) _ d f1) as [[d1 f2]|] eqn:W1; [|discriminate].
  cbn [mbind option_bind] in H.
  destruct (when (find_end_voltage o) _ d1 f2) as [[d2 f3]|] eqn:W2; [|discriminate].
  cbn [mbind option_bind] in H.
  destruct (when (find_ir o) _ d2 f3) as [[d3 f4]|] eqn:W3; [|discriminate].
  cbn [mbind option_bind] in H. injection H as <- <-.
  exists f0, f1, d1, f2, d2, f3, f4. auto 10.
Qed.


(** *** Looking the steps up builds the step table once *)

Lemma get_step_numbers_made (self : arbindata) (steptype : string)
    (allctypes pdtype : bool) (cycle_number : option Z) (d d' : dataset)
    (result : step_numbers) :
  step_table_made d = true ->
  get_step_numbers self steptype allctypes pdtype cycle_number d = Some (d', result) ->
  d' = d.
Proof.
  intros Hmade. unfold get_step_numbers. rewrite Hmade.
  destruct (steptypes_of _ _); [|congruence].
  destruct (match cycle_number with Some c => _ | None => _ end); [|discriminate].
  destruct pdtype; congruence.
Qed.
















(** *** The columns of the raw table in the summary *)

Lemma column_set_column (name other : string) (col : list cell) (df : frame) :
  String.eqb other name = false ->
  column name (set_column other col df) = column name df.
Proof.
  intros Hne. induction df as [|[h c] df IH]; simpl.
  - rewrite Hne. reflexivity.
  - destruct (String.eqb h other) eqn:E; simpl.
    + apply String.eqb_eq in E. subst h. rewrite Hne. reflexivity.
    + rewrite IH. reflexivity.
Qed.

Lemma column_pop_column (name other : string) (df : frame) :
  String.eqb other name = false ->
  column name (pop_column other df) = column name df.
Proof.
  intros Hne. unfold pop_column. induction df as [|[h c] df IH]; simpl; [reflexivity|].
  destruct (String.eqb h other) eqn:E; simpl.
  - apply String.eqb_eq in E. subst h. rewrite Hne. exact IH.
  - rewrite IH. reflexivity.
Qed.


Lemma column_In (name : string) (df : frame) (col : list cell) :
  column name df = Some col -> In name (columns df).
Proof.
  induction df as [|[h c] df IH]; simpl; [discriminate|].
  destruct (String.eqb h name) eqn:E.
  - apply String.eqb_eq in E. auto.
  - auto.
Qed.

Lemma remove_first_In (name other : string) (l : list string) :
  name <> other -> In name l -> In name (remove_first other l).
Proof.
  intros Hne. induction l as [|h l IH]; simpl; [tauto|].
  destruct (String.eqb h other) eqn:E.
  - apply String.eqb_eq in E. subst h. intros [H|H]; [congruence|exact H].
  - simpl. tauto.
Qed.

Lemma move_first_In (name : string) (col_names l : list string) :
  In name l -> In name (move_first col_names l).
Proof.
  revert l. induction col_names as [|c col_names IH]; intros l H; simpl; [exact H|].
  destruct (string_in c l); [|exact H]. apply IH.
  destruct (String.eqb name c) eqn:E.
  - apply String.eqb_eq in E. left. congruence.
  - right. apply remove_first_In; [|exact H]. apply String.eqb_neq, E.
Qed.

Lemma column_reindex (name : string) (column_headings : list string) (df : frame)
    (col : list cell) :
  column name df = Some col -> In name column_headings ->
  column name (reindex column_headings df) = Some col.
Proof.
  intros Hcol. unfold reindex.
  induction column_headings as [|h hs IH]; simpl; [tauto|]. intros Hin.
  destruct (String.eqb h name) eqn:E.
  - apply String.eqb_eq in E. subst h. rewrite Hcol. simpl.
    rewrite String.eqb_refl. reflexivity.
  - assert (Hin' : In name hs).
    { destruct Hin as [Hin|Hin]; [|exact Hin]. subst h.
      rewrite String.eqb_refl in E. discriminate. }
    destruct (column h df); simpl; rewrite E; apply IH, Hin'.
Qed.
















(** *** The summary keeps the data points of its rows *)



(** *** Selecting the rows again selects the same rows *)

Lemma raw_rows_select_rows (p : raw_row -> bool) (t : raw_table) :
  raw_rows (select_rows p t) = List.filter p (raw_rows t).
Proof.
  destruct t as [rows|rows]; simpl; [reflexivity|].
  induction rows as [|[r x] rows IH]; simpl; [reflexivity|].
  destruct (p r); simpl; rewrite IH; reflexivity.
Qed.

Lemma select_rows_ext (p q : raw_row -> bool) (t : raw_table) :
  (forall r, In r (raw_rows t) -> p r = q r) -> select_rows p t = select_rows q t.
Proof.
  destruct t as [rows|rows]; simpl; intros H; f_equal; apply filter_ext_in.
  - exact H.
  - intros r Hr. apply H, in_map, Hr.
Qed.


(** *** Building the summary twice *)


Lemma create_step_table_made (d d' : dataset) :
  create_step_table d = Some d' -> step_table_made d' = true /\ mass d' = mass d
    /\ dfsummary d' = dfsummary d.
Proof.
  unfold create_step_table. destruct (cycle_loop _ _ _ _) as [[df_steps counter]|];
    [|discriminate].
  intros [= <-]. repeat split.
Qed.









(** * Further properties *)

(** ** [_percentage_change], continued *)

Lemma Qlt_bool_true (a b : Q) : Qlt_bool a b = true <-> (a < b)%Q.
Proof.
  unfold Qlt_bool. rewrite negb_true_iff. split.
  - intros H. apply Qnot_le_lt. intros Hle. apply Qle_bool_iff in Hle. congruence.
  - intros H. apply not_true_is_false. intros Hle. apply Qle_bool_iff in Hle.
    apply (Qlt_not_le _ _ H Hle).
Qed.

Lemma Qlt_bool_false (a b : Q) : Qlt_bool a b = false <-> (b <= a)%Q.
Proof.
  unfold Qlt_bool. rewrite negb_false_iff. apply Qle_bool_iff.
Qed.

Lemma signed_inf_nonzero (q : Q) :
  ~ (q == 0)%Q -> signed_inf q = PInf \/ signed_inf q = NInf.
Proof.
  intros Hq. unfold signed_inf.
  destruct (Qlt_bool 0 q) eqn:H1; [auto|].
  destruct (Qlt_bool q 0) eqn:H2; [auto|].
  apply Qlt_bool_false in H1, H2. exfalso. apply Hq. apply Qle_antisym; assumption.
Qed.

(** X1.  The result of [_percentage_change] is never not-a-number, and it
    is an infinity when the start value is zero and the end value is
    not. *)
Theorem percentage_change_finite_or_infinite (x0 x1 : Q) (default_zero : bool) :
  let result := _percentage_change x0 x1 default_zero in
  result <> NaN
  /\ ((x0 == 0 /\ ~ x1 == 0)%Q -> result = PInf \/ result = NInf).
Proof.
  unfold _percentage_change.
  destruct (Qeq_bool x1 0) eqn:H1.
  - apply Qeq_bool_iff in H1.
    assert (Hfin : exists q,
      (if negb (Qeq_bool (x1 - x0) 0) && default_zero then Fin 0 else Fin (x1 - x0)) = Fin q).
    { destruct (negb _ && _); eauto. }
    destruct Hfin as [q ->]. split; [discriminate|].
    intros [_ H]. contradiction.
  - apply Qeq_bool_neq in H1. simpl.
    destruct (Qeq_bool x0 0) eqn:H0.
    + apply Qeq_bool_iff in H0.
      assert (Hne : ~ ((x1 - x0) * 100 == 0)%Q).
      { intros H. apply H1. rewrite H0 in H.
        assert (E : (x1 == (x1 - 0) * 100 / 100)%Q) by (field; discriminate).
        rewrite E, H. reflexivity. }
      destruct (signed_inf_nonzero _ Hne) as [-> | ->];
        (split; [discriminate|]); auto.
    + apply Qeq_bool_neq in H0. split; [discriminate|].
      intros [H _]. contradiction.
Qed.

Lemma percentage_change_finite_or_infinite_witness :
  _percentage_change 0 1 false <> NaN
  /\ (_percentage_change 0 1 false = PInf \/ _percentage_change 0 1 false = NInf).
Proof.
  split.
  - apply (percentage_change_finite_or_infinite 0 1 false).
  - apply (percentage_change_finite_or_infinite 0 1 false).
    split; [reflexivity|discriminate].
Defined.

(** X2.  With [default_zero] set, as [_extract_step_values] calls it, the
    change to an end value of zero is zero whatever the start value: a
    current that falls from 1 A to 0 A has a change of 0, not of -100
    percent. *)
Theorem percentage_change_to_zero (x0 x1 : Q) :
  (x1 == 0)%Q ->
  exists q, _percentage_change x0 x1 true = Fin q /\ (q == 0)%Q.
Proof.
  intros H1. unfold _percentage_change.
  apply Qeq_bool_iff in H1. rewrite H1.
  destruct (Qeq_bool (x1 - x0) 0) eqn:Hd; simpl.
  - exists (x1 - x0)%Q. split; [reflexivity|]. apply Qeq_bool_iff, Hd.
  - exists 0%Q. split; reflexivity.
Qed.

Lemma percentage_change_to_zero_witness :
  (0 == 0)%Q /\ exists q, _percentage_change 1 0 true = Fin q /\ (q == 0)%Q.
Proof.
  split; [reflexivity|]. apply (percentage_change_to_zero 1 0). reflexivity.
Defined.

(** ** [_extract_step_values], continued *)

Lemma Qmax_ge (a b : Q) : (a <= Qmax a b /\ b <= Qmax a b)%Q.
Proof.
  unfold Qmax. destruct (Qle_bool a b) eqn:E.
  - apply Qle_bool_iff in E. split; [assumption|apply Qle_refl].
  - split; [apply Qle_refl|]. apply Qlt_le_weak, Qnot_le_lt.
    intros H. apply Qle_bool_iff in H. congruence.
Qed.

Lemma Qmin_le (a b : Q) : (Qmin a b <= a /\ Qmin a b <= b)%Q.
Proof.
  unfold Qmin. destruct (Qle_bool a b) eqn:E.
  - apply Qle_bool_iff in E. split; [apply Qle_refl|assumption].
  - split; [|apply Qle_refl]. apply Qlt_le_weak, Qnot_le_lt.
    intros H. apply Qle_bool_iff in H. congruence.
Qed.

Lemma fold_Qmax_init (xs : list Q) (x : Q) : (x <= fold_left Qmax xs x)%Q.
Proof.
  revert x. induction xs as [|z xs IH]; intros x; simpl; [apply Qle_refl|].
  eapply Qle_trans; [apply (Qmax_ge x z)|apply IH].
Qed.

Lemma fold_Qmax_ge (xs : list Q) (x y : Q) :
  In y (x :: xs) -> (y <= fold_left Qmax xs x)%Q.
Proof.
  revert x. induction xs as [|z xs IH]; intros x; simpl.
  - intros [E|[]]. rewrite <- E. apply Qle_refl.
  - intros [E|[E|H]].
    + rewrite <- E. eapply Qle_trans; [apply (Qmax_ge x z)|apply fold_Qmax_init].
    + rewrite <- E. eapply Qle_trans; [apply (Qmax_ge x z)|apply fold_Qmax_init].
    + apply IH. right. assumption.
Qed.

Lemma fold_Qmin_init (xs : list Q) (x : Q) : (fold_left Qmin xs x <= x)%Q.
Proof.
  revert x. induction xs as [|z xs IH]; intros x; simpl; [apply Qle_refl|].
  eapply Qle_trans; [apply IH|apply (Qmin_le x z)].
Qed.

Lemma fold_Qmin_le (xs : list Q) (x y : Q) :
  In y (x :: xs) -> (fold_left Qmin xs x <= y)%Q.
Proof.
  revert x. induction xs as [|z xs IH]; intros x; simpl.
  - intros [E|[]]. rewrite <- E. apply Qle_refl.
  - intros [E|[E|H]].
    + rewrite <- E. eapply Qle_trans; [apply fold_Qmin_init|apply (Qmin_le x z)].
    + rewrite <- E. eapply Qle_trans; [apply fold_Qmin_init|apply (Qmin_le x z)].
    + apply IH. right. assumption.
Qed.

Lemma last_In {A : Type} (l : list A) (d : A) : In (last l d) (d :: l).
Proof.
  induction l as [|x l IH]; [left; reflexivity|].
  destruct l as [|y l]; [right; left; reflexivity|].
  change (last (x :: y :: l) d) with (last (y :: l) d).
  destruct IH as [IH|IH]; [left; exact IH|right; right; exact IH].
Qed.

Lemma signal_within (col : raw_row -> Q) (r0 : raw_row) (rest : list raw_row) (t_delta : Q) :
  within (signal col r0 rest t_delta).
Proof.
  unfold within, signal. cbn [x_min x_max x_start x_end].
  set (xs := map col rest). set (first := col r0).
  assert (Hend : In (col (last rest r0)) (first :: xs)).
  { destruct (last_In rest r0) as [<-|H]; [left; reflexivity|].
    right. apply in_map, H. }
  repeat split.
  - apply fold_Qmin_le. left. reflexivity.
  - apply fold_Qmax_ge. left. reflexivity.
  - apply fold_Qmin_le, Hend.
  - apply fold_Qmax_ge, Hend.
Qed.

(** X3.  For every step window that is not empty, and each of the four
    signals, the first value and the last value lie between the smallest
    and the largest value of the window. *)
Theorem step_values_within_bounds (f : list (raw_row * fl)) (v : step_values) :
  _extract_step_values f = Some v ->
  within (I_ v) /\ within (V_ v) /\ within (Charge_ v) /\ within (Discharge_ v).
Proof.
  destruct f as [|[r0 ir0] f]; [discriminate|]. intros [= <-].
  cbn [I_ V_ Charge_ Discharge_]. repeat split; apply signal_within.
Qed.

Lemma step_values_within_bounds_witness : exists v,
  _extract_step_values (map (fun r => (r, NaN)) cv_discharge_step) = Some v
  /\ within (I_ v) /\ within (V_ v) /\ within (Charge_ v) /\ within (Discharge_ v).
Proof.
  eexists. split; [reflexivity|].
  apply (step_values_within_bounds (map (fun r => (r, NaN)) cv_discharge_step)).
  reflexivity.
Defined.

(** ** [create_step_table], continued *)

(** X4.  For every dataset, each row of the step table holds the values that
    [_extract_step_values] computes for exactly the rows of the raw table
    with the row's cycle and step, in their order. *)
Theorem step_table_rows_aggregate_their_window (d : dataset) :
  exists d' df,
    create_step_table d = Some d'
    /\ dfdata d' = WithIR df
    /\ map fst df = raw_rows (dfdata d)
    /\ Forall (fun row => exists r,
         row = Some r
         /\ _extract_step_values (window df (cycle r) (step r)) = Some (values r))
       (step_table d').
Proof.
  destruct (create_step_table_rows d) as (rs & Hd & _ & Hagg).
  eexists. exists (set_ir_change (dfdata d)). split; [exact Hd|].
  split; [reflexivity|]. split; [apply set_ir_change_rows|].
  cbn [step_table]. rewrite map_map. apply Forall_map.
  eapply Forall_impl; [|exact Hagg].
  intros r (_ & _ & Hr). exists (classified r). split; [reflexivity|exact Hr].
Qed.

Lemma Qsum_le (l : list Q) (M : Q) :
  (forall y, In y l -> y <= M)%Q -> (Qsum l <= inject_Z (Z.of_nat (length l)) * M)%Q.
Proof.
  induction l as [|x l IH]; intros H.
  - simpl. rewrite Qmult_0_l. apply Qle_refl.
  - cbn [Qsum fold_right length]. fold (Qsum l).
    rewrite Nat2Z.inj_succ, <- Z.add_1_r, inject_Z_plus.
    assert (E : ((inject_Z (Z.of_nat (length l)) + inject_Z 1) * M
                 == M + inject_Z (Z.of_nat (length l)) * M)%Q) by ring.
    rewrite E.
    apply Qplus_le_compat.
    + apply H. left. reflexivity.
    + apply IH. intros y Hy. apply H. right. assumption.
Qed.

Lemma Qsum_ge (l : list Q) (m : Q) :
  (forall y, In y l -> m <= y)%Q -> (inject_Z (Z.of_nat (length l)) * m <= Qsum l)%Q.
Proof.
  induction l as [|x l IH]; intros H.
  - simpl. rewrite Qmult_0_l. apply Qle_refl.
  - cbn [Qsum fold_right length]. fold (Qsum l).
    rewrite Nat2Z.inj_succ, <- Z.add_1_r, inject_Z_plus.
    assert (E : ((inject_Z (Z.of_nat (length l)) + inject_Z 1) * m
                 == m + inject_Z (Z.of_nat (length l)) * m)%Q) by ring.
    rewrite E.
    apply Qplus_le_compat.
    + apply H. left. reflexivity.
    + apply IH. intros y Hy. apply H. right. assumption.
Qed.

Lemma signal_average_within (col : raw_row -> Q) (r0 : raw_row) (rest : list raw_row)
    (t_delta : Q) :
  average_within (signal col r0 rest t_delta).
Proof.
  unfold average_within, signal. cbn [x_min x_max x_avr].
  set (xs := map col rest). set (first := col r0).
  assert (Hpos : (0 < inject_Z (Z.of_nat (S (length xs))))%Q).
  { change 0%Q with (inject_Z 0). rewrite <- Zlt_Qlt. lia. }
  split.
  - apply Qle_shift_div_l; [exact Hpos|]. rewrite Qmult_comm.
    apply (Qsum_ge (first :: xs)). intros y Hy. apply fold_Qmin_le, Hy.
  - apply Qle_shift_div_r; [exact Hpos|]. rewrite Qmult_comm.
    apply (Qsum_le (first :: xs)). intros y Hy. apply fold_Qmax_ge, Hy.
Qed.

Lemma step_values_average (f : list (raw_row * fl)) (v : step_values) :
  _extract_step_values f = Some v -> average_within (I_ v).
Proof.
  destruct f as [|[r0 ir0] f]; [discriminate|]. intros [= <-].
  apply signal_average_within.
Qed.

Lemma Qabs_bounds (x : Q) : (- Qabs x <= x /\ x <= Qabs x)%Q.
Proof. apply Qabs_Qle_condition, Qle_refl. Qed.

(** A window whose largest and smallest current are (next to) zero has
    an average current that is neither negative nor positive. *)
Lemma no_current_no_sign (r : step_row) :
  average_within (I_ (values r)) ->
  mask_no_current_hard r = true ->
  mask_current_negative r = false /\ mask_current_positive r = false.
Proof.
  unfold average_within, mask_no_current_hard, mask_current_negative,
    mask_current_positive, sum_abs_current.
  set (s := I_ (values r)).
  intros (Hmin & Hmax) H. apply Qlt_bool_true in H.
  destruct (Qabs_bounds (x_max s)) as [_ Hmax'].
  destruct (Qabs_bounds (x_min s)) as [Hmin' _].
  pose proof (Qabs_nonneg (x_max s)) as Hn1.
  pose proof (Qabs_nonneg (x_min s)) as Hn2.
  split; apply Qlt_bool_false.
  - apply Qle_trans with (- (Qabs (x_max s) + Qabs (x_min s)))%Q.
    + apply Qopp_le_compat, Qlt_le_weak, H.
    + apply Qle_trans with (- Qabs (x_min s))%Q.
      * apply Qopp_le_compat. rewrite <- (Qplus_0_l (Qabs (x_min s))) at 1.
        apply Qplus_le_compat; [assumption|apply Qle_refl].
      * apply Qle_trans with (x_min s); assumption.
  - apply Qle_trans with (x_max s); [assumption|].
    apply Qle_trans with (Qabs (x_max s)); [assumption|].
    apply Qle_trans with (Qabs (x_max s) + Qabs (x_min s))%Q.
    + rewrite <- (Qplus_0_r (Qabs (x_max s))) at 1.
      apply Qplus_le_compat; [apply Qle_refl|assumption].
    + apply Qlt_le_weak, H.
Qed.

Lemma voltage_up_not_down (r : step_row) :
  mask_voltage_up r = true -> mask_voltage_down r = false.
Proof.
  unfold mask_voltage_up, mask_voltage_down, fl_gt.
  destruct (x_delta (V_ (values r))) as [q| | |]; simpl; try discriminate; try reflexivity.
  intros H. apply Qlt_bool_true in H. apply Qlt_bool_false.
  apply Qlt_le_weak. eapply Qlt_trans; [|exact H]. reflexivity.
Qed.

Lemma voltage_change_not_no_change (r : step_row) :
  mask_voltage_up r || mask_voltage_down r = true -> mask_no_change r = false.
Proof.
  intros H. destruct (mask_no_change r) eqn:E; [|reflexivity].
  destruct (no_change_is_not_ocv r E) as [H1 H2]. rewrite H1, H2 in H. discriminate.
Qed.

(** The type that the rules give to a row whose window has no current. *)
Lemma last_match_no_current (r : step_row) :
  average_within (I_ (values r)) ->
  mask_no_current_hard r = true ->
  (mask_voltage_up r = true -> last_match r = Some "ocvrlx_up"%string)
  /\ (mask_voltage_down r = true -> last_match r = Some "ocvrlx_down"%string).
Proof.
  intros Hw Hno. destruct (no_current_no_sign r Hw Hno) as [Hneg Hpos].
  unfold last_match, rules. cbn [rev app List.find fst snd option_map].
  rewrite Hno, Hneg, Hpos, !andb_false_r. cbn [andb].
  split; intros H.
  - rewrite (voltage_change_not_no_change r) by (rewrite H; reflexivity).
    rewrite (voltage_up_not_down r H), H. reflexivity.
  - rewrite (voltage_change_not_no_change r) by (rewrite H; apply orb_true_r).
    rewrite H. reflexivity.
Qed.

(** X5.  In every step table that [create_step_table] builds, a step that
    satisfies the OCV rule (no current, and a voltage change beyond the
    hard limit) keeps the type of that rule: the later assignments for
    discharge, charge, constant voltage and no change cannot match it. *)
Theorem ocv_steps_keep_their_type (d : dataset) :
  exists d',
    create_step_table d = Some d'
    /\ forall r, In (Some r) (step_table d') ->
         (mask_no_current_hard r && mask_voltage_up r = true ->
          type r = Some "ocvrlx_up"%string)
         /\ (mask_no_current_hard r && mask_voltage_down r = true ->
             type r = Some "ocvrlx_down"%string).
Proof.
  destruct (create_step_table_rows d) as (rs & Hd & _ & Hagg).
  eexists. split; [exact Hd|]. cbn [step_table]. intros r Hr.
  rewrite map_map in Hr. apply in_map_iff in Hr. destruct Hr as (r0 & [= <-] & Hr0).
  rewrite Forall_forall in Hagg. destruct (Hagg r0 Hr0) as (_ & _ & Hval).
  apply step_values_average in Hval.
  split; intros H; apply andb_prop in H; destruct H as [Hno Hv];
    change (mask_no_current_hard (classified r0)) with (mask_no_current_hard r0) in Hno;
    destruct (last_match_no_current r0 Hval Hno) as [Hup Hdown];
    cbn [classified type].
  - change (mask_voltage_up (classified r0)) with (mask_voltage_up r0) in Hv.
    rewrite (Hup Hv). reflexivity.
  - change (mask_voltage_down (classified r0)) with (mask_voltage_down r0) in Hv.
    rewrite (Hdown Hv). reflexivity.
Qed.

Lemma set_ir_change_again (t : raw_table) :
  set_ir_change (WithIR (set_ir_change t)) = set_ir_change t.
Proof.
  unfold set_ir_change at 1. cbn [raw_rows]. rewrite set_ir_change_rows. reflexivity.
Qed.

(** X6.  Building the step table of a dataset whose step table has just been
    built changes nothing: the call returns the dataset it was given. *)
Theorem create_step_table_twice (d : dataset) :
  exists d1, create_step_table d = Some d1 /\ create_step_table d1 = Some d1.
Proof.
  destruct (create_step_table_spec d) as (rs & Hd & _).
  eexists. split; [exact Hd|].
  unfold create_step_table in Hd |- *. cbn [dfdata mass start_datetime dfsummary
    dfsummary_made merged no_cycles charge_steps discharge_steps ocv_steps].
  rewrite set_ir_change_again.
  destruct (cycle_loop _ _ _ _) as [[df_steps counter]|]; [|discriminate].
  exact Hd.
Qed.

(** ** [get_cycle_numbers] and [get_step_numbers], continued *)

Lemma insert_sorted_sorted (x : Z) (l : list Z) :
  StronglySorted Z.lt l -> StronglySorted Z.lt (insert_sorted x l).
Proof.
  induction 1 as [|y l Hl IH Hy]; simpl.
  - repeat constructor.
  - destruct (x <? y) eqn:E1.
    + apply Z.ltb_lt in E1. constructor; [constructor; assumption|].
      constructor; [assumption|].
      rewrite Forall_forall in Hy |- *. intros z Hz. specialize (Hy z Hz). lia.
    + destruct (x =? y) eqn:E2; [constructor; assumption|].
      apply Z.ltb_ge in E1. apply Z.eqb_neq in E2.
      constructor; [assumption|].
      rewrite Forall_forall in Hy |- *. intros z Hz.
      apply insert_sorted_In in Hz. destruct Hz as [->|Hz]; [lia|auto].
Qed.

Lemma np_unique_sorted (l : list Z) : StronglySorted Z.lt (np_unique l).
Proof.
  induction l as [|x l IH]; simpl; [constructor|]. apply insert_sorted_sorted, IH.
Qed.

(** X7.  For a raw table that is not empty, [get_cycle_numbers] returns the
    cycle numbers of the table, each once, in ascending order. *)
Theorem get_cycle_numbers_sorted (d : dataset) :
  raw_rows (dfdata d) <> [] ->
  exists cycles,
    get_cycle_numbers d = Some cycles
    /\ StronglySorted Z.lt cycles
    /\ forall c, In c cycles <-> In c (map Cycle_Index (raw_rows (dfdata d))).
Proof.
  intros _. unfold get_cycle_numbers.
  eexists. split; [reflexivity|]. split; [apply np_unique_sorted|].
  intros c. apply np_unique_In.
Qed.

Lemma get_cycle_numbers_sorted_witness :
  raw_rows (dfdata two_cycles) <> []
  /\ exists cycles,
       get_cycle_numbers two_cycles = Some cycles
       /\ StronglySorted Z.lt cycles
       /\ forall c, In c cycles <-> In c (map Cycle_Index (raw_rows (dfdata two_cycles))).
Proof.
  assert (H : raw_rows (dfdata two_cycles) <> []) by discriminate.
  split; [exact H|]. apply (get_cycle_numbers_sorted two_cycles H).
Defined.

Lemma get_step_numbers_dict_inv (self : arbindata) (steptype : string)
    (allctypes : bool) (cycle_number : option Z) (d d' : dataset)
    (out : gmap Z (list Z)) :
  get_step_numbers self steptype allctypes false cycle_number d = Some (d', As_dict out) ->
  exists steptypes cycle_numbers,
    steptypes_of steptype allctypes = Some steptypes
    /\ match cycle_number with
       | Some c => Some [c]
       | None => get_cycle_numbers d'
       end = Some cycle_numbers
    /\ out = fold_left (fun out c => <[c := steplist_of (step_table d') steptypes c]> out)
               cycle_numbers ∅.
Proof.
  unfold get_step_numbers.
  destruct (if step_table_made d then _ else _) as [[d0|]|]; try discriminate.
  destruct (steptypes_of steptype allctypes) as [steptypes|]; [|discriminate].
  destruct (match cycle_number with Some c => _ | None => _ end) as [cycle_numbers|] eqn:E;
    [|discriminate].
  intros [= <- <-]. eauto.
Qed.

Lemma steps_of_type_In (st : steps_frame) (ty : string) (c s : Z) :
  In s (steps_of_type st ty c)
  <-> exists r, In (Some r) st /\ type r = Some ty /\ cycle r = c /\ step r = s.
Proof.
  unfold steps_of_type. rewrite in_flat_map. split.
  - intros ([r|] & Hr & Hs); [|destruct Hs].
    destruct (has_type ty r && (cycle r =? c)) eqn:E; [|destruct Hs].
    destruct Hs as [<-|[]]. apply andb_prop in E. destruct E as [Ht Hc].
    apply Z.eqb_eq in Hc. unfold has_type in Ht.
    destruct (type r) as [t|] eqn:Et; [|discriminate]. apply String.eqb_eq in Ht.
    exists r. subst t. auto.
  - intros (r & Hr & Ht & Hc & Hs). exists (Some r). split; [assumption|].
    unfold has_type. rewrite Ht, String.eqb_refl. subst c.
    rewrite Z.eqb_refl. left. assumption.
Qed.

(** X8.  The entries of the dictionary that [get_step_numbers] returns list
    the steps of the step table, no more and no less: a step number
    other than the sentinel 0 is in the entry of a cycle exactly when
    the step table has a row of that cycle and step whose type is one of
    the requested ones. *)
Theorem get_step_numbers_entries (self : arbindata) (steptype : string)
    (allctypes : bool) (cycle_number : option Z) (d d' : dataset)
    (out : gmap Z (list Z)) :
  get_step_numbers self steptype allctypes false cycle_number d = Some (d', As_dict out) ->
  exists steptypes,
    steptypes_of steptype allctypes = Some steptypes
    /\ forall c steplist s,
         out !! c = Some steplist -> s <> 0 ->
         (In s steplist
          <-> exists r ty, In (Some r) (step_table d') /\ In ty steptypes
                /\ type r = Some ty /\ cycle r = c /\ step r = s).
Proof.
  intros H. apply get_step_numbers_dict_inv in H.
  destruct H as (steptypes & cycle_numbers & Htypes & _ & ->).
  exists steptypes. split; [exact Htypes|]. intros c steplist s Hc Hs.
  rewrite lookup_fold_insert, lookup_empty in Hc.
  destruct (existsb (Z.eqb c) cycle_numbers); [|discriminate].
  injection Hc as <-. unfold steplist_of.
  assert (Hflat : In s (flat_map (fun ty => steps_of_type (step_table d') ty c) steptypes)
    <-> exists r ty, In (Some r) (step_table d') /\ In ty steptypes
          /\ type r = Some ty /\ cycle r = c /\ step r = s).
  { rewrite in_flat_map. split.
    - intros (ty & Hty & Hin). apply steps_of_type_In in Hin.
      destruct Hin as (r & Hr & Ht & Hcy & Hst). exists r, ty. auto.
    - intros (r & ty & Hr & Hty & Ht & Hcy & Hst). exists ty. split; [assumption|].
      apply steps_of_type_In. exists r. auto. }
  destruct (flat_map _ steptypes) as [|s0 l] eqn:E.
  - rewrite <- Hflat. simpl. intuition.
  - exact Hflat.
Qed.

Lemma get_step_numbers_entries_witness : exists d' out,
  get_step_numbers default_self "charge" true false None two_cycles = Some (d', As_dict out)
  /\ exists steptypes,
       steptypes_of "charge" true = Some steptypes
       /\ forall c steplist s,
            out !! c = Some steplist -> s <> 0 ->
            (In s steplist
             <-> exists r ty, In (Some r) (step_table d') /\ In ty steptypes
                   /\ type r = Some ty /\ cycle r = c /\ step r = s).
Proof.
  assert (H : get_step_numbers default_self "charge" true false None two_cycles
              = Some (match get_step_numbers default_self "charge" true false None two_cycles with
                      | Some (d', As_dict out) => (d', As_dict out)
                      | _ => (two_cycles, No_result)
                      end)) by (vm_compute; reflexivity).
  eexists. eexists. split; [exact H|].
  apply (get_step_numbers_entries _ _ _ _ _ _ _ H).
Defined.

(** X9.  What a call of [get_step_numbers] does to the dataset.  With the
    step table built it leaves the dataset as it is.  Without it, it
    builds the step table when the object is set to force that, and
    otherwise changes nothing and returns Python's [None]. *)
Theorem get_step_numbers_effect (self : arbindata) (steptype : string)
    (allctypes pdtype : bool) (cycle_number : option Z) (d d' : dataset)
    (result : step_numbers) :
  get_step_numbers self steptype allctypes pdtype cycle_number d = Some (d', result) ->
  if step_table_made d then d' = d
  else if force_step_table_creation self || force_all self
       then create_step_table d = Some d'
       else d' = d /\ result = No_result.
Proof.
  unfold get_step_numbers. destruct (step_table_made d).
  - destruct (steptypes_of _ _); [|congruence].
    destruct (match cycle_number with Some c => _ | None => _ end); [|discriminate].
    destruct pdtype; congruence.
  - destruct (force_step_table_creation self || force_all self).
    + destruct (create_step_table d) as [d0|]; [|discriminate]. cbn [option_map].
      destruct (steptypes_of _ _); [|congruence].
      destruct (match cycle_number with Some c => _ | None => _ end); [|discriminate].
      destruct pdtype; congruence.
    + intros [= <- <-]. auto.
Qed.

Lemma get_step_numbers_effect_witness : exists d' result,
  get_step_numbers default_self "charge" true false None (loaded cv_discharge_step [2])
  = Some (d', result)
  /\ create_step_table (loaded cv_discharge_step [2]) = Some d'.
Proof.
  assert (H : get_step_numbers default_self "charge" true false None
                (loaded cv_discharge_step [2])
              = Some (match get_step_numbers default_self "charge" true false None
                              (loaded cv_discharge_step [2]) with
                      | Some x => x
                      | None => (loaded cv_discharge_step [2], No_result)
                      end)) by (vm_compute; reflexivity).
  eexists. eexists. split; [exact H|].
  apply (get_step_numbers_effect _ _ _ _ _ _ _ _ H).
Defined.

(** X10.  With [pdtype] set, [get_step_numbers] returns the rows of the step
    table whose type is one of the requested ones and whose cycle is one
    of those asked about, and only those. *)
Theorem get_step_numbers_frame (self : arbindata) (steptype : string)
    (allctypes : bool) (cycle_number : option Z) (d d' : dataset)
    (out : steps_frame) :
  get_step_numbers self steptype allctypes true cycle_number d = Some (d', As_frame out) ->
  exists steptypes,
    steptypes_of steptype allctypes = Some steptypes
    /\ forall r,
         In (Some r) out
         <-> In (Some r) (step_table d')
             /\ (exists ty, In ty steptypes /\ type r = Some ty)
             /\ queried cycle_number d' (cycle r).
Proof.
  unfold get_step_numbers.
  destruct (if step_table_made d then _ else _) as [[d0|]|]; try discriminate.
  destruct (steptypes_of steptype allctypes) as [steptypes|]; [|discriminate].
  destruct (match cycle_number with Some c => _ | None => _ end) as [cycle_numbers|] eqn:E;
    [|discriminate].
  intros [= <- <-]. exists steptypes. split; [reflexivity|]. intros r.
  rewrite filter_In.
  assert (Hty : existsb (fun s => has_type s r) steptypes = true
                <-> exists ty, In ty steptypes /\ type r = Some ty).
  { rewrite existsb_exists. unfold has_type. split.
    - intros (ty & Hin & H). destruct (type r) as [t|]; [|discriminate].
      apply String.eqb_eq in H. subst t. eauto.
    - intros (ty & Hin & H). exists ty. rewrite H, String.eqb_refl. auto. }
  assert (Hcy : existsb (Z.eqb (cycle r)) cycle_numbers = true
                <-> queried cycle_number d0 (cycle r)).
  { rewrite existsb_Zeqb_In. destruct cycle_number as [c0|]; simpl.
    - injection E as <-. simpl. intuition.
    - unfold get_cycle_numbers in E. injection E as <-. apply np_unique_In. }
  rewrite andb_true_iff, Hty, Hcy. tauto.
Qed.

Lemma get_step_numbers_frame_witness : exists d' out,
  get_step_numbers default_self "charge" true true None two_cycles = Some (d', As_frame out)
  /\ exists steptypes,
       steptypes_of "charge" true = Some steptypes
       /\ forall r,
            In (Some r) out
            <-> In (Some r) (step_table d')
                /\ (exists ty, In ty steptypes /\ type r = Some ty)
                /\ queried None d' (cycle r).
Proof.
  assert (H : get_step_numbers default_self "charge" true true None two_cycles
              = Some (match get_step_numbers default_self "charge" true true None two_cycles with
                      | Some (d', As_frame out) => (d', As_frame out)
                      | _ => (two_cycles, No_result)
                      end)) by (vm_compute; reflexivity).
  eexists. eexists. split; [exact H|].
  apply (get_step_numbers_frame _ _ _ _ _ _ _ H).
Defined.

(** ** [_select_last] *)

Lemma cycle_range_In (max_step j : Z) : In j (cycle_range max_step) <-> 1 <= j <= max_step.
Proof.
  unfold cycle_range. rewrite in_map_iff. split.
  - intros (n & <- & Hn). apply in_seq in Hn. lia.
  - intros H. exists (Z.to_nat (j - 1)). split; [lia|]. apply in_seq. lia.
Qed.

Lemma last_items_None (rows : list raw_row) (cycles : list Z) (j : Z) :
  In j cycles -> last_point rows j = None -> last_items rows cycles = None.
Proof.
  intros Hj Hnone. induction cycles as [|c cycles IH]; [destruct Hj|].
  simpl. destruct Hj as [->|Hj].
  - unfold last_point in Hnone. rewrite Hnone. reflexivity.
  - destruct (max_Z _); [|reflexivity]. rewrite (IH Hj). reflexivity.
Qed.

Lemma last_items_Some (rows : list raw_row) (cycles steps : list Z) :
  last_items rows cycles = Some steps ->
  forall z, In z steps <-> exists j, In j cycles /\ last_point rows j = Some z.
Proof.
  revert steps. induction cycles as [|c cycles IH]; intros steps; simpl.
  - intros [= <-] z. simpl. split; [tauto|]. intros (j & [] & _).
  - fold (last_point rows c). destruct (last_point rows c) as [last_item|] eqn:E;
      [|discriminate].
    destruct (last_items rows cycles) as [steps'|]; [|discriminate].
    intros [= <-] z. simpl. rewrite (IH steps' eq_refl z). split.
    + intros [<-|(j & Hj & Hz)]; [exists c; auto|exists j; auto].
    + intros (j & [<-|Hj] & Hz); [left; congruence|right; eauto].
Qed.

(** X11.  [_select_last] goes through every cycle number from 1 to the largest
    one and takes the maximum of its data points: when the raw table has
    no row of one of these cycles, that maximum is taken of nothing and
    the call raises. *)
Theorem select_last_skipped_cycle (t : raw_table) (max_step j : Z) :
  max_Z (map Cycle_Index (raw_rows t)) = Some max_step ->
  1 <= j <= max_step ->
  (forall r, In r (raw_rows t) -> Cycle_Index r <> j) ->
  _select_last t = None.
Proof.
  intros Hmax Hj Hnone. unfold _select_last. rewrite Hmax.
  fold (cycle_range max_step).
  rewrite (last_items_None _ _ j); [reflexivity|apply cycle_range_In, Hj|].
  unfold last_point.
  destruct (List.filter (fun r => Cycle_Index r =? j) (raw_rows t)) as [|r l] eqn:E;
    [reflexivity|].
  exfalso. assert (Hin : In r (List.filter (fun r => Cycle_Index r =? j) (raw_rows t)))
    by (rewrite E; left; reflexivity).
  apply filter_In in Hin. destruct Hin as [Hin Hc]. apply Z.eqb_eq in Hc.
  apply (Hnone r Hin Hc).
Qed.

Lemma select_last_skipped_cycle_witness :
  max_Z (map Cycle_Index (raw_rows skipped_cycle)) = Some 3
  /\ 1 <= 2 <= 3
  /\ (forall r, In r (raw_rows skipped_cycle) -> Cycle_Index r <> 2)
  /\ _select_last skipped_cycle = None.
Proof.
  assert (H : forall r, In r (raw_rows skipped_cycle) -> Cycle_Index r <> 2).
  { intros r [<-|[<-|[]]]; discriminate. }
  split; [reflexivity|]. split; [lia|]. split; [exact H|].
  apply (select_last_skipped_cycle skipped_cycle 3 2); [reflexivity|lia|exact H].
Defined.

(** X12.  When [_select_last] returns, every cycle number from 1 to the
    largest one has rows, and the mask it returns holds for a row exactly
    when the data point of the row is the largest data point of one of
    these cycles. *)
Theorem select_last_mask (t : raw_table) (mask : raw_row -> bool) :
  _select_last t = Some mask ->
  exists max_step,
    max_Z (map Cycle_Index (raw_rows t)) = Some max_step
    /\ (forall j, 1 <= j <= max_step -> exists z, last_point (raw_rows t) j = Some z)
    /\ forall r, mask r = true
         <-> exists j, 1 <= j <= max_step
               /\ last_point (raw_rows t) j = Some (Data_Point r).
Proof.
  unfold _select_last.
  destruct (max_Z (map Cycle_Index (raw_rows t))) as [max_step|]; [|discriminate].
  fold (cycle_range max_step).
  destruct (last_items (raw_rows t) (cycle_range max_step)) as [steps|] eqn:E; [|discriminate].
  intros [= <-]. exists max_step. split; [reflexivity|]. split.
  - intros j Hj. destruct (last_point (raw_rows t) j) as [z|] eqn:Ez; [eauto|].
    rewrite (last_items_None _ _ j) in E; [discriminate|apply cycle_range_In, Hj|exact Ez].
  - intros r. rewrite existsb_Zeqb_In, (last_items_Some _ _ _ E). split.
    + intros (j & Hj & Hz). apply cycle_range_In in Hj. eauto.
    + intros (j & Hj & Hz). apply cycle_range_In in Hj. eauto.
Qed.

Lemma select_last_mask_witness : exists mask,
  _select_last (dfdata two_cycles) = Some mask
  /\ exists max_step,
       max_Z (map Cycle_Index (raw_rows (dfdata two_cycles))) = Some max_step
       /\ (forall j, 1 <= j <= max_step ->
             exists z, last_point (raw_rows (dfdata two_cycles)) j = Some z)
       /\ forall r, mask r = true
            <-> exists j, 1 <= j <= max_step
                  /\ last_point (raw_rows (dfdata two_cycles)) j = Some (Data_Point r).
Proof.
  assert (H : _select_last (dfdata two_cycles)
              = Some (match _select_last (dfdata two_cycles) with
                      | Some mask => mask
                      | None => fun _ => false
                      end)) by reflexivity.
  eexists. split; [exact H|]. apply (select_last_mask _ _ H).
Defined.

(** ** [set_col_first] *)

Lemma string_in_In (s : string) (l : list string) : string_in s l = true <-> In s l.
Proof.
  unfold string_in. rewrite existsb_exists. split.
  - intros [x [Hx E]]. apply String.eqb_eq in E. subst x. exact Hx.
  - intros H. exists s. split; [exact H|apply String.eqb_refl].
Qed.

Lemma string_in_not_In (s : string) (l : list string) : string_in s l = false <-> ~ In s l.
Proof.
  rewrite <- string_in_In. destruct (string_in s l); split; congruence.
Qed.

Lemma remove_first_Permutation (name : string) (l : list string) :
  In name l -> Permutation (name :: remove_first name l) l.
Proof.
  induction l as [|h l IH]; simpl; [tauto|]. intros H.
  destruct (String.eqb h name) eqn:E.
  - apply String.eqb_eq in E. subst h. reflexivity.
  - assert (Hin : In name l).
    { destruct H as [H|H]; [|exact H]. subst h. rewrite String.eqb_refl in E. discriminate. }
    etransitivity; [apply perm_swap|]. apply perm_skip, IH, Hin.
Qed.

Lemma move_first_Permutation (col_names l : list string) :
  Permutation (move_first col_names l) l.
Proof.
  revert l. induction col_names as [|c col_names IH]; intros l; simpl; [reflexivity|].
  destruct (string_in c l) eqn:E; [|reflexivity].
  etransitivity; [apply IH|]. apply remove_first_Permutation, string_in_In, E.
Qed.

Lemma column_NoDup (df : frame) (h : string) (c : list cell) :
  NoDup (columns df) -> In (h, c) df -> column h df = Some c.
Proof.
  induction df as [|[h' c'] df IH]; simpl; [tauto|].
  intros Hnd [Hin|Hin].
  - injection Hin as -> ->. rewrite String.eqb_refl. reflexivity.
  - destruct (String.eqb h' h) eqn:E.
    + apply String.eqb_eq in E. subst h'. apply NoDup_cons_iff in Hnd.
      exfalso. apply (proj1 Hnd). unfold columns. apply (in_map fst _ _ Hin).
    + apply IH; [|exact Hin]. apply NoDup_cons_iff in Hnd. apply Hnd.
Qed.

Lemma reindex_columns (column_headings : list string) (df : frame) :
  columns (reindex column_headings df) = column_headings.
Proof.
  unfold columns, reindex. rewrite map_map.
  transitivity (map id column_headings); [|apply map_id].
  apply map_ext. intros h. destruct (column h df); reflexivity.
Qed.

Lemma reindex_own_columns (df : frame) :
  NoDup (columns df) -> reindex (columns df) df = df.
Proof.
  intros Hnd. unfold reindex, columns. rewrite map_map.
  transitivity (map id df); [|apply map_id].
  apply map_ext_in. intros [h c] Hin. simpl.
  rewrite (column_NoDup df h c Hnd Hin). reflexivity.
Qed.

Lemma reindex_Permutation (column_headings : list string) (df : frame) :
  NoDup (columns df) -> Permutation column_headings (columns df) ->
  Permutation (reindex column_headings df) df.
Proof.
  intros Hnd Hp.
  rewrite <- (reindex_own_columns df Hnd) at 2.
  unfold reindex. apply Permutation_map, Hp.
Qed.

(** X13.  [set_col_first] only reorders: when the headers of the frame are
    distinct, the frame it returns holds the same columns, each with its
    header and its cells, whatever the names asked for. *)
Theorem set_col_first_reorders (df : frame) (col_names : list string) :
  NoDup (columns df) ->
  Permutation (set_col_first df col_names) df
  /\ forall name, column name (set_col_first df col_names) = column name df.
Proof.
  intros Hnd.
  assert (Hp : Permutation (set_col_first df col_names) df).
  { apply reindex_Permutation; [exact Hnd|apply move_first_Permutation]. }
  split; [exact Hp|]. intros name.
  destruct (column name df) as [col|] eqn:E.
  - unfold set_col_first. apply column_reindex; [exact E|].
    apply move_first_In. eapply column_In, E.
  - destruct (column name (set_col_first df col_names)) as [col|] eqn:E'; [|reflexivity].
    exfalso. apply column_In in E'.
    unfold set_col_first in E'. rewrite reindex_columns in E'.
    apply (Permutation_in _ (move_first_Permutation col_names (columns df))) in E'.
    clear Hp Hnd. induction df as [|[h c] df IH]; simpl in *; [tauto|].
    destruct (String.eqb h name) eqn:En; [discriminate|].
    destruct E' as [E'|E']; [|exact (IH E E')].
    subst h. rewrite String.eqb_refl in En. discriminate.
Qed.

Lemma set_col_first_reorders_witness :
  Permutation (set_col_first (frame_of_raw (Plain cv_discharge_step)) ["Voltage"; "Current"]%string)
    (frame_of_raw (Plain cv_discharge_step))
  /\ forall name,
       column name (set_col_first (frame_of_raw (Plain cv_discharge_step)) ["Voltage"; "Current"]%string)
       = column name (frame_of_raw (Plain cv_discharge_step)).
Proof.
  apply set_col_first_reorders. vm_compute.
  repeat (constructor; [simpl; intuition discriminate|]). constructor.
Defined.

Lemma remove_first_filter (name : string) (l : list string) :
  NoDup l -> remove_first name l = List.filter (fun h => negb (String.eqb h name)) l.
Proof.
  induction l as [|h l IH]; simpl; [reflexivity|]. intros Hnd.
  apply NoDup_cons_iff in Hnd. destruct Hnd as [Hh Hnd].
  destruct (String.eqb h name) eqn:E; simpl.
  - apply String.eqb_eq in E. subst h. clear IH.
    induction l as [|x l IH]; simpl; [reflexivity|].
    destruct (String.eqb x name) eqn:Ex.
    + apply String.eqb_eq in Ex. subst x. exfalso. apply Hh. left. reflexivity.
    + simpl. f_equal. apply IH.
      * intros H. apply Hh. right. exact H.
      * apply NoDup_cons_iff in Hnd. apply Hnd.
  - f_equal. apply IH, Hnd.
Qed.

Lemma move_first_all (col_names l : list string) :
  NoDup l -> NoDup col_names -> (forall n, In n col_names -> In n l) ->
  move_first col_names l
  = rev col_names ++ List.filter (fun h => negb (string_in h col_names)) l.
Proof.
  revert l. induction col_names as [|c ns IH]; intros l Hl Hns Hin.
  - simpl. clear. induction l as [|h l IHl]; simpl; [reflexivity|]. f_equal. exact IHl.
  - apply NoDup_cons_iff in Hns. destruct Hns as [Hc Hns].
    cbn [move_first]. rewrite (proj2 (string_in_In c l)) by (apply Hin; left; reflexivity).
    assert (Hperm : Permutation (c :: remove_first c l) l).
    { apply remove_first_Permutation, Hin. left. reflexivity. }
    rewrite IH.
    + cbn [rev List.filter]. rewrite (proj2 (string_in_not_In c ns) Hc). cbn [negb].
      rewrite <- app_assoc. cbn [app]. do 2 f_equal.
      rewrite (remove_first_filter c l Hl), filter_filter_and.
      apply filter_ext. intros h. unfold string_in. cbn [existsb].
      rewrite negb_orb. reflexivity.
    + eapply Permutation_NoDup; [symmetry; exact Hperm|exact Hl].
    + exact Hns.
    + intros n Hn. apply (Permutation_in _ (Permutation_sym Hperm)).
      apply Hin. right. exact Hn.
Qed.

(** X14.  The frame that [set_col_first] returns starts with the names
    asked for, the last of them first, followed by the other columns in
    the order they had; this when the headers are distinct, the names are
    distinct and each of them is a header of the frame. *)
Theorem set_col_first_order (df : frame) (col_names : list string) :
  NoDup (columns df) -> NoDup col_names ->
  (forall n, In n col_names -> In n (columns df)) ->
  columns (set_col_first df col_names)
  = rev col_names ++ List.filter (fun h => negb (string_in h col_names)) (columns df).
Proof.
  intros Hnd Hns Hin. unfold set_col_first. rewrite reindex_columns.
  apply move_first_all; assumption.
Qed.

Lemma set_col_first_order_witness :
  columns (set_col_first (frame_of_raw (Plain cv_discharge_step)) ["Voltage"; "Current"]%string)
  = rev ["Voltage"; "Current"]%string
    ++ List.filter (fun h => negb (string_in h ["Voltage"; "Current"]%string))
         (columns (frame_of_raw (Plain cv_discharge_step))).
Proof.
  apply set_col_first_order.
  - vm_compute. repeat (constructor; [simpl; intuition discriminate|]). constructor.
  - repeat (constructor; [simpl; intuition discriminate|]). constructor.
  - vm_compute. intros n [<-|[<-|[]]]; tauto.
Defined.

Lemma move_first_stops (pre post : list string) (n : string) (l : list string) :
  ~ In n l -> move_first (pre ++ n :: post) l = move_first pre l.
Proof.
  revert l. induction pre as [|c pre IH]; intros l Hn; simpl.
  - rewrite (proj2 (string_in_not_In n l) Hn). reflexivity.
  - destruct (string_in c l) eqn:E; [|reflexivity]. apply IH.
    intros H. apply Hn.
    apply (Permutation_in _ (remove_first_Permutation c l (proj1 (string_in_In c l) E))), H.
Qed.

(** X15.  A name that is not a header of the frame ends the work of
    [set_col_first] without an error: the names before it are moved, the
    names after it are not looked at. *)
Theorem set_col_first_missing_name (df : frame) (pre post : list string) (n : string) :
  ~ In n (columns df) ->
  set_col_first df (pre ++ n :: post) = set_col_first df pre.
Proof.
  intros Hn. unfold set_col_first. rewrite move_first_stops; [reflexivity|exact Hn].
Qed.

Lemma set_col_first_missing_name_witness :
  set_col_first (frame_of_raw (Plain cv_discharge_step))
    (["Voltage"%string] ++ "Test_ID"%string :: ["Current"%string])
  = set_col_first (frame_of_raw (Plain cv_discharge_step)) ["Voltage"]%string.
Proof.
  apply set_col_first_missing_name. vm_compute. intuition discriminate.
Defined.

(** ** [_make_summary], continued *)

Lemma insert_first_column (name : string) (col : list cell) (df df' : frame) :
  insert_first name col df = Some df' ->
  column name df' = Some col
  /\ forall n c, column n df = Some c -> column n df' = Some c.
Proof.
  unfold insert_first. destruct (column name df) eqn:E; [discriminate|].
  intros [= <-]. simpl. rewrite String.eqb_refl. split; [reflexivity|].
  intros n c Hn. destruct (String.eqb name n) eqn:En; [|exact Hn].
  apply String.eqb_eq in En. subst n. congruence.
Qed.

Lemma column_set_column_same (name : string) (col : list cell) (df : frame) :
  column name (set_column name col df) = Some col.
Proof.
  induction df as [|[h c] df IH]; simpl.
  - rewrite String.eqb_refl. reflexivity.
  - destruct (String.eqb h name) eqn:E; simpl; rewrite E; [reflexivity|exact IH].
Qed.

Lemma select_columns_keeps (names : list string) (df : frame) (name : string)
    (col : list cell) :
  string_in name columns_to_keep = true ->
  column name df = Some col ->
  column name
    (fold_left (fun df column_name =>
       if string_in column_name columns_to_keep then df
       else pop_column column_name df) names df) = Some col.
Proof.
  intros Hkeep. revert df.
  induction names as [|n names IH]; intros df H; cbn [fold_left]; [exact H|].
  apply IH. destruct (string_in n columns_to_keep) eqn:E; [exact H|].
  rewrite column_pop_column; [exact H|].
  destruct (String.eqb n name) eqn:En; [|reflexivity].
  apply String.eqb_eq in En. subst n. congruence.
Qed.

Lemma kept_step (base f f' : frame) :
  (forall n c, column n f = Some c -> column n f' = Some c) ->
  kept base f -> kept base f'.
Proof. intros Hk Hb name col Hne Hc. apply Hk, (Hb name col Hne Hc). Qed.

(** Carry what is known of the columns of the frame [f] over to the next
    frame, whose columns extend those of [f] by [Hk]. *)
Ltac carry Hk f :=
  repeat match goal with
         | Hc : column _ f = Some _ |- _ => apply Hk in Hc
         | Hc : kept _ f |- _ => apply (kept_step _ _ _ Hk) in Hc
         end.

(** Follow the inserts of a chain of binds. *)
Ltac follow_columns H :=
  repeat match type of H with
         | mbind _ (insert_first ?n ?c ?f) = Some _ =>
             let E := fresh "E" in
             let Hk := fresh "Hk" in
             let f' := fresh "ins" in
             destruct (insert_first n c f) as [f'|] eqn:E; [|discriminate];
             apply insert_first_column in E; destruct E as [E Hk];
             carry Hk f; clear Hk; cbn [mbind option_bind] in H
         end.

Lemma summary_find_ocv_extends (self : arbindata) (rows : list raw_row)
    (d d' : dataset) (df df' : frame) :
  summary_find_ocv self rows d df = Some (d', df') ->
  forall name col, column name df = Some col -> column name df' = Some col.
Proof.
  unfold summary_find_ocv. intros H name col Hc.
  destruct (_get_ocv _ _ d) as [[d1 ocv_1]|]; [|discriminate]. cbn [mbind option_bind] in H.
  destruct (_get_ocv _ _ d1) as [[d2 ocv_2]|]; [|discriminate]. cbn [mbind option_bind] in H.
  follow_columns H.
  injection H as _ <-. exact Hc.
Qed.

Lemma summary_find_steps_extends (self : arbindata)
    (pick : forall A : Type, list A -> option A) (col : raw_row -> Q)
    (discharge_title charge_title : string) (rows : list raw_row)
    (d d' : dataset) (df df' : frame) :
  summary_find_steps self pick col discharge_title charge_title rows d df = Some (d', df') ->
  forall name c, column name df = Some c -> column name df' = Some c.
Proof.
  unfold summary_find_steps. intros H name c Hc.
  destruct (steps_dict _ _ _ d) as [[d1 s1]|]; [|discriminate]. cbn [mbind option_bind] in H.
  destruct (steps_dict _ _ _ d1) as [[d2 s2]|]; [|discriminate]. cbn [mbind option_bind] in H.
  destruct (for_rows _ _); [|discriminate]. cbn [mbind option_bind] in H.
  follow_columns H.
  injection H as _ <-. exact Hc.
Qed.

Lemma when_extends (b : bool) (f : dataset -> frame -> option (dataset * frame))
    (d d' : dataset) (df df' : frame) :
  (forall d d' df df', f d df = Some (d', df') ->
     forall name c, column name df = Some c -> column name df' = Some c) ->
  when b f d df = Some (d', df') ->
  forall name c, column name df = Some c -> column name df' = Some c.
Proof. intros Hf. unfold when. destruct b; [apply Hf|]. intros [= _ <-]. tauto. Qed.

Lemma summary_columns_extends (mass_ : Q) (rows : list raw_row) (df df' : frame) :
  summary_columns mass_ rows df = Some df' ->
  forall name col, column name df = Some col -> column name df' = Some col.
Proof.
  unfold summary_columns. intros H name col Hc.
  follow_columns H.
  injection H as <-. exact Hc.
Qed.

Lemma summary_dates_columns (o : summary_options) (rows : list raw_row) (df df' : frame) :
  summary_dates o rows df = Some df' ->
  (forall name col, String.eqb summary_txt_datetime_txt name = false ->
     column name df = Some col -> column name df' = Some col)
  /\ (convert_date o = true -> exists newstamps,
        mapM xldate_to_string (map DateTime rows) = Some newstamps
        /\ column summary_txt_datetime_txt df' = Some newstamps).
Proof.
  unfold summary_dates. destruct (convert_date o).
  - destruct (mapM _ _) as [newstamps|]; [|discriminate]. cbn [mbind option_bind].
    intros [= <-]. split.
    + intros name col Hne Hc. rewrite column_set_column; assumption.
    + intros _. exists newstamps. split; [reflexivity|apply column_set_column_same].
  - intros [= <-]. split; [auto|discriminate].
Qed.

Lemma summary_frame_columns (self : arbindata) (o : summary_options) (mass_ : Q)
    (selected : raw_table) (d d' : dataset) (df : frame) :
  summary_frame self o mass_ selected d = Some (d', df) ->
  exists pre,
    df = summary_sorted o pre
    /\ kept (summary_base o selected) pre
    /\ (convert_date o = true -> exists newstamps,
          mapM xldate_to_string (map DateTime (raw_rows selected)) = Some newstamps
          /\ column summary_txt_datetime_txt pre = Some newstamps).
Proof.
  intros H. apply summary_frame_inv in H.
  destruct H as (f0 & f1 & d1 & f2 & d2 & f3 & f4 & H0 & H1 & W1 & W2 & W3 & ->).
  pose proof (summary_columns_extends _ _ _ _ H0) as K0.
  apply summary_dates_columns in H1. destruct H1 as [Kd Hdate].
  pose proof (when_extends _ _ _ _ _ _
    (fun d d' df df' => summary_find_ocv_extends self _ d d' df df') W1) as K1.
  pose proof (when_extends _ _ _ _ _ _
    (fun d d' df df' => summary_find_steps_extends self _ _ _ _ _ d d' df df') W2) as K2.
  pose proof (when_extends _ _ _ _ _ _
    (fun d d' df df' => summary_find_steps_extends self _ _ _ _ _ d d' df df') W3) as K3.
  exists f4. split; [reflexivity|]. split.
  - intros name col Hne Hc. apply K3, K2, K1, Kd; [exact Hne|]. apply K0, Hc.
  - intros Hc. destruct (Hdate Hc) as (newstamps & Hm & Hcol).
    exists newstamps. split; [exact Hm|]. apply K3, K2, K1, Hcol.
Qed.

(** *** What the build leaves of the dataset *)

Lemma same_data_refl (d : dataset) : same_data d d.
Proof. unfold same_data. tauto. Qed.

Lemma same_data_trans (d d' d'' : dataset) :
  same_data d d' -> same_data d' d'' -> same_data d d''.
Proof.
  unfold same_data.
  intros (R1 & M1 & S1 & F1 & G1 & E1 & N1 & T1) (R2 & M2 & S2 & F2 & G2 & E2 & N2 & T2).
  repeat split; try congruence.
  intros Hmade. specialize (T1 Hmade). subst d'. apply T2, Hmade.
Qed.

Lemma create_step_table_same_data (d d' : dataset) :
  step_table_made d = false -> create_step_table d = Some d' -> same_data d d'.
Proof.
  intros Hmade H. destruct (create_step_table_spec d) as (rs & Hd & _).
  rewrite Hd in H. injection H as <-. unfold same_data. cbn.
  rewrite set_ir_change_rows. repeat split. congruence.
Qed.

Lemma get_step_numbers_same_data (self : arbindata) (steptype : string)
    (allctypes pdtype : bool) (cycle_number : option Z) (d d' : dataset)
    (result : step_numbers) :
  get_step_numbers self steptype allctypes pdtype cycle_number d = Some (d', result) ->
  same_data d d'.
Proof.
  destruct (step_table_made d) eqn:Hmade.
  - intros H. apply get_step_numbers_made in H; [|exact Hmade]. subst d'.
    apply same_data_refl.
  - unfold get_step_numbers. rewrite Hmade.
    destruct (force_step_table_creation self || force_all self).
    + destruct (create_step_table d) as [d0|] eqn:E; [|discriminate]. cbn [option_map].
      apply create_step_table_same_data in E; [|exact Hmade].
      destruct (steptypes_of _ _); [|intros [= <- _]; exact E].
      destruct (match cycle_number with Some c => _ | None => _ end); [|discriminate].
      destruct pdtype; intros [= <- _]; exact E.
    + intros [= <- _]. apply same_data_refl.
Qed.

Lemma steps_dict_same_data (self : arbindata) (attribute : option (gmap Z (list Z)))
    (steptype : string) (d d' : dataset) (m : option (gmap Z (list Z))) :
  steps_dict self attribute steptype d = Some (d', m) -> same_data d d'.
Proof.
  unfold steps_dict. destruct (given attribute).
  - intros [= <- _]. apply same_data_refl.
  - destruct (get_step_numbers _ _ _ _ _ d) as [[d1 [| |out]]|] eqn:E; try discriminate;
      intros [= <- _]; eapply get_step_numbers_same_data; eassumption.
Qed.

Lemma summary_find_ocv_same_data (self : arbindata) (rows : list raw_row)
    (d d' : dataset) (dfsummary dfsummary' : frame) :
  summary_find_ocv self rows d dfsummary = Some (d', dfsummary') -> same_data d d'.
Proof.
  unfold summary_find_ocv, _get_ocv.
  destruct (steps_dict _ _ _ d) as [[d1 s1]|] eqn:E1; [|discriminate].
  apply steps_dict_same_data in E1. cbn [mbind option_bind].
  destruct s1 as [s1|]; [|discriminate]. cbn [mbind option_bind].
  destruct (steps_dict _ _ _ d1) as [[d2 s2]|] eqn:E2; [|discriminate].
  apply steps_dict_same_data in E2. cbn [mbind option_bind].
  destruct s2 as [s2|]; [|discriminate]. cbn [mbind option_bind].
  repeat (destruct (insert_first _ _ _); [cbn [mbind option_bind]|discriminate]).
  intros [= <- _]. eapply same_data_trans; eassumption.
Qed.

Lemma summary_find_steps_same_data (self : arbindata)
    (pick : forall A : Type, list A -> option A) (col : raw_row -> Q)
    (discharge_title charge_title : string) (rows : list raw_row)
    (d d' : dataset) (dfsummary dfsummary' : frame) :
  summary_find_steps self pick col discharge_title charge_title rows d dfsummary
  = Some (d', dfsummary') -> same_data d d'.
Proof.
  unfold summary_find_steps.
  destruct (steps_dict _ _ _ d) as [[d1 s1]|] eqn:E1; [|discriminate].
  apply steps_dict_same_data in E1. cbn [mbind option_bind].
  destruct (steps_dict _ _ _ d1) as [[d2 s2]|] eqn:E2; [|discriminate].
  apply steps_dict_same_data in E2. cbn [mbind option_bind].
  destruct (for_rows _ _); [cbn [mbind option_bind]|discriminate].
  repeat (destruct (insert_first _ _ _); [cbn [mbind option_bind]|discriminate]).
  intros [= <- _]. eapply same_data_trans; eassumption.
Qed.

Lemma when_same_data (b : bool) (f : dataset -> frame -> option (dataset * frame))
    (d d' : dataset) (df df' : frame) :
  (forall d d' df df', f d df = Some (d', df') -> same_data d d') ->
  when b f d df = Some (d', df') -> same_data d d'.
Proof.
  intros Hf. unfold when. destruct b; [apply Hf|]. intros [= <- _]. apply same_data_refl.
Qed.

Lemma summary_frame_same_data (self : arbindata) (o : summary_options) (mass_ : Q)
    (selected : raw_table) (d d' : dataset) (df : frame) :
  summary_frame self o mass_ selected d = Some (d', df) -> same_data d d'.
Proof.
  intros H. apply summary_frame_inv in H.
  destruct H as (f0 & f1 & d1 & f2 & d2 & f3 & f4 & _ & _ & E1 & E2 & E3 & _).
  apply when_same_data in E1; [|intros; eapply summary_find_ocv_same_data; eassumption].
  apply when_same_data in E2; [|intros; eapply summary_find_steps_same_data; eassumption].
  apply when_same_data in E3; [|intros; eapply summary_find_steps_same_data; eassumption].
  eapply same_data_trans; [eapply same_data_trans|]; eassumption.
Qed.

(** The steps of [_make_summary], one by one. *)
Lemma make_summary_inv (self : arbindata) (o : summary_options) (d d1 : dataset) :
  _make_summary self o d = Some d1 ->
  exists test p test' df,
    same_data (match given_mass o with
               | Some m => if update_it o then with_mass d m else d
               | None => d
               end) test
    /\ summary_requirment o test = Some p
    /\ summary_frame self o (mass_used o d) (select_rows p (dfdata test)) test
       = Some (test', df)
    /\ d1 = with_summary test' df.
Proof.
  unfold _make_summary. fold (mass_used o d).
  set (d0 := match given_mass o with
             | Some m => if update_it o then with_mass d m else d
             | None => d
             end).
  destruct (if ensure_step_table o && negb (step_table_made d0)
            then create_step_table d0 else Some d0) as [test|] eqn:E0; [|discriminate].
  cbn [mbind option_bind].
  destruct (summary_requirment o test) as [p|] eqn:Ep; [|discriminate].
  cbn [mbind option_bind].
  destruct (summary_frame _ _ _ _ test) as [[test' df]|] eqn:Ef; [|discriminate].
  cbn [mbind option_bind]. intros [= <-].
  exists test, p, test', df.
  split; [|split; [exact Ep|split; [exact Ef|reflexivity]]].
  destruct (ensure_step_table o && negb (step_table_made d0)) eqn:Eb.
  - apply create_step_table_same_data; [|exact E0].
    apply andb_true_iff in Eb. destruct Eb as [_ Eb].
    apply negb_true_iff in Eb. exact Eb.
  - injection E0 as <-. apply same_data_refl.
Qed.

(** X16.  What [_make_summary] leaves of the dataset.  It stores the summary
    and sets [dfsummary_made]; it stores the mass given when [update_it]
    is set (a mass of [None] or zero is not a mass given).  The rows of
    the raw table, the start time, [merged] and [no_cycles] are as they
    were, and so are the raw table and the step table of a dataset whose
    step table was built before the call. *)
Theorem make_summary_state (self : arbindata) (o : summary_options) (d d1 : dataset) :
  _make_summary self o d = Some d1 ->
  dfsummary_made d1 = true
  /\ mass d1 = (if update_it o then mass_used o d else mass d)
  /\ raw_rows (dfdata d1) = raw_rows (dfdata d)
  /\ start_datetime d1 = start_datetime d
  /\ merged d1 = merged d
  /\ no_cycles d1 = no_cycles d
  /\ (step_table_made d = true ->
      dfdata d1 = dfdata d /\ step_table d1 = step_table d /\ step_table_made d1 = true).
Proof.
  intros H. apply make_summary_inv in H.
  destruct H as (test & p & test' & df & H0 & _ & Hf & ->).
  apply summary_frame_same_data in Hf.
  pose proof (same_data_trans _ _ _ H0 Hf) as (R & M & S & _ & _ & E & N & T).
  cbn [with_summary dfsummary_made mass dfdata start_datetime merged no_cycles
       step_table step_table_made].
  split; [reflexivity|].
  split.
  { rewrite M. unfold mass_used.
    destruct (given_mass o) as [m|]; destruct (update_it o); reflexivity. }
  split.
  { rewrite R. destruct (given_mass o) as [m|]; [destruct (update_it o)|]; reflexivity. }
  split.
  { rewrite S. destruct (given_mass o) as [m|]; [destruct (update_it o)|]; reflexivity. }
  split.
  { rewrite E. destruct (given_mass o) as [m|]; [destruct (update_it o)|]; reflexivity. }
  split.
  { rewrite N. destruct (given_mass o) as [m|]; [destruct (update_it o)|]; reflexivity. }
  intros Hmade.
  assert (Hd : test' = match given_mass o with
                       | Some m => if update_it o then with_mass d m else d
                       | None => d
                       end).
  { apply T. destruct (given_mass o) as [m|]; [destruct (update_it o)|]; exact Hmade. }
  rewrite Hd. destruct (given_mass o) as [m|]; [destruct (update_it o)|];
    repeat split; exact Hmade.
Qed.

Lemma make_summary_state_witness : exists d1,
  _make_summary default_self with_end_voltage (loaded cv_discharge_step [2]) = Some d1
  /\ dfsummary_made d1 = true
  /\ raw_rows (dfdata d1) = cv_discharge_step.
Proof.
  assert (H : _make_summary default_self with_end_voltage (loaded cv_discharge_step [2])
              = Some (match _make_summary default_self with_end_voltage
                              (loaded cv_discharge_step [2]) with
                      | Some x => x
                      | None => loaded cv_discharge_step [2]
                      end)) by (vm_compute; reflexivity).
  eexists. split; [exact H|].
  destruct (make_summary_state _ _ _ _ H) as (H1 & _ & H2 & _).
  split; [exact H1|exact H2].
Defined.

(** *** The columns of the summary *)

Lemma set_col_first_column (name : string) (col_names : list string) (df : frame)
    (col : list cell) :
  column name df = Some col -> column name (set_col_first df col_names) = Some col.
Proof.
  intros H. unfold set_col_first.
  apply column_reindex; [exact H|]. apply move_first_In. eapply column_In, H.
Qed.

Lemma column_app (name : string) (df extra : frame) (col : list cell) :
  column name df = Some col -> column name (df ++ extra) = Some col.
Proof.
  induction df as [|[h c] df IH]; simpl; [discriminate|].
  destruct (String.eqb h name); [tauto|exact IH].
Qed.

Lemma frame_of_raw_plain (t : raw_table) (name : string) (col : list cell) :
  column name (frame_of_raw (Plain (raw_rows t))) = Some col ->
  column name (frame_of_raw t) = Some col.
Proof.
  destruct t as [rows|rows]; [tauto|].
  unfold frame_of_raw. cbn [raw_rows]. rewrite app_nil_r. apply column_app.
Qed.

Lemma summary_requirment_same_data (o : summary_options) (d d' : dataset) :
  same_data d d' -> summary_requirment o d' = summary_requirment o d.
Proof.
  intros (R & _ & _ & F & _). unfold summary_requirment, _select_last.
  rewrite R, F. reflexivity.
Qed.

Lemma summary_requirment_mass (o : summary_options) (d : dataset) :
  summary_requirment o (match given_mass o with
                        | Some m => if update_it o then with_mass d m else d
                        | None => d
                        end)
  = summary_requirment o d.
Proof. destruct (given_mass o) as [m|]; [destruct (update_it o)|]; reflexivity. Qed.

(** X17.  The summary holds the raw columns of the rows it is made of.  The
    rows are those of the raw table that the requirement selects, in
    their order: with [use_arbin_stat_file] the rows whose data point is
    in the column of data points of the summary the dataset has before
    the call, and else the rows that [_select_last] marks.  Every raw
    column of these rows is a column of the summary, cell for cell; with
    [select_columns] this holds for the columns of the list kept. *)
Theorem summary_holds_selected_rows (self : arbindata) (o : summary_options)
    (d d1 : dataset) (name : string) (col : list cell) :
  _make_summary self o d = Some d1 ->
  select_columns o = false \/ string_in name columns_to_keep = true ->
  exists p,
    summary_requirment o d = Some p
    /\ (column name (frame_of_raw (Plain (List.filter p (raw_rows (dfdata d))))) = Some col ->
        column name (dfsummary d1) = Some col).
Proof.
  intros H Hname. apply make_summary_inv in H.
  destruct H as (test & p & test' & df & H0 & Hp & Hf & ->).
  rewrite (summary_requirment_same_data _ _ _ H0), summary_requirment_mass in Hp.
  exists p. split; [exact Hp|]. intros Hcol.
  cbn [with_summary dfsummary].
  assert (Hne : String.eqb summary_txt_datetime_txt name = false).
  { destruct (String.eqb summary_txt_datetime_txt name) eqn:E; [|reflexivity].
    apply String.eqb_eq in E. subst name. discriminate Hcol. }
  assert (Hrows : raw_rows (select_rows p (dfdata test))
                  = List.filter p (raw_rows (dfdata d))).
  { rewrite raw_rows_select_rows. destruct H0 as (-> & _).
    destruct (given_mass o) as [m|]; [destruct (update_it o)|]; reflexivity. }
  rewrite <- Hrows in Hcol. apply frame_of_raw_plain in Hcol.
  apply summary_frame_columns in Hf. destruct Hf as (pre & -> & Hkept & _).
  assert (Hpre : column name pre = Some col).
  { apply Hkept; [exact Hne|]. unfold summary_base.
    destruct (select_columns o) eqn:Es; [|exact Hcol].
    destruct Hname as [Hname|Hname]; [discriminate|].
    apply select_columns_keeps; assumption. }
  unfold summary_sorted.
  destruct (sort_my_columns o); [apply set_col_first_column|]; exact Hpre.
Qed.

Lemma summary_holds_selected_rows_witness : exists d1 p,
  _make_summary default_self with_end_voltage (loaded cv_discharge_step [2]) = Some d1
  /\ summary_requirment with_end_voltage (loaded cv_discharge_step [2]) = Some p
  /\ column voltage_txt (dfsummary d1) = Some [CQ 3].
Proof.
  assert (H : _make_summary default_self with_end_voltage (loaded cv_discharge_step [2])
              = Some (match _make_summary default_self with_end_voltage
                              (loaded cv_discharge_step [2]) with
                      | Some x => x
                      | None => loaded cv_discharge_step [2]
                      end)) by (vm_compute; reflexivity).
  destruct (summary_holds_selected_rows _ _ _ _ voltage_txt [CQ 3] H (or_introl eq_refl))
    as (p & Hp & Hcol).
  eexists. exists p. split; [exact H|]. split; [exact Hp|].
  apply Hcol. injection Hp as <-. reflexivity.
Defined.

Lemma move_first_prefix (col_names front l : list string) :
  NoDup col_names ->
  (forall n, In n col_names -> In n l /\ ~ In n front) ->
  exists rest, move_first col_names (front ++ l) = rev col_names ++ front ++ rest.
Proof.
  revert front l. induction col_names as [|c ns IH]; intros front l Hnd Hin.
  - exists l. reflexivity.
  - apply NoDup_cons_iff in Hnd. destruct Hnd as [Hc Hnd].
    destruct (Hin c (or_introl eq_refl)) as [Hcl Hcf].
    cbn [move_first].
    rewrite (proj2 (string_in_In c (front ++ l))) by (apply in_or_app; right; exact Hcl).
    assert (Hrm : remove_first c (front ++ l) = front ++ remove_first c l).
    { clear -Hcf. induction front as [|h front IHf]; simpl; [reflexivity|].
      destruct (String.eqb h c) eqn:E.
      - apply String.eqb_eq in E. subst h. exfalso. apply Hcf. left. reflexivity.
      - rewrite IHf; [reflexivity|]. intros H. apply Hcf. right. exact H. }
    rewrite Hrm.
    destruct (IH (c :: front) (remove_first c l) Hnd) as [rest Hrest].
    { intros n Hn. destruct (Hin n (or_intror Hn)) as [Hnl Hnf].
      assert (Hne : n <> c) by (intros ->; exact (Hc Hn)).
      split; [apply remove_first_In; assumption|].
      intros [H|H]; [congruence|exact (Hnf H)]. }
    exists rest. cbn [app] in Hrest. rewrite Hrest.
    cbn [rev]. rewrite <- app_assoc. reflexivity.
Qed.

Lemma frame_of_raw_leading (t : raw_table) :
  exists c1 c2 c3 c4,
    column cycle_index_txt (frame_of_raw t) = Some c1
    /\ column data_point_txt (frame_of_raw t) = Some c2
    /\ column test_time_txt (frame_of_raw t) = Some c3
    /\ column datetime_txt (frame_of_raw t) = Some c4.
Proof. destruct t; do 4 eexists; repeat split; reflexivity. Qed.

(** X18.  With [sort_my_columns] the summary starts with the columns
    [Cycle_Index], [Data_Point], [Test_Time] and the date, in this order;
    the date is [date_time_txt] with [convert_date] and [DateTime]
    without. *)
Theorem summary_leading_columns (self : arbindata) (o : summary_options)
    (d d1 : dataset) :
  _make_summary self o d = Some d1 ->
  sort_my_columns o = true ->
  exists rest,
    columns (dfsummary d1)
    = cycle_index_txt :: data_point_txt :: test_time_txt
      :: (if convert_date o then summary_txt_datetime_txt else datetime_txt) :: rest.
Proof.
  intros H Hsort. apply make_summary_inv in H.
  destruct H as (test & p & test' & df & _ & _ & Hf & ->).
  cbn [with_summary dfsummary].
  apply summary_frame_columns in Hf. destruct Hf as (pre & -> & Hkept & Hrest).
  unfold summary_sorted. rewrite Hsort. unfold set_col_first. rewrite reindex_columns.
  destruct (frame_of_raw_leading (select_rows p (dfdata test)))
    as (c1 & c2 & c3 & c4 & H1 & H2 & H3 & H4).
  assert (Hbase : forall name col, string_in name columns_to_keep = true ->
            String.eqb summary_txt_datetime_txt name = false ->
            column name (frame_of_raw (select_rows p (dfdata test))) = Some col ->
            In name (columns pre)).
  { intros name col Hk Hne Hc. apply (column_In name pre col), Hkept; [exact Hne|].
    unfold summary_base.
    destruct (select_columns o); [|exact Hc]. apply select_columns_keeps; assumption. }
  assert (Hdate : In (if convert_date o then summary_txt_datetime_txt else datetime_txt)
                    (columns pre)).
  { destruct (convert_date o) eqn:Ec.
    - destruct (Hrest eq_refl) as (newstamps & _ & Hd). eapply column_In, Hd.
    - apply (Hbase datetime_txt c4 eq_refl eq_refl H4). }
  destruct (move_first_prefix
              [ (if convert_date o then summary_txt_datetime_txt else datetime_txt);
                test_time_txt; data_point_txt; cycle_index_txt ] [] (columns pre))
    as [rest Hmove].
  - destruct (convert_date o);
      repeat (constructor; [simpl; intuition discriminate|]); constructor.
  - intros n [<-|[<-|[<-|[<-|[]]]]]; (split; [|intros []]).
    + exact Hdate.
    + apply (Hbase test_time_txt c3 eq_refl eq_refl H3).
    + apply (Hbase data_point_txt c2 eq_refl eq_refl H2).
    + apply (Hbase cycle_index_txt c1 eq_refl eq_refl H1).
  - exists rest. cbn [app] in Hmove. rewrite Hmove. reflexivity.
Qed.

Lemma summary_leading_columns_witness : exists d1 rest,
  _make_summary default_self with_end_voltage (loaded cv_discharge_step [2]) = Some d1
  /\ columns (dfsummary d1)
     = cycle_index_txt :: data_point_txt :: test_time_txt :: summary_txt_datetime_txt :: rest.
Proof.
  assert (H : _make_summary default_self with_end_voltage (loaded cv_discharge_step [2])
              = Some (match _make_summary default_self with_end_voltage
                              (loaded cv_discharge_step [2]) with
                      | Some x => x
                      | None => loaded cv_discharge_step [2]
                      end)) by (vm_compute; reflexivity).
  destruct (summary_leading_columns _ _ _ _ H eq_refl) as [rest Hrest].
  eexists. exists rest. split; [exact H|exact Hrest].
Defined.

(** *** The capacity losses *)




(** ** [_append], continued *)

(** The steps of [_append], one by one. *)
Lemma append_inv (t1 t2 test t2' : dataset) (merge_summary merge_step_table : bool) :
  _append t1 t2 merge_summary merge_step_table = Some (test, t2') ->
  exists start_1 start_2 seconds last_data_point last_cycle,
    start_datetime t1 = Some start_1
    /\ start_datetime t2 = Some start_2
    /\ diff_time start_1 start_2 = Some seconds
    /\ max_Z (map Data_Point (raw_rows (dfdata t1))) = Some last_data_point
    /\ max_Z (map Cycle_Index (raw_rows (dfdata t1))) = Some last_cycle
    /\ dfdata t2' = map_raw (rebase last_data_point last_cycle seconds) (dfdata t2)
    /\ dfdata test = concat_raw (dfdata t1) (dfdata t2')
    /\ max_Z (map Cycle_Index (raw_rows (dfdata test))) = Some (no_cycles test)
    /\ merged test = true
    /\ (if merge_summary
        then exists last_cycle',
               merge_dfsummary (dfsummary t1) (dfsummary t2)
                 seconds (CInt last_data_point) (CInt last_cycle)
               = Some (dfsummary test, dfsummary t2', last_cycle')
        else dfsummary test = dfsummary t1 /\ dfsummary t2' = dfsummary t2).
Proof.
  unfold _append. intros H.
  destruct (start_datetime t1) as [start_1|]; [|discriminate].
  destruct (start_datetime t2) as [start_2|]; [|discriminate].
  cbn [mbind option_bind] in H.
  destruct (diff_time start_1 start_2) as [seconds|] eqn:Ed; [|discriminate].
  cbn [mbind option_bind] in H.
  destruct (max_Z (map Data_Point _)) as [ldp|]; [|discriminate].
  cbn [mbind option_bind] in H.
  destruct (max_Z (map Cycle_Index _)) as [lc|]; [|discriminate].
  cbn [mbind option_bind] in H.
  match type of H with
  | context [if merge_summary then ?a else ?b] =>
      destruct (if merge_summary then a else b) as [[[s1 s2] lc']|] eqn:Es; [|discriminate]
  end.
  cbn [mbind option_bind] in H.
  match type of H with
  | context [if ?c then ?a else ?b] =>
      destruct (if c then a else b) as [[st1 st2]|]; [|discriminate]
  end.
  cbn [mbind option_bind] in H.
  destruct (max_Z (map Cycle_Index _)) as [nc|] eqn:Enc; [|discriminate].
  cbn [mbind option_bind] in H. injection H as <- <-.
  exists start_1, start_2, seconds, ldp, lc. cbn.
  do 2 (split; [reflexivity|]). split; [exact Ed|].
  do 4 (split; [reflexivity|]). split; [exact Enc|]. split; [reflexivity|].
  destruct merge_summary.
  - exists lc'. exact Es.
  - injection Es as <- <- _. split; reflexivity.
Qed.

Lemma StronglySorted_app {A : Type} (R : A -> A -> Prop) (l1 l2 : list A) :
  StronglySorted R l1 -> StronglySorted R l2 ->
  (forall x y, In x l1 -> In y l2 -> R x y) ->
  StronglySorted R (l1 ++ l2).
Proof.
  intros H1 H2 H. induction H1 as [|x l1 Hs IH Hx]; simpl; [exact H2|].
  constructor.
  - apply IH. intros a b Ha Hb. apply H; [right; exact Ha|exact Hb].
  - apply Forall_app. split; [exact Hx|].
    apply Forall_forall. intros y Hy. apply H; [left; reflexivity|exact Hy].
Qed.

Lemma rebase_fits (last_data_point last_cycle : Z) (seconds : Q) (rows : list raw_row) :
  (forall r, In r rows -> fits64 (Data_Point r + last_data_point)) ->
  map Data_Point (map (rebase last_data_point last_cycle seconds) rows)
  = map (fun r => Data_Point r + last_data_point) rows.
Proof.
  intros H. rewrite map_map. apply map_ext_in. intros r Hr.
  cbn [rebase Data_Point]. apply wrap64_fits, H, Hr.
Qed.

Lemma rebase_cycles_fit (last_data_point last_cycle : Z) (seconds : Q) (rows : list raw_row) :
  (forall r, In r rows -> fits64 (Cycle_Index r + last_cycle)) ->
  map Cycle_Index (map (rebase last_data_point last_cycle seconds) rows)
  = map (fun r => Cycle_Index r + last_cycle) rows.
Proof.
  intros H. rewrite map_map. apply map_ext_in. intros r Hr.
  cbn [rebase Cycle_Index]. apply wrap64_fits, H, Hr.
Qed.

Lemma StronglySorted_shift (k : Z) (l : list Z) :
  StronglySorted Z.lt l -> StronglySorted Z.lt (map (fun x => x + k) l).
Proof.
  intros H. induction H as [|x l Hs IH Hx]; simpl; constructor; [exact IH|].
  apply Forall_forall. intros y Hy. apply in_map_iff in Hy.
  destruct Hy as (z & <- & Hz). rewrite Forall_forall in Hx. specialize (Hx z Hz). lia.
Qed.

(** X20.  [_append] keeps the data points in order.  When the data points
    of each of the two raw tables increase from row to row, those of the
    second are positive, and none of them, raised by the largest data
    point of the first table, leaves the 64-bit integers, the data
    points of the merged raw table increase from row to row: no two rows
    of the merged table share a data point. *)
Theorem append_data_points_increasing (t1 t2 test t2' : dataset)
    (merge_summary merge_step_table : bool) (last_data_point : Z) :
  _append t1 t2 merge_summary merge_step_table = Some (test, t2') ->
  max_Z (map Data_Point (raw_rows (dfdata t1))) = Some last_data_point ->
  StronglySorted Z.lt (map Data_Point (raw_rows (dfdata t1))) ->
  StronglySorted Z.lt (map Data_Point (raw_rows (dfdata t2))) ->
  (forall r, In r (raw_rows (dfdata t2)) -> 0 < Data_Point r) ->
  (forall r, In r (raw_rows (dfdata t2)) -> fits64 (Data_Point r + last_data_point)) ->
  StronglySorted Z.lt (map Data_Point (raw_rows (dfdata test))).
Proof.
  intros H Hldp S1 S2 Hpos Hfits. apply append_inv in H.
  destruct H as (s1 & s2 & secs & ldp & lc & _ & _ & _ & Hldp' & _ & Ht2 & Ht & _).
  rewrite Hldp in Hldp'. injection Hldp' as <-.
  rewrite Ht, Ht2, raw_rows_concat_raw, raw_rows_map_raw, map_app.
  rewrite (rebase_fits _ _ _ _ Hfits).
  rewrite <- (map_map Data_Point (fun x => x + last_data_point)).
  apply max_Z_inv in Hldp. destruct Hldp as [_ Hmax].
  apply StronglySorted_app.
  - exact S1.
  - apply StronglySorted_shift, S2.
  - intros x y Hx Hy. apply in_map_iff in Hy. destruct Hy as (z & <- & Hz).
    apply in_map_iff in Hz. destruct Hz as (r & <- & Hr).
    specialize (Hmax x Hx). specialize (Hpos r Hr). lia.
Qed.

Lemma append_data_points_increasing_witness : exists test t2',
  _append first_run second_run true true = Some (test, t2')
  /\ StronglySorted Z.lt (map Data_Point (raw_rows (dfdata test))).
Proof.
  assert (H : _append first_run second_run true true
              = Some (match _append first_run second_run true true with
                      | Some x => x
                      | None => (first_run, second_run)
                      end)) by (vm_compute; reflexivity).
  eexists. eexists. split; [exact H|].
  apply (append_data_points_increasing _ _ _ _ _ _ 100 H).
  - reflexivity.
  - simpl. repeat constructor.
  - simpl. repeat constructor.
  - simpl. intros r [<-|[<-|[]]]; reflexivity.
  - simpl. intros r [<-|[<-|[]]]; unfold fits64; simpl; lia.
Defined.

Lemma append_last_cycle (t1 t2 test t2' : dataset)
    (merge_summary merge_step_table : bool) (last_cycle_1 : Z) :
  _append t1 t2 merge_summary merge_step_table = Some (test, t2') ->
  max_Z (map Cycle_Index (raw_rows (dfdata t1))) = Some last_cycle_1 ->
  raw_rows (dfdata t2) <> [] ->
  (forall r, In r (raw_rows (dfdata t2)) -> 0 <= Cycle_Index r) ->
  (forall r, In r (raw_rows (dfdata t2)) -> fits64 (Cycle_Index r + last_cycle_1)) ->
  exists last_cycle_2,
    max_Z (map Cycle_Index (raw_rows (dfdata t2))) = Some last_cycle_2
    /\ no_cycles test = last_cycle_1 + last_cycle_2
    /\ merged test = true
    /\ map Cycle_Index (raw_rows (dfdata t2'))
       = map (fun r => Cycle_Index r + last_cycle_1) (raw_rows (dfdata t2)).
Proof.
  intros H Hlc Hrows Hpos Hfits. apply append_inv in H.
  destruct H as (s1 & s2 & secs & ldp & lc & _ & _ & _ & _ & Hlc' & Ht2 & Ht & Hnc & Hm & _).
  rewrite Hlc in Hlc'. injection Hlc' as <-.
  destruct (max_Z_spec (map Cycle_Index (raw_rows (dfdata t2)))) as (lc2 & Hlc2 & Hin2 & Hmax2).
  { destruct (raw_rows (dfdata t2)); [congruence|discriminate]. }
  exists lc2. split; [exact Hlc2|].
  assert (Hcycles : map Cycle_Index (raw_rows (dfdata t2'))
                    = map (fun r => Cycle_Index r + last_cycle_1) (raw_rows (dfdata t2))).
  { rewrite Ht2, raw_rows_map_raw. apply rebase_cycles_fit, Hfits. }
  split; [|split; [exact Hm|exact Hcycles]].
  apply max_Z_inv in Hlc. destruct Hlc as [Hin1 Hmax1].
  assert (Hnc' : max_Z (map Cycle_Index (raw_rows (dfdata test)))
                 = Some (last_cycle_1 + lc2)).
  { rewrite Ht, raw_rows_concat_raw, map_app, Hcycles. apply max_Z_intro.
    - apply in_or_app. right. apply in_map_iff in Hin2. destruct Hin2 as (r & Hr & Hin2).
      apply in_map_iff. exists r. split; [lia|exact Hin2].
    - intros y Hy. apply in_app_or in Hy. destruct Hy as [Hy|Hy].
      + specialize (Hmax1 y Hy). apply in_map_iff in Hin2.
        destruct Hin2 as (r & Hr & Hin2). specialize (Hpos r Hin2). lia.
      + apply in_map_iff in Hy. destruct Hy as (r & <- & Hr).
        specialize (Hmax2 (Cycle_Index r) (in_map _ _ _ Hr)). lia. }
  congruence.
Qed.

(** X21.  The cycles of the merged dataset.  [_append] sets [merged] and
    sets [no_cycles] to the largest cycle index of the merged raw table;
    when the second raw table has rows, none of its cycle indices is
    negative and none of them, raised by the largest cycle index of the
    first table, leaves the 64-bit integers, this is the largest cycle
    index of the first plus the largest of the second, and every row of
    the second is left, in the second dataset itself, with a cycle index
    above the cycles of the first by its own. *)
Theorem append_no_cycles (t1 t2 test t2' : dataset)
    (merge_summary merge_step_table : bool) (last_cycle_1 : Z) :
  _append t1 t2 merge_summary merge_step_table = Some (test, t2') ->
  max_Z (map Cycle_Index (raw_rows (dfdata t1))) = Some last_cycle_1 ->
  raw_rows (dfdata t2) <> [] ->
  (forall r, In r (raw_rows (dfdata t2)) -> 0 <= Cycle_Index r) ->
  (forall r, In r (raw_rows (dfdata t2)) -> fits64 (Cycle_Index r + last_cycle_1)) ->
  exists last_cycle_2,
    max_Z (map Cycle_Index (raw_rows (dfdata t2))) = Some last_cycle_2
    /\ no_cycles test = last_cycle_1 + last_cycle_2
    /\ merged test = true
    /\ map Cycle_Index (raw_rows (dfdata t2'))
       = map (fun r => Cycle_Index r + last_cycle_1) (raw_rows (dfdata t2)).
Proof. apply append_last_cycle. Qed.

Lemma append_no_cycles_witness : exists test t2',
  _append first_run second_run true true = Some (test, t2')
  /\ no_cycles test = 5 + 1.
Proof.
  assert (H : _append first_run second_run true true
              = Some (match _append first_run second_run true true with
                      | Some x => x
                      | None => (first_run, second_run)
                      end)) by (vm_compute; reflexivity).
  eexists. eexists. split; [exact H|].
  destruct (append_no_cycles _ _ _ _ _ _ 5 H) as (lc2 & H2 & H3 & _).
  - reflexivity.
  - discriminate.
  - simpl. intros r [<-|[<-|[]]]; discriminate.
  - simpl. intros r [<-|[<-|[]]]; unfold fits64; simpl; lia.
  - injection H2 as <-. exact H3.
Defined.

Lemma xldate_as_datetime_is_date (xldate : Q) :
  is_Some (xldate_as_datetime xldate) <-> is_date xldate.
Proof.
  unfold xldate_as_datetime, is_date.
  set (d := round_half_away (xldate * inject_Z us_per_day)).
  destruct ((datetime_min <=? d) && (d <=? datetime_max)) eqn:E.
  - apply andb_true_iff in E. destruct E as [E1 E2].
    apply Z.leb_le in E1, E2. split; [auto|eauto].
  - split; [intros [x Hx]; discriminate|].
    intros [H1 H2]. apply Z.leb_le in H1, H2. rewrite H1, H2 in E. discriminate.
Qed.

Lemma diff_time_is_date (start_1 start_2 : Q) :
  is_Some (diff_time start_1 start_2) <-> is_date start_1 /\ is_date start_2.
Proof.
  rewrite <- !xldate_as_datetime_is_date. unfold diff_time.
  destruct (xldate_as_datetime start_2) as [d2|]; cbn [mbind option_bind].
  - destruct (xldate_as_datetime start_1) as [d1|]; cbn [mbind option_bind].
    + split; eauto.
    + split; [intros [x Hx]; discriminate|]. intros [[x Hx] _]. discriminate.
  - split; [intros [x Hx]; discriminate|]. intros [_ [x Hx]]. discriminate.
Qed.

(** X22.  When [_append] returns.  Without the merge of the summaries, it
    returns exactly when both datasets have a start time that is a date
    of the years 1 to 9999, the raw table of the first has a row, and the
    step tables are not both built with their merge asked for; in every
    other case it raises. *)
Theorem append_returns_iff (t1 t2 : dataset) (merge_step_table : bool) :
  is_Some (_append t1 t2 false merge_step_table)
  <-> (exists start_1, start_datetime t1 = Some start_1 /\ is_date start_1)
      /\ (exists start_2, start_datetime t2 = Some start_2 /\ is_date start_2)
      /\ raw_rows (dfdata t1) <> []
      /\ merge_step_table && (step_table_made t1 && step_table_made t2) = false.
Proof.
  split.
  - intros [[test t2'] H].
    destruct (merge_step_table && (step_table_made t1 && step_table_made t2)) eqn:Eb.
    { apply andb_true_iff in Eb. destruct Eb as [-> Eb].
      apply andb_true_iff in Eb. destruct Eb as [E1 E2].
      rewrite (append_built_step_tables t1 t2 false E1 E2) in H. discriminate. }
    apply append_inv in H.
    destruct H as (s1 & s2 & secs & ldp & lc & H1 & H2 & Hd & Hldp & _).
    assert (Hdates : is_date s1 /\ is_date s2).
    { apply diff_time_is_date. rewrite Hd. eauto. }
    split; [exists s1; tauto|]. split; [exists s2; tauto|]. split; [|reflexivity].
    intros E. rewrite E in Hldp. discriminate.
  - intros ((s1 & H1 & D1) & (s2 & H2 & D2) & Hrows & Hsteps).
    destruct (proj2 (diff_time_is_date s1 s2) (conj D1 D2)) as [secs Hd].
    destruct (max_Z_spec (map Data_Point (raw_rows (dfdata t1)))) as (ldp & Hldp & _).
    { destruct (raw_rows (dfdata t1)); [congruence|discriminate]. }
    destruct (max_Z_spec (map Cycle_Index (raw_rows (dfdata t1)))) as (lc & Hlc & _).
    { destruct (raw_rows (dfdata t1)); [congruence|discriminate]. }
    destruct (max_Z_spec (map Cycle_Index (raw_rows (concat_raw (dfdata t1)
                (map_raw (rebase ldp lc secs) (dfdata t2))))))
      as (nc & Hnc & _).
    { rewrite raw_rows_concat_raw. destruct (raw_rows (dfdata t1)); [congruence|discriminate]. }
    unfold _append. rewrite H1, H2. cbn [mbind option_bind]. rewrite Hd.
    cbn [mbind option_bind]. rewrite Hldp, Hlc.
    cbn [mbind option_bind]. rewrite Hsteps. cbn [mbind option_bind]. rewrite Hnc.
    cbn [mbind option_bind]. eauto.
Qed.

Lemma column_plus_points (pts : list Z) (k : Z) :
  column_plus (map CInt pts) (CInt k)
  = Some (map CInt (map (fun p => wrap64 (p + k)) pts)).
Proof.
  induction pts as [|p pts IH]; [reflexivity|].
  cbn [map column_plus cell_plus mbind option_bind]. rewrite IH. reflexivity.
Qed.

Lemma column_concat_frames (name : string) (a b : frame) (col : list cell) :
  column name a = Some col ->
  column name (concat_frames a b)
  = Some (col ++ match column name b with
                 | Some col' => col'
                 | None => repeat (CNum NaN) (nrows b)
                 end).
Proof.
  unfold concat_frames. intros H. apply column_app.
  induction a as [|[h c] a IH]; [discriminate|].
  cbn [map column fst snd] in *. destruct (String.eqb h name) eqn:E.
  - apply String.eqb_eq in E. subst h. injection H as ->. reflexivity.
  - apply IH, H.
Qed.

(** X23.  The data points of a merged summary.  When the summaries are
    those of the instrument (one of them has no column [Cycle_Index]),
    the data points of the second are raised by the largest data point
    of the first raw table, as the rows of the second raw table are
    (the sum being that of the 64-bit integers, which wraps around), and
    follow those of the first.  When both summaries have a column
    [Cycle_Index], the data points of the second follow those of the
    first as they are: they are not raised, though the rows they stood
    for are. *)
Theorem append_summary_points (t1 t2 test t2' : dataset) (merge_step_table : bool)
    (pts1 pts2 : list Z) :
  _append t1 t2 true merge_step_table = Some (test, t2') ->
  column data_point_txt (dfsummary t1) = Some (map CInt pts1) ->
  column data_point_txt (dfsummary t2) = Some (map CInt pts2) ->
  exists last_data_point,
    max_Z (map Data_Point (raw_rows (dfdata t1))) = Some last_data_point
    /\ column data_point_txt (dfsummary test)
       = Some (map CInt
                 (pts1 ++ match column cycle_index_txt (dfsummary t1),
                                column cycle_index_txt (dfsummary t2) with
                          | Some _, Some _ => pts2
                          | _, _ => map (fun p => wrap64 (p + last_data_point)) pts2
                          end)).
Proof.
  intros H Hp1 Hp2. apply append_inv in H.
  destruct H as (s1 & s2 & secs & ldp & lc & _ & _ & _ & Hldp & _ & _ & _ & _ & _ & lc' & Hs).
  exists ldp. split; [exact Hldp|].
  unfold merge_dfsummary in Hs.
  destruct (column cycle_index_txt (dfsummary t1)) as [cycles_1|] eqn:E1;
    [destruct (column cycle_index_txt (dfsummary t2)) as [cycles_2|] eqn:E2|].
  - cbn [mbind option_bind] in Hs.
    destruct (max_cell cycles_1) as [last|]; [|discriminate]. cbn [mbind option_bind] in Hs.
    destruct (column_plus cycles_2 last) as [cycles_2'|]; [|discriminate].
    cbn [mbind option_bind] in Hs.
    destruct (column test_time_txt _) as [times_2|]; [|discriminate].
    cbn [mbind option_bind] in Hs.
    destruct (column_plus times_2 _) as [times_2'|]; [|discriminate].
    cbn [mbind option_bind] in Hs. injection Hs as <- _ _.
    rewrite (column_concat_frames _ _ _ _ Hp1).
    rewrite !column_set_column by reflexivity. rewrite Hp2, map_app. reflexivity.
  - rewrite Hp2 in Hs. cbn [mbind option_bind] in Hs.
    rewrite column_plus_points in Hs. cbn [mbind option_bind] in Hs.
    injection Hs as <- _ _.
    rewrite (column_concat_frames _ _ _ _ Hp1), column_set_column_same, map_app.
    reflexivity.
  - rewrite Hp2 in Hs. cbn [mbind option_bind] in Hs.
    rewrite column_plus_points in Hs. cbn [mbind option_bind] in Hs.
    injection Hs as <- _ _.
    rewrite (column_concat_frames _ _ _ _ Hp1), column_set_column_same, map_app.
    reflexivity.
Qed.

Lemma append_summary_points_witness : exists test t2',
  _append first_run second_run true true = Some (test, t2')
  /\ column data_point_txt (dfsummary test) = Some [CInt 100; CInt 102].
Proof.
  assert (H : _append first_run second_run true true
              = Some (match _append first_run second_run true true with
                      | Some x => x
                      | None => (first_run, second_run)
                      end)) by (vm_compute; reflexivity).
  eexists. eexists. split; [exact H|].
  destruct (append_summary_points _ _ _ _ _ [100] [2] H eq_refl eq_refl) as (ldp & H1 & H2).
  injection H1 as <-. exact H2.
Defined.

(** ** [_validata_step_table] *)

Lemma np_unique_NoDup (l : list Z) : NoDup (np_unique l).
Proof.
  pose proof (np_unique_sorted l) as H.
  induction H as [|x l' Hs IH Hx]; constructor; [|exact IH].
  intros Hin. rewrite Forall_forall in Hx. specialize (Hx x Hin). lia.
Qed.

Lemma np_unique_length (l : list Z) : length (np_unique l) = length (unique Z.eqb l).
Proof.
  apply Permutation_length, NoDup_Permutation.
  - apply np_unique_NoDup.
  - apply unique_NoDup, Z.eqb_eq.
  - intros x. rewrite np_unique_In, (unique_In Z.eqb Z.eqb_eq). reflexivity.
Qed.

Lemma loop_keys_of_cycle (df : list (raw_row * fl)) (cycles : list Z) (j : Z) :
  NoDup cycles ->
  List.filter (fun p => fst p =? j) (loop_keys df cycles)
  = if existsb (Z.eqb j) cycles
    then map (pair j)
           (unique Z.eqb
              (map (fun r => Step_Index (fst r))
                 (List.filter (fun r => Cycle_Index (fst r) =? j) df)))
    else [].
Proof.
  intros Hnd.
  assert (Hout : forall c (l : list Z), c <> j ->
            List.filter (fun p : Z * Z => fst p =? j) (map (pair c) l) = []).
  { intros c l Hc. induction l as [|s l IHl]; [reflexivity|].
    cbn [map List.filter fst]. rewrite (proj2 (Z.eqb_neq c j) Hc). exact IHl. }
  assert (Hin : forall (l : list Z),
            List.filter (fun p : Z * Z => fst p =? j) (map (pair j) l) = map (pair j) l).
  { intros l. induction l as [|s l IHl]; [reflexivity|].
    cbn [map List.filter fst]. rewrite Z.eqb_refl, IHl. reflexivity. }
  induction Hnd as [|c cycles Hc Hnd IH]; [reflexivity|].
  unfold loop_keys. cbn [flat_map]. fold (loop_keys df cycles).
  rewrite filter_app, IH. cbn [existsb].
  destruct (Z.eqb_spec j c) as [->|Hne].
  - rewrite Hin. cbn [orb].
    destruct (existsb (Z.eqb c) cycles) eqn:E; [|apply app_nil_r].
    exfalso. apply Hc. apply existsb_Zeqb_In, E.
  - rewrite Hout by congruence. reflexivity.
Qed.

Lemma steps_of_cycle_length (rs : list step_row) (j : Z) :
  length (steps_of_cycle (map Some rs) j)
  = length (List.filter (fun p => fst p =? j) (map key rs)).
Proof.
  unfold steps_of_cycle. induction rs as [|r rs IH]; [reflexivity|].
  cbn [map List.filter key fst]. destruct (cycle r =? j); simpl; rewrite IH; reflexivity.
Qed.

Lemma keys_classified (rs : list step_row) : map key (map classified rs) = map key rs.
Proof. rewrite map_map. apply map_ext, classified_key. Qed.

Lemma step_table_cycles_filled (rs : list step_row) :
  step_table_cycles (map Some rs) = map fst (map key rs).
Proof.
  unfold step_table_cycles. induction rs as [|r rs IH]; [reflexivity|].
  cbn [map flat_map app key fst]. rewrite IH. reflexivity.
Qed.

(** X24.  A step table that [create_step_table] has built passes the
    validation.  For every dataset whose raw table has a row,
    [_validata_step_table] returns [True] on the dataset that
    [create_step_table] returns, in the simple form (the largest cycle of
    the step table is that of the raw table) and in the full form (for
    each cycle number up to the largest, the step table has as many rows
    as the raw table has distinct steps in that cycle). *)
Theorem built_step_table_is_valid (d : dataset) (simple : bool) :
  raw_rows (dfdata d) <> [] ->
  exists d',
    create_step_table d = Some d'
    /\ _validata_step_table d' simple = Some true.
Proof.
  intros Hrows. destruct (create_step_table_spec d) as (rs & Hd & Hkeys).
  eexists. split; [exact Hd|].
  unfold _validata_step_table, amax_column.
  cbn [step_table_made negb dfdata step_table raw_rows].
  set (df := set_ir_change (dfdata d)) in *.
  assert (Hdf : map fst df = raw_rows (dfdata d)) by apply set_ir_change_rows.
  destruct (max_Z_spec (map Cycle_Index (map fst df))) as (m & Hm & Hin & Hmax).
  { rewrite Hdf. destruct (raw_rows (dfdata d)); [congruence|discriminate]. }
  rewrite Hm.
  rewrite step_table_cycles_filled, keys_classified, Hkeys.
  set (cycles := unique Z.eqb (map (fun r => Cycle_Index (fst r)) df)) in *.
  assert (Hcycles : forall c, In c (map fst (loop_keys df cycles))
                              <-> In c (map Cycle_Index (map fst df))).
  { intros c. rewrite in_map_iff. split.
    - intros ([c' s] & <- & Hp). apply loop_keys_all in Hp.
      rewrite map_map in Hp. apply in_map_iff in Hp. destruct Hp as (r & [= <- _] & Hr).
      rewrite map_map. apply in_map_iff. exists r. split; [reflexivity|exact Hr].
    - intros Hc. rewrite map_map in Hc. apply in_map_iff in Hc.
      destruct Hc as (r & <- & Hr).
      exists (Cycle_Index (fst r), Step_Index (fst r)). split; [reflexivity|].
      apply loop_keys_all. rewrite map_map. apply in_map_iff. exists r. split; [reflexivity|exact Hr]. }
  assert (Hm' : max_Z (map fst (loop_keys df cycles)) = Some m).
  { apply max_Z_intro; [apply Hcycles, Hin|]. intros y Hy. apply Hmax, Hcycles, Hy. }
  rewrite Hm'. rewrite Z.eqb_refl. cbn [negb].
  destruct simple; [reflexivity|]. f_equal.
  apply forallb_forall. intros j _. apply Nat.eqb_eq.
  rewrite steps_of_cycle_length, keys_classified, Hkeys.
  rewrite loop_keys_of_cycle by (apply unique_NoDup, Z.eqb_eq).
  rewrite np_unique_length.
  assert (Hfilter : map Step_Index (List.filter (fun r => Cycle_Index r =? j) (map fst df))
                    = map (fun r => Step_Index (fst r))
                        (List.filter (fun r => Cycle_Index (fst r) =? j) df)).
  { clear. induction df as [|r df IH]; [reflexivity|].
    cbn [map List.filter]. destruct (Cycle_Index (fst r) =? j); simpl; rewrite IH; reflexivity. }
  rewrite Hfilter.
  destruct (existsb (Z.eqb j) cycles) eqn:E; [rewrite length_map; reflexivity|].
  assert (Hnone : List.filter (fun r => Cycle_Index (fst r) =? j) df = []).
  { destruct (List.filter (fun r => Cycle_Index (fst r) =? j) df) as [|r l] eqn:Ef;
      [reflexivity|].
    exfalso. assert (Hr : In r (List.filter (fun r => Cycle_Index (fst r) =? j) df))
      by (rewrite Ef; left; reflexivity).
    apply filter_In in Hr. destruct Hr as [Hr Hj]. apply Z.eqb_eq in Hj.
    assert (Hc : In j cycles).
    { apply (unique_In Z.eqb Z.eqb_eq). apply in_map_iff. exists r. split; assumption. }
    apply existsb_Zeqb_In in Hc. congruence. }
  rewrite Hnone. reflexivity.
Qed.

Lemma built_step_table_is_valid_witness : exists d',
  create_step_table (loaded cv_discharge_step [2]) = Some d'
  /\ _validata_step_table d' false = Some true.
Proof.
  apply (built_step_table_is_valid (loaded cv_discharge_step [2]) false). discriminate.
Defined.

Lemma max_Z_ext (l1 l2 : list Z) :
  (forall x, In x l1 <-> In x l2) -> max_Z l1 = max_Z l2.
Proof.
  intros H. destruct l1 as [|a l1].
  - destruct l2 as [|b l2]; [reflexivity|].
    exfalso. apply (H b). left. reflexivity.
  - destruct (max_Z_spec (a :: l1)) as (m & Hm & Hin & Hmax); [discriminate|].
    rewrite Hm. symmetry. apply max_Z_intro; [apply H, Hin|].
    intros y Hy. apply Hmax, H, Hy.
Qed.

Lemma built_step_table_cycles (d d' : dataset) :
  create_step_table d = Some d' ->
  max_Z (step_table_cycles (step_table d')) = max_Z (map Cycle_Index (raw_rows (dfdata d))).
Proof.
  intros H. destruct (create_step_table_spec d) as (rs & Hd & Hkeys).
  rewrite Hd in H. injection H as <-. cbn [step_table].
  rewrite step_table_cycles_filled, keys_classified, Hkeys.
  apply max_Z_ext. intros c. rewrite <- set_ir_change_rows, in_map_iff. split.
  - intros ([c' s] & <- & Hp). apply loop_keys_all in Hp.
    rewrite map_map in Hp. apply in_map_iff in Hp. destruct Hp as (r & [= <- _] & Hr).
    rewrite map_map. apply in_map_iff. exists r. split; [reflexivity|exact Hr].
  - intros Hc. rewrite map_map in Hc. apply in_map_iff in Hc.
    destruct Hc as (r & <- & Hr).
    exists (Cycle_Index (fst r), Step_Index (fst r)). split; [reflexivity|].
    apply loop_keys_all. rewrite map_map. apply in_map_iff. exists r. split; [reflexivity|exact Hr].
Qed.

Lemma append_step_table (t1 t2 test t2' : dataset) (merge_summary merge_step_table : bool) :
  _append t1 t2 merge_summary merge_step_table = Some (test, t2') ->
  step_table test = step_table t1.
Proof.
  unfold _append. intros H.
  destruct (start_datetime t1) as [start_1|]; [|discriminate].
  destruct (start_datetime t2) as [start_2|]; [|discriminate].
  cbn [mbind option_bind] in H.
  destruct (diff_time start_1 start_2) as [seconds|]; [|discriminate].
  cbn [mbind option_bind] in H.
  destruct (max_Z (map Data_Point _)) as [ldp|]; [|discriminate].
  cbn [mbind option_bind] in H.
  destruct (max_Z (map Cycle_Index _)) as [lc|]; [|discriminate].
  cbn [mbind option_bind] in H.
  match type of H with
  | context [if merge_summary then ?a else ?b] =>
      destruct (if merge_summary then a else b) as [[[s1 s2] lc']|]; [|discriminate]
  end.
  cbn [mbind option_bind] in H.
  rewrite raw_frame_has_no_cycle_column in H.
  destruct (merge_step_table && (step_table_made t1 && step_table_made t2));
    [discriminate|].
  cbn [mbind option_bind] in H.
  destruct (max_Z (map Cycle_Index _)) as [nc|]; [|discriminate].
  cbn [mbind option_bind] in H. injection H as <- _. reflexivity.
Qed.

(** X25.  A merge leaves the step table behind, and the validation tells.
    When the first dataset comes from [create_step_table] and the second
    has rows, all of a positive cycle index that, raised by the largest
    cycle index of the first, stays a 64-bit integer, the dataset that
    [_append] returns keeps [step_table_made] set and the step table of
    the first dataset, which does not cover the cycles of the second: on
    it [_validata_step_table] returns [False], in both its forms. *)
Theorem merged_step_table_is_stale (t0 t1 t2 test t2' : dataset)
    (merge_summary merge_step_table simple : bool) (last_cycle : Z) :
  create_step_table t0 = Some t1 ->
  _append t1 t2 merge_summary merge_step_table = Some (test, t2') ->
  max_Z (map Cycle_Index (raw_rows (dfdata t1))) = Some last_cycle ->
  raw_rows (dfdata t2) <> [] ->
  (forall r, In r (raw_rows (dfdata t2)) -> 0 < Cycle_Index r) ->
  (forall r, In r (raw_rows (dfdata t2)) -> fits64 (Cycle_Index r + last_cycle)) ->
  step_table_made test = true
  /\ step_table test = step_table t1
  /\ _validata_step_table test simple = Some false.
Proof.
  intros H0 H H1 Hrows Hpos Hfits.
  assert (Hmade : step_table_made test = true).
  { rewrite (append_keeps_flag _ _ _ _ _ _ H). apply create_step_table_made in H0. apply H0. }
  pose proof (append_step_table _ _ _ _ _ _ H) as Hst.
  split; [exact Hmade|]. split; [exact Hst|].
  destruct (append_last_cycle _ _ _ _ _ _ _ H H1 Hrows) as (lc2 & H2 & Hnc & _);
    [intros r Hr; specialize (Hpos r Hr); lia|exact Hfits|].
  pose proof (append_inv _ _ _ _ _ _ H)
    as (_ & _ & _ & _ & _ & _ & _ & _ & _ & _ & _ & _ & Hmax & _).
  unfold _validata_step_table, amax_column. rewrite Hmade, Hmax, Hst. cbn [negb].
  rewrite (built_step_table_cycles _ _ H0).
  assert (Hraw : raw_rows (dfdata t1) = raw_rows (dfdata t0)).
  { destruct (create_step_table_spec t0) as (rs & Hd & _). rewrite Hd in H0.
    injection H0 as <-. cbn [dfdata raw_rows]. apply set_ir_change_rows. }
  rewrite <- Hraw, H1.
  assert (Hlt : (no_cycles test =? last_cycle) = false).
  { apply Z.eqb_neq. apply max_Z_inv in H2. destruct H2 as [Hin _].
    apply in_map_iff in Hin. destruct Hin as (r & Hr & Hin). specialize (Hpos r Hin). lia. }
  rewrite Hlt. destruct simple; reflexivity.
Qed.

Lemma merged_step_table_is_stale_witness : exists test t2',
  _append (with_step_table first_run) second_run true true = Some (test, t2')
  /\ step_table_made test = true
  /\ _validata_step_table test false = Some false.
Proof.
  assert (H0 : create_step_table first_run = Some (with_step_table first_run))
    by (vm_compute; reflexivity).
  assert (H : _append (with_step_table first_run) second_run true true
              = Some (match _append (with_step_table first_run) second_run true true with
                      | Some x => x
                      | None => (first_run, second_run)
                      end)) by (vm_compute; reflexivity).
  eexists. eexists. split; [exact H|].
  destruct (merged_step_table_is_stale _ _ _ _ _ _ _ false 5 H0 H) as (H1 & _ & H2).
  - reflexivity.
  - discriminate.
  - simpl. intros r [<-|[<-|[]]]; reflexivity.
  - simpl. intros r [<-|[<-|[]]]; unfold fits64; simpl; lia.
  - split; [exact H1|exact H2].
Defined.

(** ** [_examine_step] *)

Lemma fold_Qmin_nonneg (xs : list Q) (x : Q) :
  (0 <= x)%Q -> Forall (fun y => 0 <= y)%Q xs -> (0 <= fold_left Qmin xs x)%Q.
Proof.
  revert x. induction xs as [|y xs IH]; intros x Hx Hall; simpl; [exact Hx|].
  inversion Hall as [|? ? Hy Hxs]; subst. apply IH; [|exact Hxs].
  unfold Qmin. destruct (Qle_bool x y); assumption.
Qed.

Lemma fold_Qmin_le_fold_Qmax (xs : list Q) (x : Q) :
  (fold_left Qmin xs x <= fold_left Qmax xs x)%Q.
Proof.
  eapply Qle_trans; [apply fold_Qmin_init|apply fold_Qmax_init].
Qed.

(** The change that [_examine_step] computes for a column without
    negative entries is below every positive limit: it is the relative
    change from the largest entry to the smallest. *)
Lemma column_change_non_negative (column : list Q) (limit : Q) :
  Forall (fun y => 0 <= y)%Q column -> (0 < limit)%Q ->
  fl_ge (column_change column) (Fin limit) = false.
Proof.
  intros Hall Hlimit. destruct column as [|x xs]; [reflexivity|].
  inversion Hall as [|? ? Hx Hxs]; subst.
  unfold column_change, amin, amax.
  pose proof (fold_Qmin_nonneg xs x Hx Hxs) as Hmin.
  pose proof (fold_Qmin_le_fold_Qmax xs x) as Hle.
  set (step_min := fold_left Qmin xs x) in *.
  set (step_max := fold_left Qmax xs x) in *.
  assert (Hbelow : forall q, (q <= 0)%Q -> fl_ge (Fin q) (Fin limit) = false).
  { intros q Hq. unfold fl_ge, fl_gt, fl_lt, fl_eqb. apply orb_false_iff. split.
    - apply Qlt_bool_false. apply Qlt_le_weak. eapply Qle_lt_trans; eassumption.
    - destruct (Qeq_bool q limit) eqn:E; [|reflexivity].
      apply Qeq_bool_iff in E. rewrite E in Hq.
      exfalso. apply (Qlt_not_le _ _ Hlimit Hq). }
  assert (Hdiff : (step_min - step_max <= 0)%Q).
  { apply (Qplus_le_l _ _ step_max). ring_simplify. exact Hle. }
  unfold _percentage_change. destruct (Qeq_bool step_min 0) eqn:E0.
  - cbn [andb negb]. rewrite andb_false_r. apply Hbelow, Hdiff.
  - apply Qeq_bool_neq in E0.
    assert (Hpos : (0 < step_max)%Q).
    { eapply Qlt_le_trans; [|exact Hle]. apply Qle_lteq in Hmin.
      destruct Hmin as [H|H]; [exact H|]. exfalso. apply E0. symmetry. exact H. }
    unfold fl_div. destruct (Qeq_bool step_max 0) eqn:E1.
    { apply Qeq_bool_iff in E1. rewrite E1 in Hpos. exfalso. apply (Qlt_irrefl _ Hpos). }
    apply Hbelow. apply Qle_shift_div_r; [exact Hpos|]. rewrite Qmult_0_l.
    eapply Qle_trans; [apply Qmult_le_compat_r; [exact Hdiff|discriminate]|].
    apply Qle_bool_iff. reflexivity.
Qed.

(** X26.  On data without negative capacities and voltages, [_examine_step]
    never finds a charge, a discharge, a relaxation or a rest.  It
    compares the relative change from the largest to the smallest entry
    of a column, which is never positive there, with positive limits; so
    for every step that has a row it returns [ir] when the step is a
    single row with a current between 0 and 0.001 A in size, and
    [not_known] otherwise, with an empty info. *)
Theorem examine_step_non_negative (test : dataset) (cycle_number step_number : Z)
    (allow_constantvoltagestep cyclic_voltametry : bool) :
  let step :=
    List.filter (fun r => Step_Index r =? step_number)
      (List.filter (fun r => Cycle_Index r =? cycle_number) (raw_rows (dfdata test))) in
  let total_current := Qabs (Qsum (map Current step)) in
  step <> [] ->
  (forall r, In r step ->
     (0 <= Discharge_Capacity r /\ 0 <= Charge_Capacity r /\ 0 <= Voltage r)%Q) ->
  _examine_step test cycle_number step_number allow_constantvoltagestep cyclic_voltametry
  = Some (if Qlt_bool total_current (1 # 1000) && Qlt_bool 0 total_current
             && Nat.eqb (length step) 1
          then "ir"%string else "not_known"%string, ""%string).
Proof.
  intros step total_current Hne Hall. unfold _examine_step. fold step.
  assert (Hcol : forall col : raw_row -> Q,
            (forall r, In r step -> (0 <= col r)%Q) -> forall limit, (0 < limit)%Q ->
            fl_ge (column_change (map col step)) (Fin limit) = false).
  { intros col Hc limit Hlimit. apply column_change_non_negative; [|exact Hlimit].
    apply Forall_forall. intros y Hy. apply in_map_iff in Hy.
    destruct Hy as (r & <- & Hr). apply Hc, Hr. }
  pose proof (Hcol Discharge_Capacity (fun r Hr => proj1 (Hall r Hr)) minimum_change_limit
                eq_refl) as Hdd.
  pose proof (Hcol Charge_Capacity (fun r Hr => proj1 (proj2 (Hall r Hr)))
                minimum_change_limit eq_refl) as Hdc.
  pose proof (Hcol Voltage (fun r Hr => proj2 (proj2 (Hall r Hr)))) as Hv.
  pose proof (Hv minimum_change_limit eq_refl) as Hv1.
  pose proof (Hv minimum_change_limit_voltage_cv eq_refl) as Hv2.
  pose proof (Hv minimum_stable_limit eq_refl) as Hv3.
  cbv zeta. rewrite Hdd, Hdc, Hv1, Hv2, Hv3.
  cbn [orb andb negb]. fold total_current.
  cbv zeta. change typicall_current_max with (1 # 1000)%Q.
  destruct (Qlt_bool total_current (1 # 1000) && Qlt_bool 0 total_current
            && Nat.eqb (length step) 1);
    destruct (negb (Qlt_bool total_current (0 + minimum_ierror_limit))); reflexivity.
Qed.

Lemma examine_step_non_negative_witness :
  _examine_step (loaded cv_discharge_step [2]) 1 1 true false
  = Some ("not_known"%string, ""%string).
Proof.
  apply (examine_step_non_negative (loaded cv_discharge_step [2]) 1 1 true false).
  - discriminate.
  - simpl. intros r [<-|[<-|[]]]; repeat split; discriminate.
Defined.

Lemma last_map_Some {A : Type} (l : list A) (x : A) :
  exists v, List.last (map Some (x :: l)) None = Some v.
Proof.
  revert x. induction l as [|y l IH]; intros x; [exists x; reflexivity|].
  destruct (IH y) as [v Hv]. exists v. exact Hv.
Qed.

(** X27.  [_examine_step] returns for every dataset, cycle and step, also
    for a step without rows; the type it returns is one of
    [list_of_step_types] and the info is empty. *)
Theorem examine_step_type_is_listed (test : dataset) (cycle_number step_number : Z)
    (allow_constantvoltagestep cyclic_voltametry : bool) :
  exists step_type,
    _examine_step test cycle_number step_number allow_constantvoltagestep cyclic_voltametry
    = Some (step_type, ""%string)
    /\ string_in step_type list_of_step_types = true.
Proof.
  unfold _examine_step.
  destruct (List.filter (fun r => Step_Index r =? step_number) _) as [|r0 rest].
  - exists "not_known"%string. split; reflexivity.
  - destruct (last_map_Some (map Voltage rest) (Voltage r0)) as [v_2 Hv].
    cbn [map] in Hv |- *. rewrite Hv. cbn [List.head mbind option_bind]. cbv zeta.
    repeat match goal with
           | |- context [if ?c then _ else _] =>
               lazymatch c with
               | context [if _ then _ else _] => fail
               | _ => destruct c
               end
           end;
      eexists; split; reflexivity.
Qed.

(** ** [_compare_ids] *)

Lemma forallb_false_In {A : Type} (f : A -> bool) (l : list A) :
  forallb f l = false -> exists x, In x l /\ f x = false.
Proof.
  induction l as [|x l IH]; [discriminate|]. cbn [forallb].
  destruct (f x) eqn:E.
  - intros H. destruct (IH H) as (y & Hy & Hf). exists y. split; [right; exact Hy|exact Hf].
  - intros _. exists x. split; [left; reflexivity|exact E].
Qed.

Lemma compare_loop_raised (ids_hdf5 : gmap string Z) (items : list (string * Z)) :
  fold_left (fun (similar : option bool) (item : string * Z) =>
               similar ← similar;
               value' ← ids_hdf5 !! fst item;
               Some (if negb (value' =? snd item) then false else similar))
    items None = None.
Proof. induction items as [|item items IH]; [reflexivity|exact IH]. Qed.

Lemma compare_loop_spec (ids_hdf5 : gmap string Z) (items : list (string * Z))
    (similar : bool) :
  fold_left (fun (similar : option bool) (item : string * Z) =>
               similar ← similar;
               value' ← ids_hdf5 !! fst item;
               Some (if negb (value' =? snd item) then false else similar))
    items (Some similar)
  = if forallb (fun item => bool_decide (is_Some (ids_hdf5 !! fst item))) items
    then Some (similar
               && forallb (fun item => bool_decide (ids_hdf5 !! fst item = Some (snd item)))
                    items)
    else None.
Proof.
  revert similar. induction items as [|[name value] items IH]; intros similar.
  - cbn. rewrite andb_true_r. reflexivity.
  - cbn [fold_left forallb fst snd mbind option_bind].
    destruct (ids_hdf5 !! name) as [value'|] eqn:E; cbn [mbind option_bind].
    + rewrite IH. rewrite (bool_decide_eq_true_2 _ (mk_is_Some _ _ eq_refl)). cbn [andb].
      destruct (forallb _ items); [|reflexivity]. f_equal.
      destruct (Z.eqb_spec value' value) as [->|Hne]; cbn [negb].
      * rewrite (bool_decide_eq_true_2 _ eq_refl). reflexivity.
      * rewrite bool_decide_eq_false_2 by congruence.
        rewrite andb_false_r. reflexivity.
    + rewrite compare_loop_raised.
      rewrite bool_decide_eq_false_2; [reflexivity|]. intros [x Hx]. discriminate.
Qed.

(** X28.  [_compare_ids] answers [True] exactly when the two dictionaries
    are equal and not empty. *)
Theorem compare_ids_true_iff (ids_res ids_hdf5 : gmap string Z) :
  _compare_ids ids_res ids_hdf5 = Some true <-> ids_res = ids_hdf5 /\ ids_res <> ∅.
Proof.
  unfold _compare_ids. split.
  - destruct (Nat.eqb_spec (size ids_res) (size ids_hdf5)) as [Hsize|Hsize];
      cbn [andb]; [|discriminate].
    destruct (Nat.ltb_spec 0 (size ids_hdf5)) as [Hpos|Hpos]; [|discriminate].
    rewrite compare_loop_spec.
    destruct (forallb _ (map_to_list ids_res)); [|discriminate].
    cbn [andb]. intros [= Hall]. rewrite forallb_forall in Hall.
    assert (Hsub : ids_res ⊆ ids_hdf5).
    { apply map_subseteq_spec. intros name value Hname.
      apply elem_of_map_to_list, list_elem_of_In in Hname.
      specialize (Hall _ Hname). apply bool_decide_eq_true_1 in Hall. exact Hall. }
    split.
    + apply map_subseteq_size_eq; [exact Hsub|]. rewrite Hsize. reflexivity.
    + intros ->. rewrite map_size_empty in Hsize. rewrite <- Hsize in Hpos. lia.
  - intros [<- Hne].
    rewrite Nat.eqb_refl. cbn [andb].
    assert (Hpos : (0 < size ids_res)%nat).
    { destruct (size ids_res) eqn:E; [|lia]. apply map_size_empty_iff in E. contradiction. }
    rewrite (proj2 (Nat.ltb_lt _ _) Hpos), compare_loop_spec.
    assert (Hall : forall item, In item (map_to_list ids_res) ->
                     ids_res !! fst item = Some (snd item)).
    { intros [name value] Hin. apply list_elem_of_In, elem_of_map_to_list in Hin. exact Hin. }
    rewrite (proj2 (forallb_forall _ _)).
    + rewrite (proj2 (forallb_forall _ _)); [reflexivity|].
      intros item Hin. apply bool_decide_eq_true_2, Hall, Hin.
    + intros item Hin. apply bool_decide_eq_true_2. rewrite (Hall item Hin). eauto.
Qed.

(** X29.  [_compare_ids] raises [KeyError] exactly when the two dictionaries
    have the same number of entries and some name of the first is not a
    name of the second (a raw file has been renamed or replaced by
    another): it does not answer [False] then. *)
Theorem compare_ids_raises_iff (ids_res ids_hdf5 : gmap string Z) :
  _compare_ids ids_res ids_hdf5 = None
  <-> size ids_res = size ids_hdf5
      /\ exists name, is_Some (ids_res !! name) /\ ids_hdf5 !! name = None.
Proof.
  unfold _compare_ids. split.
  - destruct (Nat.eqb_spec (size ids_res) (size ids_hdf5)) as [Hsize|Hsize];
      cbn [andb]; [|discriminate].
    destruct (Nat.ltb_spec 0 (size ids_hdf5)) as [Hpos|Hpos]; [|discriminate].
    rewrite compare_loop_spec.
    destruct (forallb _ (map_to_list ids_res)) eqn:Hall; [discriminate|].
    intros _. split; [exact Hsize|].
    apply forallb_false_In in Hall. destruct Hall as ([name value] & Hin & Hno).
    exists name. apply list_elem_of_In, elem_of_map_to_list in Hin. split; [eauto|].
    apply bool_decide_eq_false_1 in Hno. cbn [fst] in Hno.
    destruct (ids_hdf5 !! name) eqn:E; [|reflexivity]. exfalso. apply Hno. eauto.
  - intros (Hsize & name & [value Hin] & Hno).
    rewrite Hsize, Nat.eqb_refl. cbn [andb].
    assert (Hpos : (0 < size ids_hdf5)%nat).
    { rewrite <- Hsize. destruct (size ids_res) eqn:E; [|lia].
      apply map_size_empty_iff in E. subst ids_res. rewrite lookup_empty in Hin. discriminate. }
    rewrite (proj2 (Nat.ltb_lt _ _) Hpos), compare_loop_spec.
    destruct (forallb _ (map_to_list ids_res)) eqn:Hall; [|reflexivity].
    rewrite forallb_forall in Hall.
    apply elem_of_map_to_list, list_elem_of_In in Hin. specialize (Hall _ Hin).
    apply bool_decide_eq_true_1 in Hall. cbn [fst] in Hall. rewrite Hno in Hall.
    destruct Hall as [x Hx]. discriminate.
Qed.

(** ** [_select_last], continued *)

Lemma NoDup_map_eq {A B : Type} (f : A -> B) (l : list A) (x y : A) :
  NoDup (map f l) -> In x l -> In y l -> f x = f y -> x = y.
Proof.
  induction l as [|a l IH]; [intros _ []|].
  cbn [map]. intros Hnd Hx Hy Hf. apply NoDup_cons_iff in Hnd. destruct Hnd as [Ha Hnd].
  destruct Hx as [->|Hx], Hy as [->|Hy].
  - reflexivity.
  - exfalso. apply Ha. rewrite Hf. apply in_map, Hy.
  - exfalso. apply Ha. rewrite <- Hf. apply in_map, Hx.
  - apply IH; assumption.
Qed.

Lemma NoDup_map_on {A B : Type} (f : A -> B) (l : list A) :
  NoDup l -> (forall x y, In x l -> In y l -> f x = f y -> x = y) -> NoDup (map f l).
Proof.
  induction 1 as [|a l Ha Hl IH]; intros Hinj; cbn [map]; constructor.
  - intros Hin. apply in_map_iff in Hin. destruct Hin as (b & Hb & Hin).
    assert (b = a) by (apply Hinj; [right; exact Hin|left; reflexivity|exact Hb]).
    subst b. contradiction.
  - apply IH. intros x y Hx Hy. apply Hinj; right; assumption.
Qed.

Lemma cycle_range_NoDup (max_step : Z) : NoDup (cycle_range max_step).
Proof.
  unfold cycle_range. apply NoDup_map_on; [apply seq_NoDup|]. intros x y _ _ H. lia.
Qed.

Lemma last_point_row (rows : list raw_row) (j z : Z) :
  last_point rows j = Some z ->
  exists r, In r rows /\ Cycle_Index r = j /\ Data_Point r = z.
Proof.
  unfold last_point. intros H. apply max_Z_inv in H. destruct H as [Hin _].
  apply in_map_iff in Hin. destruct Hin as (r & Hz & Hr).
  apply filter_In in Hr. destruct Hr as [Hr Hc]. apply Z.eqb_eq in Hc. eauto.
Qed.

(** X30.  One row for each cycle.  When no two rows of the raw table share
    a data point and [_select_last] returns, the rows it marks are one
    row for each cycle number from 1 to the largest: their cycle indices
    are these numbers, each once. *)
Theorem select_last_one_row_per_cycle (t : raw_table) (mask : raw_row -> bool) :
  _select_last t = Some mask ->
  NoDup (map Data_Point (raw_rows t)) ->
  exists max_step,
    max_Z (map Cycle_Index (raw_rows t)) = Some max_step
    /\ Permutation (map Cycle_Index (List.filter mask (raw_rows t))) (cycle_range max_step)
    /\ length (List.filter mask (raw_rows t)) = Z.to_nat max_step.
Proof.
  intros H Hnd. unfold _select_last in H.
  destruct (max_Z (map Cycle_Index (raw_rows t))) as [max_step|]; [|discriminate].
  fold (cycle_range max_step) in H.
  destruct (last_items (raw_rows t) (cycle_range max_step)) as [steps|] eqn:E; [|discriminate].
  injection H as <-. exists max_step. split; [reflexivity|].
  set (rows := raw_rows t) in *.
  assert (Hmask : forall r, In r rows ->
            (existsb (Z.eqb (Data_Point r)) steps = true
             <-> 1 <= Cycle_Index r <= max_step
                 /\ last_point rows (Cycle_Index r) = Some (Data_Point r))).
  { intros r Hr. rewrite existsb_Zeqb_In, (last_items_Some _ _ _ E). split.
    - intros (j & Hj & Hz). apply cycle_range_In in Hj.
      destruct (last_point_row _ _ _ Hz) as (r' & Hr' & Hc & Hd).
      assert (r' = r) by (apply (NoDup_map_eq Data_Point rows); assumption).
      subst r'. subst j. split; assumption.
    - intros [Hj Hz]. exists (Cycle_Index r). split; [apply cycle_range_In, Hj|exact Hz]. }
  assert (Hperm : Permutation
            (map Cycle_Index (List.filter (fun r => existsb (Z.eqb (Data_Point r)) steps) rows))
            (cycle_range max_step)).
  { apply NoDup_Permutation.
    - apply NoDup_map_on.
      + apply NoDup_filter. eapply NoDup_map_inv, Hnd.
      + intros x y Hx Hy Hc. apply filter_In in Hx, Hy.
        destruct Hx as [Hx Mx], Hy as [Hy My].
        apply (NoDup_map_eq Data_Point rows); [exact Hnd|exact Hx|exact Hy|].
        apply Hmask in Mx, My; [|assumption..].
        destruct Mx as [_ Mx], My as [_ My]. rewrite Hc in Mx. congruence.
    - apply cycle_range_NoDup.
    - intros j. rewrite in_map_iff, cycle_range_In. split.
      + intros (r & <- & Hr). apply filter_In in Hr. destruct Hr as [Hr Mr].
        apply Hmask in Mr; [apply Mr|exact Hr].
      + intros Hj. destruct (last_point rows j) as [z|] eqn:Ez.
        * destruct (last_point_row _ _ _ Ez) as (r & Hr & Hc & Hd).
          exists r. split; [exact Hc|]. apply filter_In. split; [exact Hr|].
          apply Hmask; [exact Hr|]. rewrite Hc, Hd. split; assumption.
        * rewrite (last_items_None _ _ j) in E;
            [discriminate|apply cycle_range_In, Hj|exact Ez]. }
  split; [exact Hperm|].
  apply Permutation_length in Hperm. rewrite length_map in Hperm. rewrite Hperm.
  unfold cycle_range. rewrite length_map, length_seq. reflexivity.
Qed.

Lemma select_last_one_row_per_cycle_witness : exists mask,
  _select_last (dfdata two_cycles) = Some mask
  /\ length (List.filter mask (raw_rows (dfdata two_cycles))) = 2%nat.
Proof.
  assert (H : _select_last (dfdata two_cycles)
              = Some (match _select_last (dfdata two_cycles) with
                      | Some mask => mask
                      | None => fun _ => false
                      end)) by reflexivity.
  eexists. split; [exact H|].
  destruct (select_last_one_row_per_cycle _ _ H) as (max_step & Hmax & _ & Hlen).
  - vm_compute. repeat (constructor; [simpl; intuition discriminate|]). constructor.
  - injection Hmax as <-. exact Hlen.
Defined.
